(** * Solar output predictor: the calculation core of [solar_app.py]

    The script reads three numbers from Streamlit widgets, one weather
    record from OpenWeather, and evaluates lines 79-92 of the source: two
    derating factors, the derated power, a daily and a monthly energy
    figure, and the bill with and without the panels.

    Python evaluates those lines on [int] and [float] objects.  A Python
    [float] is an IEEE 754 binary64 number, and every operator rounds to
    nearest, ties to even.  The development below keeps that arithmetic:
    floats are [spec_float] values of the Standard Library at precision 53,
    the operators are the library's [SFmul], [SFsub], [SFdiv], and Python's
    coercion of [int] operands is written out.

    The widgets fix the types of three inputs: [st.number_input] returns a
    [float] for a float default ([panel_power], [tariff]) and an [int] for
    an int default ([monthly_usage]).  [temp_c] is a float, because line 73
    subtracts the float literal 273.15, and [clouds] is the number found in
    the weather record, an [int] or a [float].  The theorems quantify over
    inputs of these types. *)

From Stdlib Require Import ZArith Bool Lia QArith Qpower Lqa.
From Stdlib Require Import SpecFloat.
From Stdlib Require Import String List.
Import ListNotations.

Local Open Scope Z_scope.

(** ** Binary64 *)

Definition prec : Z := 53.
Definition emax : Z := 1024.

Definition float : Set := spec_float.

Definition fmul : float -> float -> float := SFmul prec emax.
Definition fsub : float -> float -> float := SFsub prec emax.
Definition fdiv : float -> float -> float := SFdiv prec emax.
Definition fcompare : float -> float -> option comparison := SFcompare.
Definition valid (x : float) : bool := valid_binary prec emax x.

(** An integer as an exact (not normalised) operand of a float operation. *)
Definition Z2SF (z : Z) : float :=
  match z with
  | Z0 => S754_zero false
  | Zpos p => S754_finite false p 0
  | Zneg p => S754_finite true p 0
  end.

(** The double nearest to the decimal literal [n/d]: both integers are
    exact operands and the division rounds once, as Python's parser does. *)
Definition literal (n d : Z) : float := fdiv (Z2SF n) (Z2SF d).

(** ** Python numbers and operators *)

Inductive num : Type :=
| Int (z : Z)
| Float (f : float).

Inductive exn : Type :=
| OverflowError
| ZeroDivisionError.

Inductive res (A : Type) : Type :=
| Ok (a : A)
| Raise (e : exn).

Arguments Ok {A} a.
Arguments Raise {A} e.

Definition bind {A B : Type} (m : res A) (k : A -> res B) : res B :=
  match m with
  | Ok a => k a
  | Raise e => Raise e
  end.

Notation "x <- m ;; k" := (bind m (fun x => k))
  (at level 61, m at next level, right associativity).

(** [float(z)]: nearest double, [OverflowError] when it is out of range. *)
Definition float_of_int (z : Z) : res float :=
  match binary_normalize prec emax z 0 false with
  | S754_infinity _ => Raise OverflowError
  | f => Ok f
  end.

Definition is_zero (x : float) : bool :=
  match x with
  | S754_zero _ => true
  | _ => false
  end.

Definition is_finite (x : float) : bool :=
  match x with
  | S754_zero _ | S754_finite _ _ _ => true
  | _ => false
  end.

(** [a * b] *)
Definition py_mul (a b : num) : res num :=
  match a, b with
  | Int x, Int y => Ok (Int (x * y))
  | Int x, Float y => fx <- float_of_int x ;; Ok (Float (fmul fx y))
  | Float x, Int y => fy <- float_of_int y ;; Ok (Float (fmul x fy))
  | Float x, Float y => Ok (Float (fmul x y))
  end.

(** [a - b] *)
Definition py_sub (a b : num) : res num :=
  match a, b with
  | Int x, Int y => Ok (Int (x - y))
  | Int x, Float y => fx <- float_of_int x ;; Ok (Float (fsub fx y))
  | Float x, Int y => fy <- float_of_int y ;; Ok (Float (fsub x fy))
  | Float x, Float y => Ok (Float (fsub x y))
  end.

Definition float_truediv (x y : float) : res num :=
  if is_zero y then Raise ZeroDivisionError else Ok (Float (fdiv x y)).

(** [a / b]: true division; two [int]s give the correctly rounded quotient. *)
Definition py_truediv (a b : num) : res num :=
  match a, b with
  | Int x, Int y =>
      if y =? 0 then Raise ZeroDivisionError
      else match fdiv (Z2SF x) (Z2SF y) with
           | S754_infinity _ => Raise OverflowError
           | q => Ok (Float q)
           end
  | Int x, Float y => fx <- float_of_int x ;; float_truediv fx y
  | Float x, Int y => fy <- float_of_int y ;; float_truediv x fy
  | Float x, Float y => float_truediv x y
  end.

(** Exact comparison of a float with an integer, as Python does it. *)
Definition SF_Z_compare (x : float) (z : Z) : option comparison :=
  match x with
  | S754_nan => None
  | S754_infinity s => Some (if s then Lt else Gt)
  | S754_zero _ => Some (0 ?= z)
  | S754_finite s m e =>
      let v := cond_Zopp s (Zpos m) in
      if 0 <=? e then Some (v * 2 ^ e ?= z) else Some (v ?= z * 2 ^ (- e))
  end.

Definition num_compare (a b : num) : option comparison :=
  match a, b with
  | Int x, Int y => Some (x ?= y)
  | Float x, Float y => fcompare x y
  | Float x, Int y => SF_Z_compare x y
  | Int x, Float y => option_map CompOpp (SF_Z_compare y x)
  end.

(** [a > b], [a < b], [a >= b], [a <= b]: false when an operand is a NaN. *)
Definition py_gt (a b : num) : bool :=
  match num_compare a b with Some Gt => true | _ => false end.

Definition py_lt (a b : num) : bool :=
  match num_compare a b with Some Lt => true | _ => false end.

Definition py_ge (a b : num) : bool :=
  match num_compare a b with Some (Gt | Eq) => true | _ => false end.

Definition py_le (a b : num) : bool :=
  match num_compare a b with Some (Lt | Eq) => true | _ => false end.

(** [a == b] *)
Definition py_eq (a b : num) : bool :=
  match num_compare a b with Some Eq => true | _ => false end.

(** [max(a, b)]: the first argument unless the second is greater. *)
Definition py_max (a b : num) : num :=
  if py_gt b a then b else a.

(** ** The literals of the source *)

Definition f0_8 : float := Eval vm_compute in literal 8 10.
Definition f0_005 : float := Eval vm_compute in literal 5 1000.
Definition f273_15 : float := Eval vm_compute in literal 27315 100.

(** ** The calculation (source lines 73-92) *)

(** Line 73: [temp_c = temp_k - 273.15]. *)
Definition celsius (temp_k : num) : res num :=
  py_sub temp_k (Float f273_15).

Record Engineering : Type := {
  cloud_efficiency : num;
  heat_loss : num;
  temp_efficiency : num;
  actual_power : num;
  daily_production : num;
  monthly_production : num
}.

(** Lines 79-86. *)
Definition engineering (panel_power clouds temp_c : num) : res Engineering :=
  share <- py_truediv clouds (Int 100) ;;
  loss <- py_mul share (Float f0_8) ;;
  cloud_efficiency <- py_sub (Int 1) loss ;;
  excess <- py_sub temp_c (Int 25) ;;
  derate <- py_mul excess (Float f0_005) ;;
  let heat_loss := py_max (Int 0) derate in
  temp_efficiency <- py_sub (Int 1) heat_loss ;;
  clouded <- py_mul panel_power cloud_efficiency ;;
  actual_power <- py_mul clouded temp_efficiency ;;
  daily_production <- py_mul actual_power (Int 5) ;;
  monthly_production <- py_mul daily_production (Int 30) ;;
  Ok {| cloud_efficiency := cloud_efficiency;
        heat_loss := heat_loss;
        temp_efficiency := temp_efficiency;
        actual_power := actual_power;
        daily_production := daily_production;
        monthly_production := monthly_production |}.

Record Financial : Type := {
  old_bill : num;
  net_usage : num;
  new_bill : num;
  savings : num
}.

(** Lines 89-92. *)
Definition financial (monthly_usage tariff monthly_production : num)
  : res Financial :=
  old_bill <- py_mul monthly_usage tariff ;;
  remaining <- py_sub monthly_usage monthly_production ;;
  let net_usage := py_max (Int 0) remaining in
  new_bill <- py_mul net_usage tariff ;;
  savings <- py_sub old_bill new_bill ;;
  Ok {| old_bill := old_bill;
        net_usage := net_usage;
        new_bill := new_bill;
        savings := savings |}.

(** Lines 79-92 as one function of the five values they read. *)
Definition compute (panel_power monthly_usage tariff clouds temp_c : num)
  : res (Engineering * Financial) :=
  eng <- engineering panel_power clouds temp_c ;;
  fin <- financial monthly_usage tariff (monthly_production eng) ;;
  Ok (eng, fin).

(** Lines 71-92: from the widget values and the weather record. *)
Definition analyse (panel_power monthly_usage tariff clouds temp_k : num)
  : res (Engineering * Financial) :=
  temp_c <- celsius temp_k ;;
  compute panel_power monthly_usage tariff clouds temp_c.

(** Doubles of integers and decimals that the statements mention. *)
Definition f0 : float := S754_zero false.
Definition f1 : float := Eval vm_compute in literal 1 1.
Definition f5 : float := Eval vm_compute in literal 5 1.
Definition f8 : float := Eval vm_compute in literal 8 1.
Definition f25 : float := Eval vm_compute in literal 25 1.
Definition f30 : float := Eval vm_compute in literal 30 1.
Definition f100 : float := Eval vm_compute in literal 100 1.
Definition f150 : float := Eval vm_compute in literal 150 1.
Definition f225 : float := Eval vm_compute in literal 225 1.
Definition f0_2 : float := Eval vm_compute in literal 2 10.
Definition f125 : float := Eval vm_compute in literal 125 1.
Definition f300 : float := Eval vm_compute in literal 300 1.
Definition f1e307 : float := Eval vm_compute in literal (10 ^ 307) 1.

(** * Exact values and rounding

    The proofs read a double as the rational it denotes and an operation as
    the rounding of the exact result.  The definitions below say what
    rounding is; the lemmas after them show that the library's operations
    compute it. *)

(** The integer nearest to the rational [N/D], ties to even, for [D > 0]. *)
Definition RNE (N D : Z) : Z :=
  let q := N / D in
  match 2 * (N mod D) ?= D with
  | Lt => q
  | Eq => if Z.even q then q else q + 1
  | Gt => q + 1
  end.

(** What a shift record knows about the rational [N/D] under rounding: its
    integer part, whether the remainder reaches one half, and whether it
    is neither zero nor one half (the round and sticky bits). *)
Definition represents (N D : Z) (mrs : shr_record) : Prop :=
  0 < D /\ 0 <= N /\
  shr_m mrs = N / D /\
  shr_r mrs = (D <=? 2 * (N mod D)) /\
  shr_s mrs = negb (N mod D =? 0) && negb (2 * (N mod D) =? D).

(** [2 ^ e] for an integer exponent of either sign. *)
Definition bpow (e : Z) : Q := Qpower 2 e.

(** The rational a finite double denotes (0 for the other doubles). *)
Definition F2Q (x : spec_float) : Q :=
  match x with
  | S754_finite s m e => (inject_Z (cond_Zopp s (Zpos m)) * bpow e)%Q
  | _ => 0%Q
  end.

(** The integer nearest to a rational, ties to even. *)
Definition RNEQ (v : Q) : Z := RNE (Qnum v) (Zpos (Qden v)).

(** The last step of the library's [binary_round_aux]: the double of sign
    [s] for the rounded mantissa [n] at exponent [E], renormalised when the
    mantissa has reached [2 ^ prec], an infinity when the exponent is out
    of range. *)
Definition encode (s : bool) (n E : Z) : spec_float :=
  let '(mrs, e) := shr_fexp prec emax n E loc_Exact in
  match shr_m mrs with
  | Z0 => S754_zero s
  | Zpos m => if e <=? emax - prec then S754_finite s m e else S754_infinity s
  | Zneg _ => S754_nan
  end.

(** [r] is the positive rational [v], rounded to nearest even at the
    exponent that the binade of [v] prescribes, with sign [s]. *)
Definition rounds (s : bool) (v : Q) (r : spec_float) : Prop :=
  exists g : Z,
    (bpow (g - 1) <= v < bpow g)%Q /\
    r = encode s (RNEQ (v * bpow (- fexp prec emax g))) (fexp prec emax g).

(** [r] is the canonical double of sign [s] and magnitude [val], or the
    infinity of that sign when [val] is out of range. *)
Definition encodes (s : bool) (val : Q) (r : spec_float) : Prop :=
  (val == 0 /\ r = S754_zero s)%Q \/
  (bpow emax <= val /\ r = S754_infinity s)%Q \/
  (exists m e, r = S754_finite s m e /\ bounded prec emax m e = true /\
               (val == inject_Z (Zpos m) * bpow e)%Q).

(** [r] is the rational [v] rounded to a double. *)
Definition Rnd (v : Q) (r : spec_float) : Prop :=
  (v == 0 /\ exists s, r = S754_zero s)%Q \/
  (0 < v /\ rounds false v r)%Q \/
  (v < 0 /\ rounds true (- v) r)%Q.

(** A finite double in canonical form. *)
Definition wf (x : float) : bool := valid x && is_finite x.

(** An [int], or a finite double in canonical form. *)
Definition wf_num (a : num) : bool :=
  match a with
  | Int _ => true
  | Float f => wf f
  end.

(** The exact value of a number. *)
Definition num2Q (a : num) : Q :=
  match a with
  | Int z => inject_Z z
  | Float f => F2Q f
  end.

(** ** The float path of lines 79-86

    With a float system size and a float temperature every intermediate
    value is a float, except that [max(0, x)] returns the [int] 0 when [x]
    is not positive.  These functions name the floats that occur. *)

Definition is_pos (d : float) : bool := py_gt (Float d) (Int 0).

Definition ce_of (share : float) : float := fsub f1 (fmul share f0_8).

Definition derate_of (t : float) : float := fmul (fsub t f25) f0_005.

Definition te_of (t : float) : float :=
  if is_pos (derate_of t) then fsub f1 (derate_of t) else f1.

Definition power_of (x share t : float) : float :=
  fmul (fmul x (ce_of share)) (te_of t).

(** The largest finite double, and the smallest value of [cloud_efficiency]
    on cloud cover up to 100: the double [1 - 0.8]. *)
Definition fmax : float := S754_finite false 9007199254740991 971.
Definition ce_min : float := Eval vm_compute in fsub f1 f0_8.

(** The doubles that follow 125 and 225. *)
Definition f125_succ : float := S754_finite false 8796093022208001 (-46).
Definition f225_succ : float := S754_finite false 7916483719987201 (-45).

(** The float path of lines 89-92, for an [int] usage converted to [muf]. *)
Definition net_of (muf mp : float) : float :=
  if is_pos (fsub muf mp) then fsub muf mp else f0.

Definition fin_record (muf t mp : float) : Financial :=
  {| old_bill := Float (fmul muf t);
     net_usage := if is_pos (fsub muf mp) then Float (fsub muf mp) else Int 0;
     new_bill := Float (fmul (net_of muf mp) t);
     savings := Float (fsub (fmul muf t) (fmul (net_of muf mp) t)) |}.

Definition is_neg (d : float) : bool := py_lt (Float d) (Int 0).

(** A result that is negative, or the negative zero of an underflow. *)
Definition neg_or_mzero (d : float) : Prop :=
  is_neg d = true \/ d = S754_zero true.

(** The record computed for a float system size and a float temperature. *)
Definition float_record (x share t : float) : Engineering :=
  {| cloud_efficiency := Float (ce_of share);
     heat_loss := if is_pos (derate_of t) then Float (derate_of t) else Int 0;
     temp_efficiency := if is_pos (derate_of t) then Float (fsub f1 (derate_of t)) else Int 1;
     actual_power := Float (power_of x share t);
     daily_production := Float (fmul (power_of x share t) f5);
     monthly_production := Float (fmul (fmul (power_of x share t) f5) f30) |}.

(** * The script around the calculation (source lines 57-168)

    Lines 57-168 run when the button is pressed: they read the API key,
    ask OpenWeather for the city, take four entries out of the answer,
    evaluate lines 79-92 and draw the dashboard.  Everything from the
    request on is inside one [try] block whose handler shows an error box.

    The world outside the script is a parameter: whether the button was
    pressed, what [st.secrets] holds and what [requests.get] answers.  What
    the script does to the page is the list of the Streamlit calls it
    makes, in order.  Streamlit's own calls are taken to return; the
    exceptions of the model are those of the script's own expressions and
    those the request raises. *)

(** ** The weather record *)

(** A value as [response.json()] returns it.  The fields of an object have
    distinct keys, as the entries of a Python [dict]. *)
#[warnings="-register-all"]
Inductive json : Type :=
| JNull
| JBool (b : bool)
| JNum (n : num)
| JStr (s : string)
| JArr (items : list json)
| JObj (fields : list (string * json)).

(** The exceptions of lines 60-161: a missing key, an operand of the wrong
    type, the two arithmetic errors of the calculation, and whatever the
    request or the decoding of its answer raises. *)
Inductive exception : Type :=
| KeyError (key : string)
| TypeError
| Arithmetic (e : exn)
| RequestError (message : string).

Inductive result (A : Type) : Type :=
| Return (a : A)
| Throw (e : exception).

Arguments Return {A} a.
Arguments Throw {A} e.

Definition result_bind {A B : Type} (m : result A) (k : A -> result B)
  : result B :=
  match m with
  | Return a => k a
  | Throw e => Throw e
  end.

Notation "x <~ m ;; k" := (result_bind m (fun x => k))
  (at level 61, m at next level, right associativity).

(** An arithmetic result inside the [try] block. *)
Definition lift {A : Type} (r : res A) : result A :=
  match r with
  | Ok a => Return a
  | Raise e => Throw (Arithmetic e)
  end.

Fixpoint assoc (key : string) (fields : list (string * json)) : option json :=
  match fields with
  | [] => None
  | (k, v) :: rest => if String.eqb key k then Some v else assoc key rest
  end.

(** [v[key]] for a string key: only a [dict] can be indexed by a string. *)
Definition getitem (v : json) (key : string) : result json :=
  match v with
  | JObj fields =>
      match assoc key fields with
      | Some x => Return x
      | None => Throw (KeyError key)
      end
  | _ => Throw TypeError
  end.

(** A value as an operand of [-] or [/] with a number: [int], [float], and
    [bool], which is an [int]; anything else is a [TypeError]. *)
Definition as_num (v : json) : result num :=
  match v with
  | JNum n => Return n
  | JBool b => Return (Int (if b then 1 else 0))
  | _ => Throw TypeError
  end.

(** Lines 71-75. *)
Record Weather : Type := {
  clouds : json;
  temp_c : num;
  lat : json;
  lon : json
}.

Definition data_mining (data : json) : result Weather :=
  all <~ getitem data "clouds" ;;
  clouds <~ getitem all "all" ;;
  main <~ getitem data "main" ;;
  temp_k <~ getitem main "temp" ;;
  kelvin <~ as_num temp_k ;;
  temp_c <~ lift (celsius kelvin) ;;
  coord <~ getitem data "coord" ;;
  lat <~ getitem coord "lat" ;;
  coord' <~ getitem data "coord" ;;
  lon <~ getitem coord' "lon" ;;
  Return {| clouds := clouds; temp_c := temp_c; lat := lat; lon := lon |}.

(** ** The form *)

(** Lines 48-54: the values of the four input widgets.  [st.number_input]
    returns a [float] for a float default and an [int] for an int default. *)
Record Inputs : Type := {
  city : string;
  panel_power : float;
  monthly_usage : Z;
  tariff : float
}.

(** Lines 79-92 on the form and the weather record.  [clouds] is first used
    as a number on line 79. *)
Definition calculations (inp : Inputs) (w : Weather)
  : result (Engineering * Financial) :=
  c <~ as_num (clouds w) ;;
  lift (compute (Float (panel_power inp)) (Int (monthly_usage inp))
                (Float (tariff inp)) c (temp_c w)).

(** ** The expressions of the dashboard *)

(** [min(a, b)]: the first argument unless the second is smaller. *)
Definition py_min (a b : num) : num :=
  if py_lt b a then b else a.

(** Line 107: [actual_power - panel_power]. *)
Definition output_delta (eng : Engineering) (panel_power : num) : res num :=
  py_sub (actual_power eng) panel_power.

(** Line 132: [heat_loss*100]. *)
Definition heat_loss_percent (eng : Engineering) : res num :=
  py_mul (heat_loss eng) (Int 100).

(** Line 161: [min(100, (monthly_production/monthly_usage)*100)]. *)
Definition coverage (monthly_production monthly_usage : num) : res num :=
  ratio <- py_truediv monthly_production monthly_usage ;;
  percent <- py_mul ratio (Int 100) ;;
  Ok (py_min (Int 100) percent).

(** ** The page *)

(** A formatted string: literal text, [{v}], [{x:.<digits>f}] and the
    message of an exception. *)
Inductive piece : Type :=
| Lit (s : string)
| Str (v : json)
| Fixed (digits : nat) (x : num)
| Message (e : exception).

Definition text : Type := list piece.

(** The Streamlit calls of lines 99-168 with the arguments that carry
    text or data; colours and sizes are left out. *)
Inductive widget : Type :=
| Subheader (body : text)
| Map (lat lon : json) (zoom : Z)
| Columns (n : nat)
| Metric (label : string) (value : text) (delta : option text)
         (help : option string)
| AltairChart (rows : list (string * num))
| Expander (label : string)
| Markdown (body : text)
| Success (body : text)
| Error (body : text).

(** A stretch of the script: the calls made so far and how it ended. *)
Definition trace (A : Type) : Type := (list widget * result A)%type.

Definition done : trace unit := ([], Return tt).

Definition emit (w : widget) : trace unit := ([w], Return tt).

Definition eval {A : Type} (r : result A) : trace A := ([], r).

Definition trace_bind {A B : Type} (m : trace A) (k : A -> trace B)
  : trace B :=
  match m with
  | (ws, Return a) => let (ws', r) := k a in (ws ++ ws', r)
  | (ws, Throw e) => (ws, Throw e)
  end.

Notation "x <<- m ;; k" := (trace_bind m (fun x => k))
  (at level 61, m at next level, right associativity).
Notation "m ;;; k" := (trace_bind m (fun _ => k))
  (at level 61, right associativity).

(** Lines 99-161. *)
Definition dashboard (inp : Inputs) (w : Weather)
                     (eng : Engineering) (fin : Financial) : trace unit :=
  emit (Subheader [Lit "1. Environmental Analysis for "; Lit (city inp)]) ;;;
  emit (Map (lat w) (lon w) 10) ;;;
  emit (Columns 3) ;;;
  emit (Metric "☁️ Cloud Cover" [Str (clouds w); Lit "%"] None None) ;;;
  emit (Metric "🌡️ Temperature" [Fixed 1 (temp_c w); Lit "°C"] None None) ;;;
  delta <<- eval (lift (output_delta eng (Float (panel_power inp)))) ;;
  emit (Metric "⚡ Real-Time Output"
               [Fixed 2 (actual_power eng); Lit " kW"]
               (Some [Fixed 2 delta; Lit " kW"]) None) ;;;
  emit (Subheader [Lit "2. System Performance (Rated vs Actual)"]) ;;;
  emit (AltairChart [("Rated Max Power (Lab)"%string, Float (panel_power inp));
                     ("Actual Output (Now)"%string, actual_power eng)]) ;;;
  emit (Expander "ℹ️ Click to understand the Engineering Math") ;;;
  percent <<- eval (lift (heat_loss_percent eng)) ;;
  emit (Markdown
          [Lit "
                **Why is the output lower?**
                * **Rated Power** is measured at $25^\circ C$. Today it is **";
           Fixed 1 (temp_c w);
           Lit "^\circ C**.
                * **Thermal Loss:** Because of the heat, you are losing **";
           Fixed 1 percent;
           Lit "%** efficiency.
                * **Cloud Loss:** Clouds are blocking **";
           Str (clouds w);
           Lit "%** of the sky, reducing irradiance.
                "]) ;;;
  emit (Subheader [Lit "3. Financial Impact Analysis"]) ;;;
  emit (Columns 3) ;;;
  emit (Metric "Current Monthly Bill" [Fixed 0 (old_bill fin)] None
               (Some "Without Solar"%string)) ;;;
  emit (Metric "New Bill" [Fixed 0 (new_bill fin)]
               (Some [Lit "-"; Fixed 0 (savings fin); Lit " drop"])
               (Some "With Solar"%string)) ;;;
  emit (Metric "Est. Monthly Savings" [Fixed 0 (savings fin)] None
               (Some "Cash in pocket"%string)) ;;;
  emit (AltairChart [("Current Bill"%string, old_bill fin);
                     ("With Solar"%string, new_bill fin)]) ;;;
  if py_gt (savings fin) (Int 0) then
    covered <<- eval (lift (coverage (monthly_production eng)
                                     (Int (monthly_usage inp)))) ;;
    emit (Success [Lit "🎉 Success! This system covers ";
                   Fixed 0 covered;
                   Lit "% of your energy needs."])
  else done.

(** ** The run *)

Record Response : Type := {
  status_code : Z;
  json_body : result json
}.

Record World : Type := {
  button : bool;
  secret : string -> result string;
  get : string -> result Response
}.

(** Line 62. *)
Definition url_of (city api_key : string) : string :=
  ("https://api.openweathermap.org/data/2.5/weather?q=" ++ city
   ++ "&appid=" ++ api_key)%string.

Definition city_not_found : widget :=
  Error [Lit "❌ City not found! Please check spelling."].

Definition connection_error (e : exception) : widget :=
  Error [Lit "❌ Connection Error: "; Message e].

(** Lines 65-164: the body of the [try] block. *)
Definition try_body (world : World) (inp : Inputs) (url : string)
  : trace unit :=
  response <<- eval (get world url) ;;
  if status_code response =? 200 then
    data <<- eval (json_body response) ;;
    w <<- eval (data_mining data) ;;
    ef <<- eval (calculations inp w) ;;
    dashboard inp w (fst ef) (snd ef)
  else emit city_not_found.

(** What a run leaves: the calls it made, or an exception that nothing
    caught. *)
Inductive run : Type :=
| Rendered (page : list widget)
| Uncaught (e : exception).

(** Lines 57-168. *)
Definition script (world : World) (inp : Inputs) : run :=
  if button world then
    match secret world "OPENWEATHER_KEY" with
    | Throw e => Uncaught e
    | Return api_key =>
        match try_body world inp (url_of (city inp) api_key) with
        | (page, Return _) => Rendered page
        | (page, Throw e) => Rendered (page ++ [connection_error e])
        end
    end
  else Rendered [].


(** How the dashboard ends: only the coverage of line 161 can raise. *)
Definition dashboard_end (eng : Engineering) (fin : Financial) (mu : Z)
  : result unit :=
  if py_gt (savings fin) (Int 0) then
    match coverage (monthly_production eng) (Int mu) with
    | Ok _ => Return tt
    | Raise e => Throw (Arithmetic e)
    end
  else Return tt.

(** The statements of lines 68-92 in order, up to the first that raises. *)
Definition stages (inp : Inputs) (response : Response)
  : result (Weather * (Engineering * Financial)) :=
  data <~ json_body response ;;
  w <~ data_mining data ;;
  ef <~ calculations inp w ;;
  Return (w, ef).



Definition sample_world (status : Z) (body : result json) : World :=
  {| button := true;
     secret := fun _ => Return "key"%string;
     get := fun _ => Return {| status_code := status; json_body := body |} |}.

Definition sample_form (size : float) (usage : Z) (rate : float) : Inputs :=
  {| city := "London"; panel_power := size;
     monthly_usage := usage; tariff := rate |}.

(** * Lemmas *)

(** ** The model on concrete inputs *)

(** The literals are the doubles Python prints as [0x1.999999999999ap-1],
    [0x1.47ae147ae147bp-8] and [0x1.1126666666666p+8]. *)
Example f0_8_bits : f0_8 = S754_finite false 0x1999999999999a (-53).
Proof. reflexivity. Qed.

Example f0_005_bits : f0_005 = S754_finite false 0x147ae147ae147b (-60).
Proof. reflexivity. Qed.

Example f273_15_bits : f273_15 = S754_finite false 0x11126666666666 (-44).
Proof. reflexivity. Qed.

(** [1 - 0.8] is not the double [0.2]. *)
Example one_minus_0_8 :
  fsub f1 f0_8 = literal 19999999999999996 (10 ^ 17) /\
  py_lt (Float (fsub f1 f0_8)) (Float f0_2) = true.
Proof. split; reflexivity. Qed.

(** [int / int] is the correctly rounded quotient, also beyond 2^53. *)
Example truediv_large :
  py_truediv (Int (2 ^ 60 + 1)) (Int 3) = Ok (Float (S754_finite false 0x15555555555555 6)).
Proof. reflexivity. Qed.

Example truediv_overflow : py_truediv (Int (10 ^ 400)) (Int 7) = Raise OverflowError.
Proof. vm_compute. reflexivity. Qed.

(** Line 73 always produces a float. *)
Lemma celsius_float temp_k c : celsius temp_k = Ok c -> exists f, c = Float f.
Proof.
  unfold celsius. destruct temp_k as [z|k]; cbn [py_sub].
  - destruct (float_of_int z); cbn [bind]; intros H; [|discriminate].
    injection H as <-. eauto.
  - intros H. injection H as <-. eauto.
Qed.

(** A reading of 298.15 K is 25.0 degrees Celsius. *)
Example analyse_298_15 :
  analyse (Float f5) (Int 350) (Float f8) (Int 0) (Float (literal 29815 100)) =
  compute (Float f5) (Int 350) (Float f8) (Int 0) (Float f25).
Proof. reflexivity. Qed.

(** 5 kW, clear sky, 25 degrees Celsius, 350 kWh at 8 per unit. *)
Example scenario_1 :
  compute (Float f5) (Int 350) (Float f8) (Int 0) (Float f25) =
  Ok ({| cloud_efficiency := Float f1;
         heat_loss := Int 0;
         temp_efficiency := Int 1;
         actual_power := Float f5;
         daily_production := Float f25;
         monthly_production := Float (literal 750 1) |},
      {| old_bill := Float (literal 2800 1);
         net_usage := Int 0;
         new_bill := Float f0;
         savings := Float (literal 2800 1) |}).
Proof. vm_compute. reflexivity. Qed.

(** 5 kW, clear sky, 45 degrees Celsius. *)
Example scenario_3 :
  exists r,
    engineering (Float f5) (Int 0) (Float (literal 45 1)) = Ok r /\
    heat_loss r = Float (literal 1 10) /\
    temp_efficiency r = Float (literal 9 10) /\
    actual_power r = Float (literal 45 10).
Proof. eexists. split; [vm_compute; reflexivity|]. repeat split. Qed.

(** ** Digits and powers of two *)

Lemma digits2_bounds p :
  2 ^ (Zpos (digits2_pos p) - 1) <= Zpos p < 2 ^ Zpos (digits2_pos p).
Proof.
  induction p as [p IH|p IH|]; cbn [digits2_pos].
  - rewrite Pos2Z.inj_succ, Z.pow_succ_r by lia.
    replace (Z.succ (Zpos (digits2_pos p)) - 1) with (Z.succ (Zpos (digits2_pos p) - 1)) by lia.
    rewrite Z.pow_succ_r by lia. lia.
  - rewrite Pos2Z.inj_succ, Z.pow_succ_r by lia.
    replace (Z.succ (Zpos (digits2_pos p)) - 1) with (Z.succ (Zpos (digits2_pos p) - 1)) by lia.
    rewrite Z.pow_succ_r by lia. lia.
  - cbn. lia.
Qed.

Lemma pow2_lt_inv a b : 0 <= b -> 2 ^ a < 2 ^ b -> a < b.
Proof.
  intros Hb H. destruct (Z.ltb_spec a b) as [|Hge]; auto.
  assert (2 ^ b <= 2 ^ a) by (apply Z.pow_le_mono_r; lia). lia.
Qed.

Lemma digits2_unique p d :
  2 ^ (d - 1) <= Zpos p < 2 ^ d -> Zpos (digits2_pos p) = d.
Proof.
  intros [Hl Hu]. pose proof (digits2_bounds p) as [Bl Bu].
  assert (0 < d).
  { destruct (Z.ltb_spec 0 d) as [|Hd]; auto.
    destruct (Z.eq_dec d 0) as [->|]; [cbn in Hu; lia|].
    rewrite (Z.pow_neg_r 2 d) in Hu by lia. lia. }
  assert (Zpos (digits2_pos p) - 1 < d) by (apply pow2_lt_inv; lia).
  assert (d - 1 < Zpos (digits2_pos p)) by (apply pow2_lt_inv; lia).
  lia.
Qed.

Lemma digits2_mul_pow2 p k :
  0 <= k -> forall q, Zpos q = Zpos p * 2 ^ k ->
  Zpos (digits2_pos q) = Zpos (digits2_pos p) + k.
Proof.
  intros Hk q Hq. apply digits2_unique. rewrite Hq.
  pose proof (digits2_bounds p) as [Bl Bu].
  replace (Zpos (digits2_pos p) + k - 1) with ((Zpos (digits2_pos p) - 1) + k) by lia.
  rewrite !Z.pow_add_r by lia.
  assert (0 < 2 ^ k) by (apply Z.pow_pos_nonneg; lia).
  nia.
Qed.

(** ** RNE *)

Lemma RNE_scale c N D : 0 < c -> 0 < D -> RNE (c * N) (c * D) = RNE N D.
Proof.
  intros Hc HD. unfold RNE.
  rewrite Z.div_mul_cancel_l by lia.
  rewrite Z.mul_mod_distr_l by lia.
  replace (2 * (c * (N mod D))) with (c * (2 * (N mod D))) by ring.
  rewrite <- Zmult_compare_compat_l by lia. reflexivity.
Qed.

Lemma RNE_mono_num D N1 N2 : 0 < D -> N1 <= N2 -> RNE N1 D <= RNE N2 D.
Proof.
  intros HD HN. unfold RNE.
  pose proof (Z.div_le_mono N1 N2 D HD HN) as Hq.
  pose proof (Z.div_mod N1 D ltac:(lia)) as E1.
  pose proof (Z.div_mod N2 D ltac:(lia)) as E2.
  pose proof (Z.mod_pos_bound N1 D HD) as B1.
  pose proof (Z.mod_pos_bound N2 D HD) as B2.
  set (q1 := N1 / D) in *. set (q2 := N2 / D) in *.
  set (r1 := N1 mod D) in *. set (r2 := N2 mod D) in *.
  destruct (Z.eq_dec q1 q2) as [Eq|Ne].
  - rewrite Eq in *. assert (r1 <= r2) by lia.
    destruct (Z.compare_spec (2 * r1) D), (Z.compare_spec (2 * r2) D);
      try destruct (Z.even q2); lia.
  - assert (q1 + 1 <= q2) by lia.
    destruct (Z.compare_spec (2 * r1) D), (Z.compare_spec (2 * r2) D);
      try destruct (Z.even q1); try destruct (Z.even q2); lia.
Qed.

Lemma RNE_mono N1 D1 N2 D2 :
  0 < D1 -> 0 < D2 -> N1 * D2 <= N2 * D1 -> RNE N1 D1 <= RNE N2 D2.
Proof.
  intros H1 H2 H.
  rewrite <- (RNE_scale D2 N1 D1) by lia.
  rewrite <- (RNE_scale D1 N2 D2) by lia.
  replace (D1 * D2) with (D2 * D1) by ring.
  apply RNE_mono_num; lia.
Qed.

Lemma RNE_eq N1 D1 N2 D2 :
  0 < D1 -> 0 < D2 -> N1 * D2 = N2 * D1 -> RNE N1 D1 = RNE N2 D2.
Proof.
  intros H1 H2 H. apply Z.le_antisymm; apply RNE_mono; lia.
Qed.

Lemma RNE_exact n D : 0 < D -> RNE (n * D) D = n.
Proof.
  intros HD. unfold RNE. rewrite Z.div_mul, Z.mod_mul by lia.
  destruct (Z.compare_spec (2 * 0) D); lia.
Qed.

(** ** Shifting keeps track of the rational being rounded *)

Lemma represents_init m : 0 <= m -> represents m 1 (Build_shr_record m false false).
Proof.
  intros Hm. unfold represents; cbn [shr_m shr_r shr_s].
  rewrite Z.div_1_r, Z.mod_1_r. cbn. repeat split; lia.
Qed.

Lemma shr_1_fields m r s :
  0 <= m -> shr_1 (Build_shr_record m r s) = Build_shr_record (m / 2) (Z.odd m) (r || s).
Proof.
  intros Hm. rewrite <- Z.div2_div.
  destruct m as [|[p|p|]|p]; try reflexivity; lia.
Qed.

Lemma shr_1_represents N D mrs :
  represents N D mrs -> represents N (2 * D) (shr_1 mrs).
Proof.
  destruct mrs as [m r s]. unfold represents; cbn [shr_m shr_r shr_s].
  intros (HD & HN & Hm & Hr & Hs).
  assert (Hq : N / (2 * D) = (N / D) / 2).
  { rewrite (Z.mul_comm 2 D), Z.div_div by lia. reflexivity. }
  assert (Hrem : N mod (2 * D) = N mod D + D * ((N / D) mod 2)).
  { rewrite (Z.mul_comm 2 D). apply Z.rem_mul_r; lia. }
  pose proof (Z.mod_pos_bound N D HD) as B.
  assert (Hm0 : 0 <= m) by (rewrite Hm; apply Z.div_pos; lia).
  rewrite shr_1_fields by exact Hm0. cbn [shr_m shr_r shr_s].
  rewrite Hq, Hrem, <- Hm, Zmod_odd. clear Hq Hrem.
  generalize dependent (N mod D). intros rem Hr Hs B.
  subst r s.
  split; [lia|split; [lia|split; [reflexivity|]]].
  destruct (Z.odd m); split.
  - destruct (Z.leb_spec (2 * D) (2 * (rem + D * 1))); lia.
  - destruct (Z.leb_spec D (2 * rem)), (Z.eqb_spec rem 0), (Z.eqb_spec (2 * rem) D),
      (Z.eqb_spec (rem + D * 1) 0), (Z.eqb_spec (2 * (rem + D * 1)) (2 * D));
      cbn; try reflexivity; lia.
  - destruct (Z.leb_spec (2 * D) (2 * (rem + D * 0))); lia.
  - destruct (Z.leb_spec D (2 * rem)), (Z.eqb_spec rem 0), (Z.eqb_spec (2 * rem) D),
      (Z.eqb_spec (rem + D * 0) 0), (Z.eqb_spec (2 * (rem + D * 0)) (2 * D));
      cbn; try reflexivity; lia.
Qed.

Lemma represents_ext N D D' mrs : D = D' -> represents N D mrs -> represents N D' mrs.
Proof. intros ->; auto. Qed.

Lemma iter_pos_represents p : forall N D mrs,
  represents N D mrs -> represents N (D * 2 ^ Zpos p) (iter_pos shr_1 p mrs).
Proof.
  induction p as [p IH|p IH|]; intros N D mrs H; cbn [iter_pos].
  - apply (represents_ext N (2 * D * 2 ^ Zpos p * 2 ^ Zpos p)).
    + replace (Zpos p~1) with (Zpos p + Zpos p + 1) by lia.
      rewrite !Z.pow_add_r by lia. change (2 ^ 1) with 2. ring.
    + apply IH, IH, shr_1_represents, H.
  - apply (represents_ext N (D * 2 ^ Zpos p * 2 ^ Zpos p)).
    + replace (Zpos p~0) with (Zpos p + Zpos p) by lia.
      rewrite !Z.pow_add_r by lia. ring.
    + apply IH, IH, H.
  - change (2 ^ 1) with 2. rewrite Z.mul_comm. apply shr_1_represents, H.
Qed.

Lemma RNE_represents N D mrs :
  represents N D mrs ->
  round_nearest_even (shr_m mrs) (loc_of_shr_record mrs) = RNE N D.
Proof.
  destruct mrs as [m r s]. unfold represents; cbn [shr_m shr_r shr_s].
  intros (HD & HN & Hm & Hr & Hs). unfold RNE. rewrite <- Hm.
  pose proof (Z.mod_pos_bound N D HD) as B.
  set (rem := N mod D) in *.
  subst r s.
  destruct (Z.leb_spec D (2 * rem)), (Z.eqb_spec rem 0), (Z.eqb_spec (2 * rem) D),
    (Z.compare_spec (2 * rem) D); cbn; try reflexivity; lia.
Qed.

Lemma loc_represents q r m2 m' :
  0 < m2 -> 0 <= m' -> q = m' / m2 -> r = m' mod m2 ->
  represents m' m2 (shr_record_of_loc q (new_location m2 r)).
Proof.
  intros H2 Hm -> ->.
  pose proof (Z.mod_pos_bound m' m2 H2) as B.
  set (rem := m' mod m2) in *.
  unfold represents. split; [lia|split; [lia|]].
  unfold new_location, new_location_even, new_location_odd.
  destruct (Z.even m2) eqn:Ev.
  - destruct (Z.eqb_spec rem 0) as [E0|N0].
    + cbn [shr_record_of_loc shr_m shr_r shr_s]. fold rem. rewrite E0.
      destruct (Z.leb_spec m2 (2 * 0)), (Z.eqb_spec (2 * 0) m2); cbn; repeat split; lia.
    + destruct (Z.compare_spec (2 * rem) m2); cbn [shr_record_of_loc shr_m shr_r shr_s]; fold rem;
      destruct (Z.leb_spec m2 (2 * rem)), (Z.eqb_spec rem 0), (Z.eqb_spec (2 * rem) m2);
      cbn; repeat split; lia.
  - assert (Hodd : 2 * rem <> m2).
    { intros E. rewrite <- E in Ev. rewrite Z.even_mul in Ev. discriminate. }
    destruct (Z.eqb_spec rem 0) as [E0|N0].
    + cbn [shr_record_of_loc shr_m shr_r shr_s]. fold rem. rewrite E0.
      destruct (Z.leb_spec m2 (2 * 0)), (Z.eqb_spec (2 * 0) m2); cbn; repeat split; lia.
    + destruct (Z.compare_spec (2 * rem + 1) m2); cbn [shr_record_of_loc shr_m shr_r shr_s]; fold rem;
      destruct (Z.leb_spec m2 (2 * rem)), (Z.eqb_spec rem 0), (Z.eqb_spec (2 * rem) m2);
      cbn; repeat split; lia.
Qed.

(** ** Powers of two as rationals *)

Lemma bpow_pos e : (0 < bpow e)%Q.
Proof. apply Qpower_0_lt. reflexivity. Qed.

Lemma bpow_add a b : (bpow (a + b) == bpow a * bpow b)%Q.
Proof. apply Qpower_plus. discriminate. Qed.

Lemma bpow_0 : (bpow 0 == 1)%Q.
Proof. reflexivity. Qed.

Lemma bpow_1 : (bpow 1 == 2)%Q.
Proof. reflexivity. Qed.

Lemma bpow_cancel a : (bpow a * bpow (- a) == 1)%Q.
Proof. rewrite <- bpow_add. replace (a + - a) with 0 by lia. reflexivity. Qed.

Lemma bpow_le a b : a <= b -> (bpow a <= bpow b)%Q.
Proof. intros H. apply Qpower_le_compat_l; [exact H|]. discriminate. Qed.

Lemma bpow_lt a b : a < b -> (bpow a < bpow b)%Q.
Proof. intros H. apply Qpower_lt_compat_l; [exact H|]. reflexivity. Qed.

Lemma bpow_lt_inv a b : (bpow a < bpow b)%Q -> a < b.
Proof.
  intros H. destruct (Z.ltb_spec a b) as [|Hge]; auto.
  apply bpow_le in Hge. lra.
Qed.

Lemma bpow_Z e : 0 <= e -> (bpow e == inject_Z (2 ^ e))%Q.
Proof. intros H. unfold bpow. rewrite Zpower_Qpower by exact H. reflexivity. Qed.

Lemma inject_Z_le a b : a <= b <-> (inject_Z a <= inject_Z b)%Q.
Proof. rewrite <- Zle_Qle. reflexivity. Qed.

Lemma inject_Z_lt a b : a < b <-> (inject_Z a < inject_Z b)%Q.
Proof. rewrite <- Zlt_Qlt. reflexivity. Qed.

(** ** RNEQ *)

Lemma RNEQ_le v w : (v <= w)%Q -> RNEQ v <= RNEQ w.
Proof. intros H. apply RNE_mono; try reflexivity. exact H. Qed.

Lemma RNEQ_compat v w : (v == w)%Q -> RNEQ v = RNEQ w.
Proof. intros H. apply RNE_eq; try reflexivity. exact H. Qed.

Lemma RNEQ_Z n : RNEQ (inject_Z n) = n.
Proof. unfold RNEQ; cbn. rewrite <- (Z.mul_1_r n) at 1. apply RNE_exact. lia. Qed.

Lemma RNEQ_frac N D v :
  0 < D -> (v * inject_Z D == inject_Z N)%Q -> RNEQ v = RNE N D.
Proof.
  intros HD H. apply RNE_eq; try reflexivity; try lia.
  destruct v as [a b]. unfold Qeq in H. cbn in *. lia.
Qed.

(** ** Canonical doubles compare as their values *)

Lemma fexp_eq g : fexp prec emax g = Z.max (g - 53) (-1074).
Proof. reflexivity. Qed.

Lemma bounded_spec m e :
  bounded prec emax m e = true <->
  Z.max (Zpos (digits2_pos m) + e - 53) (-1074) = e /\ e <= 971.
Proof.
  unfold bounded, canonical_mantissa. rewrite andb_true_iff, Z.eqb_eq, Z.leb_le, fexp_eq.
  change (emax - prec) with 971. reflexivity.
Qed.

Lemma bpow_inject n e : 0 <= e -> (inject_Z n * bpow e == inject_Z (n * 2 ^ e))%Q.
Proof. intros H. rewrite bpow_Z by exact H. rewrite inject_Z_mult. reflexivity. Qed.

(** m1 2^e1 compared with m2 2^e2 for canonical mantissas *)
Lemma bounded_exp_lt m1 e1 m2 e2 :
  bounded prec emax m1 e1 = true -> bounded prec emax m2 e2 = true ->
  e1 < e2 -> (inject_Z (Zpos m1) * bpow e1 < inject_Z (Zpos m2) * bpow e2)%Q.
Proof.
  rewrite !bounded_spec. intros [C1 B1] [C2 B2] Hlt.
  pose proof (digits2_bounds m1) as [L1 U1].
  pose proof (digits2_bounds m2) as [L2 U2].
  assert (D2 : Zpos (digits2_pos m2) = 53) by lia.
  assert (D1 : Zpos (digits2_pos m1) <= 53) by lia.
  rewrite D2 in *. change (2 ^ (53 - 1)) with 4503599627370496 in L2.
  assert (Zpos m1 < 9007199254740992).
  { assert (2 ^ Zpos (digits2_pos m1) <= 2 ^ 53) by (apply Z.pow_le_mono_r; lia).
    change (2 ^ 53) with 9007199254740992 in *. lia. }
  replace e2 with (e1 + (e2 - e1)) by lia. rewrite bpow_add.
  assert (Hp : (bpow 1 <= bpow (e2 - e1))%Q) by (apply bpow_le; lia).
  rewrite bpow_1 in Hp.
  pose proof (bpow_pos e1) as P1.
  assert (H1 : (inject_Z (Zpos m1) < 9007199254740992)%Q).
  { change 9007199254740992%Q with (inject_Z 9007199254740992). rewrite <- Zlt_Qlt. lia. }
  assert (H2 : (4503599627370496 <= inject_Z (Zpos m2))%Q).
  { change 4503599627370496%Q with (inject_Z 4503599627370496). rewrite <- Zle_Qle. lia. }
  set (a := inject_Z (Zpos m1)) in *. set (b := inject_Z (Zpos m2)) in *.
  set (p := bpow e1) in *. set (q := bpow (e2 - e1)) in *.
  assert (a * p < 9007199254740992 * p)%Q by nra.
  assert (Hbq : (9007199254740992 <= b * q)%Q) by nra.
  assert (9007199254740992 * p <= (b * q) * p)%Q by nra.
  lra.
Qed.

Lemma Qcompare_Lt a b : (a < b)%Q -> (a ?= b)%Q = Lt.
Proof. intros H. apply Qlt_alt, H. Qed.

Lemma Qcompare_Gt a b : (b < a)%Q -> (a ?= b)%Q = Gt.
Proof. intros H. apply Qgt_alt, H. Qed.

Lemma Qcompare_Eq a b : (a == b)%Q -> (a ?= b)%Q = Eq.
Proof. intros H. apply Qeq_alt, H. Qed.

Lemma mag_compare m1 e1 m2 e2 :
  bounded prec emax m1 e1 = true -> bounded prec emax m2 e2 = true ->
  match e1 ?= e2 with
  | Lt => Lt
  | Gt => Gt
  | Eq => Pos.compare_cont Eq m1 m2
  end = (inject_Z (Zpos m1) * bpow e1 ?= inject_Z (Zpos m2) * bpow e2)%Q.
Proof.
  intros B1 B2. destruct (Z.compare_spec e1 e2) as [E|L|G].
  - subst e2. pose proof (bpow_pos e1) as P.
    change (Pos.compare_cont Eq m1 m2) with (Pos.compare m1 m2).
    destruct (Pos.compare_spec m1 m2) as [E|L|G]; symmetry.
    + subst. apply Qcompare_Eq. reflexivity.
    + apply Qcompare_Lt. apply Qmult_lt_compat_r; [exact P|].
      rewrite <- Zlt_Qlt. lia.
    + apply Qcompare_Gt. apply Qmult_lt_compat_r; [exact P|].
      rewrite <- Zlt_Qlt. lia.
  - symmetry. apply Qcompare_Lt. apply bounded_exp_lt; assumption.
  - symmetry. apply Qcompare_Gt. apply bounded_exp_lt; assumption.
Qed.

Lemma mag_pos m e : (0 < inject_Z (Zpos m) * bpow e)%Q.
Proof.
  pose proof (bpow_pos e).
  assert (0 < inject_Z (Zpos m))%Q by (change 0%Q with (inject_Z 0); rewrite <- Zlt_Qlt; lia).
  nra.
Qed.

Lemma F2Q_finite s m e :
  (F2Q (S754_finite s m e) == if s then - (inject_Z (Zpos m) * bpow e) else inject_Z (Zpos m) * bpow e)%Q.
Proof.
  destruct s; cbn [F2Q cond_Zopp].
  - change (- Zpos m) with (Z.opp (Zpos m)). rewrite inject_Z_opp. ring.
  - reflexivity.
Qed.

Lemma Qcompare_opp a b : (- a ?= - b)%Q = CompOpp (a ?= b)%Q.
Proof.
  destruct (Qcompare_spec a b) as [E|L|G]; cbn.
  - apply Qcompare_Eq. rewrite E. reflexivity.
  - apply Qcompare_Gt. lra.
  - apply Qcompare_Lt. lra.
Qed.

Theorem SFcompare_spec x y :
  valid x = true -> valid y = true -> is_finite x = true -> is_finite y = true ->
  SFcompare x y = Some (F2Q x ?= F2Q y)%Q.
Proof.
  destruct x as [sx|sx| |sx mx ex], y as [sy|sy| |sy my ey]; try discriminate;
    intros Vx Vy _ _; cbn [SFcompare valid valid_binary] in *.
  - reflexivity.
  - f_equal. symmetry. rewrite F2Q_finite. change (F2Q (S754_zero sx)) with 0%Q.
    pose proof (mag_pos my ey). destruct sy.
    + apply Qcompare_Gt. lra.
    + apply Qcompare_Lt. lra.
  - f_equal. symmetry. rewrite F2Q_finite. change (F2Q (S754_zero sy)) with 0%Q.
    pose proof (mag_pos mx ex). destruct sx.
    + apply Qcompare_Lt. lra.
    + apply Qcompare_Gt. lra.
  - f_equal. rewrite !F2Q_finite.
    pose proof (mag_pos mx ex). pose proof (mag_pos my ey).
    destruct sx, sy.
    + rewrite Qcompare_opp, <- mag_compare by assumption.
      destruct (ex ?= ey); reflexivity.
    + symmetry. apply Qcompare_Lt. lra.
    + symmetry. apply Qcompare_Gt. lra.
    + apply mag_compare; assumption.
Qed.

(** ** Encoding a rounded mantissa *)

Lemma shr_nonpos mrs e n : n <= 0 -> shr mrs e n = (mrs, e).
Proof. destruct n; try reflexivity. lia. Qed.

Lemma encode_zero s E : -1074 <= E -> encode s 0 E = S754_zero s.
Proof.
  intros HE. unfold encode, shr_fexp. rewrite shr_nonpos; [reflexivity|].
  rewrite fexp_eq. cbn [Zdigits2]. lia.
Qed.

Lemma encode_small s p E :
  -1074 <= E -> Zpos p < 2 ^ 53 -> (E = -1074 \/ 2 ^ 52 <= Zpos p) ->
  encode s (Zpos p) E = (if E <=? 971 then S754_finite s p E else S754_infinity s)
  /\ bounded prec emax p E = (E <=? 971).
Proof.
  intros HE Hu Hl.
  pose proof (digits2_bounds p) as [L U].
  assert (Hd : Zpos (digits2_pos p) <= 53).
  { assert (Zpos (digits2_pos p) - 1 < 53) by (apply pow2_lt_inv; lia). lia. }
  assert (Hd' : E = -1074 \/ Zpos (digits2_pos p) = 53).
  { destruct Hl as [|Hl]; [left; assumption|right].
    assert (52 < Zpos (digits2_pos p)) by (apply pow2_lt_inv; lia). lia. }
  assert (Hf : fexp prec emax (Zpos (digits2_pos p) + E) = E) by (rewrite fexp_eq; lia).
  split.
  - unfold encode, shr_fexp. cbn [Zdigits2]. rewrite shr_nonpos by lia.
    cbn [shr_record_of_loc shr_m]. reflexivity.
  - unfold bounded, canonical_mantissa. rewrite Hf, Z.eqb_refl. reflexivity.
Qed.

Lemma encode_top s E :
  -1074 <= E ->
  encode s (2 ^ 53) E =
    (if E + 1 <=? 971 then S754_finite s 4503599627370496 (E + 1) else S754_infinity s)
  /\ bounded prec emax 4503599627370496 (E + 1) = (E + 1 <=? 971).
Proof.
  intros HE. split.
  - unfold encode, shr_fexp. change (Zdigits2 (2 ^ 53)) with 54.
    rewrite fexp_eq. replace (Z.max (54 + E - 53) (-1074) - E) with 1 by lia.
    reflexivity.
  - unfold bounded, canonical_mantissa. change (Zpos (digits2_pos 4503599627370496)) with 53.
    rewrite fexp_eq. replace (Z.max (53 + (E + 1) - 53) (-1074)) with (E + 1) by lia.
    rewrite Z.eqb_refl. reflexivity.
Qed.

Lemma encode_encodes s n E :
  -1074 <= E -> 0 <= n <= 2 ^ 53 -> (E = -1074 \/ 2 ^ 52 <= n) ->
  encodes s (inject_Z n * bpow E) (encode s n E).
Proof.
  intros HE [Hn0 Hn1] Hl.
  destruct (Z.eq_dec n 0) as [->|Hnz].
  { left. split; [ring|apply encode_zero, HE]. }
  destruct (Z.eq_dec n (2 ^ 53)) as [->|Hnt].
  { destruct (encode_top s E HE) as [-> Hb]. right.
    assert (Hv : (inject_Z (2 ^ 53) * bpow E == inject_Z 4503599627370496 * bpow (E + 1))%Q).
    { rewrite bpow_add, bpow_1. change (2 ^ 53) with (4503599627370496 * 2).
      rewrite inject_Z_mult. change (inject_Z 2) with 2%Q. ring. }
    destruct (Z.leb_spec (E + 1) 971).
    - right. exists 4503599627370496%positive, (E + 1). auto.
    - left. split; [|reflexivity]. rewrite Hv.
      assert (Hp : (bpow (emax - 52) <= bpow (E + 1))%Q) by (apply bpow_le; unfold emax; lia).
      replace emax with (52 + (emax - 52)) at 1 by lia. rewrite bpow_add.
      rewrite (bpow_Z 52) by lia. change (2 ^ 52) with 4503599627370496.
      pose proof (bpow_pos (emax - 52)).
      set (c := inject_Z 4503599627370496).
      assert (0 < c)%Q by reflexivity. nra. }
  destruct n as [|p|p]; try lia.
  destruct (encode_small s p E HE ltac:(lia) Hl) as [-> Hb]. right.
  destruct (Z.leb_spec E 971).
  - right. exists p, E. split; [reflexivity|split; [exact Hb|reflexivity]].
  - left. split; [|reflexivity].
    destruct Hl as [->|Hl]; [lia|].
    assert (Hp : (bpow (emax - 52) <= bpow E)%Q) by (apply bpow_le; unfold emax; lia).
    replace emax with (52 + (emax - 52)) at 1 by lia. rewrite bpow_add.
    rewrite (bpow_Z 52) by lia.
    pose proof (bpow_pos (emax - 52)).
    assert (inject_Z (2 ^ 52) <= inject_Z (Zpos p))%Q by (rewrite <- Zle_Qle; exact Hl).
    assert (0 < inject_Z (2 ^ 52))%Q by reflexivity.
    set (c := inject_Z (2 ^ 52)) in *. set (d := inject_Z (Zpos p)) in *.
    assert (c * bpow (emax - 52) <= c * bpow E)%Q by nra.
    assert (c * bpow E <= d * bpow E)%Q by (pose proof (bpow_pos E); nra).
    lra.
Qed.

Lemma bounded_lt_emax m e :
  bounded prec emax m e = true -> (inject_Z (Zpos m) * bpow e < bpow emax)%Q.
Proof.
  rewrite bounded_spec. intros [C B].
  pose proof (digits2_bounds m) as [L U].
  assert (Zpos (digits2_pos m) <= 53) by lia.
  assert (Zpos m < 2 ^ 53).
  { assert (2 ^ Zpos (digits2_pos m) <= 2 ^ 53) by (apply Z.pow_le_mono_r; lia). lia. }
  assert (Hp : (bpow e <= bpow (emax - 53))%Q) by (apply bpow_le; unfold emax; lia).
  replace emax with (53 + (emax - 53)) by lia. rewrite bpow_add, (bpow_Z 53) by lia.
  assert (inject_Z (Zpos m) < inject_Z (2 ^ 53))%Q by (rewrite <- Zlt_Qlt; assumption).
  assert (0 < inject_Z (Zpos m))%Q by (change 0%Q with (inject_Z 0); rewrite <- Zlt_Qlt; lia).
  pose proof (bpow_pos e).
  set (c := inject_Z (2 ^ 53)) in *. set (d := inject_Z (Zpos m)) in *.
  assert (d * bpow e < c * bpow e)%Q by nra.
  assert (c * bpow e <= c * bpow (emax - 53))%Q by nra.
  lra.
Qed.

Lemma encodes_le a b r1 r2 :
  encodes false a r1 -> encodes false b r2 -> (a <= b)%Q -> SFleb r1 r2 = true.
Proof.
  intros [[Ha ->]|[[Ha ->]|(m1 & e1 & -> & B1 & Ha)]]
         [[Hb ->]|[[Hb ->]|(m2 & e2 & -> & B2 & Hb)]] Hab; try reflexivity.
  - pose proof (bpow_pos emax). lra.
  - pose proof (bounded_lt_emax m2 e2 B2). lra.
  - pose proof (mag_pos m1 e1). lra.
  - unfold SFleb. rewrite SFcompare_spec by (cbn; auto).
    rewrite !F2Q_finite.
    destruct (Qcompare_spec (inject_Z (Zpos m1) * bpow e1) (inject_Z (Zpos m2) * bpow e2));
      try reflexivity. lra.
Qed.

(** ** Rounding is monotone *)

Lemma mag_unique v g g' :
  (bpow (g - 1) <= v < bpow g)%Q -> (bpow (g' - 1) <= v < bpow g')%Q -> g = g'.
Proof.
  intros [L U] [L' U'].
  assert (g - 1 < g') by (apply bpow_lt_inv; lra).
  assert (g' - 1 < g) by (apply bpow_lt_inv; lra).
  lia.
Qed.

Lemma mag_le v w g g' :
  (bpow (g - 1) <= v < bpow g)%Q -> (bpow (g' - 1) <= w < bpow g')%Q -> (v <= w)%Q -> g <= g'.
Proof.
  intros [L U] [L' U'] H.
  assert (g - 1 < g') by (apply bpow_lt_inv; lra). lia.
Qed.

Lemma pow2_53 : (inject_Z (2 ^ 53) == bpow 53)%Q.
Proof. rewrite bpow_Z by lia. reflexivity. Qed.

Lemma pow2_52 : (inject_Z (2 ^ 52) == bpow 52)%Q.
Proof. rewrite bpow_Z by lia. reflexivity. Qed.

Lemma rnd_bounds v g :
  (bpow (g - 1) <= v < bpow g)%Q ->
  let E := fexp prec emax g in
  let n := RNEQ (v * bpow (- E)) in
  -1074 <= E /\ 0 <= n <= 2 ^ 53 /\ (E = -1074 \/ 2 ^ 52 <= n).
Proof.
  intros [L U] E n. subst E n. rewrite fexp_eq.
  set (E := Z.max (g - 53) (-1074)).
  pose proof (bpow_pos (- E)) as PE. pose proof (bpow_pos (g - 1)) as Pg.
  split; [lia|]. split; [split|].
  - rewrite <- (RNEQ_Z 0). apply RNEQ_le. change (inject_Z 0) with 0%Q. nra.
  - rewrite <- (RNEQ_Z (2 ^ 53)). apply RNEQ_le. rewrite pow2_53.
    assert (H : (bpow g * bpow (- E) <= bpow 53)%Q).
    { rewrite <- bpow_add. apply bpow_le. lia. }
    assert (v * bpow (- E) <= bpow g * bpow (- E))%Q by nra. lra.
  - destruct (Z.eq_dec E (-1074)) as [|NE]; [left; assumption|right].
    assert (HE : E = g - 53) by lia.
    rewrite <- (RNEQ_Z (2 ^ 52)). apply RNEQ_le. rewrite pow2_52.
    assert (H : (bpow 52 == bpow (g - 1) * bpow (- E))%Q).
    { rewrite <- bpow_add. replace (g - 1 + - E) with 52 by lia. reflexivity. }
    rewrite H. nra.
Qed.

Lemma rounds_encodes s v r :
  rounds s v r -> exists g, (bpow (g - 1) <= v < bpow g)%Q /\
    encodes s (inject_Z (RNEQ (v * bpow (- fexp prec emax g))) * bpow (fexp prec emax g)) r.
Proof.
  intros (g & Hg & ->). exists g. split; [exact Hg|].
  destruct (rnd_bounds v g Hg) as (HE & Hn & Hl).
  apply encode_encodes; assumption.
Qed.

(** The rounded value is monotone *)
Lemma rval_mono v1 g1 v2 g2 :
  (bpow (g1 - 1) <= v1 < bpow g1)%Q -> (bpow (g2 - 1) <= v2 < bpow g2)%Q -> (v1 <= v2)%Q ->
  (inject_Z (RNEQ (v1 * bpow (- fexp prec emax g1))) * bpow (fexp prec emax g1) <=
   inject_Z (RNEQ (v2 * bpow (- fexp prec emax g2))) * bpow (fexp prec emax g2))%Q.
Proof.
  intros H1 H2 Hv.
  pose proof (mag_le _ _ _ _ H1 H2 Hv) as Hg.
  destruct (rnd_bounds v1 g1 H1) as (HE1 & Hn1 & Hl1).
  destruct (rnd_bounds v2 g2 H2) as (HE2 & Hn2 & Hl2).
  revert HE1 Hn1 Hl1 HE2 Hn2 Hl2. rewrite !fexp_eq.
  set (E1 := Z.max (g1 - 53) (-1074)). set (E2 := Z.max (g2 - 53) (-1074)).
  intros.
  destruct (Z.eq_dec E1 E2) as [Eq|Ne].
  - rewrite <- Eq. pose proof (bpow_pos E1). pose proof (bpow_pos (- E1)).
    assert (Hn : RNEQ (v1 * bpow (- E1)) <= RNEQ (v2 * bpow (- E1))).
    { apply RNEQ_le. nra. }
    apply inject_Z_le in Hn. nra.
  - assert (HE : E1 < E2) by lia.
    assert (HE2' : E2 = g2 - 53) by lia.
    assert (Hg' : g1 < g2) by lia.
    (* n1 <= 2^(g1 - E1) when g1 >= E1, else n1 <= 1 ... bound value by bpow g1 *)
    assert (B1 : (inject_Z (RNEQ (v1 * bpow (- E1))) * bpow E1 <= bpow (Z.max g1 E1))%Q).
    { destruct H1 as [L1 U1]. pose proof (bpow_pos (- E1)) as P. pose proof (bpow_pos E1) as P'.
      assert (Hle : RNEQ (v1 * bpow (- E1)) <= 2 ^ (Z.max g1 E1 - E1)).
      { rewrite <- (RNEQ_Z (2 ^ (Z.max g1 E1 - E1))). apply RNEQ_le.
        rewrite <- bpow_Z by lia. replace (Z.max g1 E1 - E1) with (Z.max g1 E1 + - E1) by lia.
        rewrite bpow_add.
        assert (bpow g1 <= bpow (Z.max g1 E1))%Q by (apply bpow_le; lia). nra. }
      apply inject_Z_le in Hle. rewrite <- bpow_Z in Hle by lia.
      assert (Hs : (bpow (Z.max g1 E1) == bpow (Z.max g1 E1 - E1) * bpow E1)%Q).
      { rewrite <- bpow_add. replace (Z.max g1 E1 - E1 + E1) with (Z.max g1 E1) by lia. reflexivity. }
      rewrite Hs. nra. }
    assert (B2 : (bpow (g2 - 1) <= inject_Z (RNEQ (v2 * bpow (- E2))) * bpow E2)%Q).
    { destruct Hl2 as [|Hl2]; [lia|].
      apply inject_Z_le in Hl2. rewrite pow2_52 in Hl2.
      assert (Hs : (bpow (g2 - 1) == bpow 52 * bpow E2)%Q).
      { rewrite <- bpow_add. replace (52 + E2) with (g2 - 1) by lia. reflexivity. }
      rewrite Hs. pose proof (bpow_pos E2). nra. }
    assert (bpow (Z.max g1 E1) <= bpow (g2 - 1))%Q by (apply bpow_le; lia).
    lra.
Qed.

Lemma rounds_le v1 v2 r1 r2 :
  rounds false v1 r1 -> rounds false v2 r2 -> (v1 <= v2)%Q -> SFleb r1 r2 = true.
Proof.
  intros R1 R2 Hv.
  destruct (rounds_encodes _ _ _ R1) as (g1 & H1 & C1).
  destruct (rounds_encodes _ _ _ R2) as (g2 & H2 & C2).
  eapply encodes_le; eauto. apply rval_mono; assumption.
Qed.

Lemma encodes_valid s val r : encodes s val r -> valid r = true.
Proof.
  intros [[_ ->]|[[_ ->]|(m & e & -> & B & _)]]; try reflexivity. exact B.
Qed.

Lemma rounds_valid s v r : rounds s v r -> valid r = true.
Proof.
  intros R. destruct (rounds_encodes _ _ _ R) as (g & _ & C).
  eapply encodes_valid, C.
Qed.

Lemma rounds_fun s v v' r r' :
  rounds s v r -> rounds s v' r' -> (v == v')%Q -> r = r'.
Proof.
  intros (g & Hg & ->) (g' & Hg' & ->) E.
  assert (g = g') by (apply (mag_unique v); [assumption|rewrite E; assumption]).
  subst g'. f_equal. apply RNEQ_compat. rewrite E. reflexivity.
Qed.

Lemma rounds_id s m e :
  bounded prec emax m e = true ->
  rounds s (inject_Z (Zpos m) * bpow e) (S754_finite s m e).
Proof.
  intros B. pose proof B as B'. rewrite bounded_spec in B'. destruct B' as [C Be].
  pose proof (digits2_bounds m) as [L U].
  exists (Zpos (digits2_pos m) + e). rewrite fexp_eq, C.
  split.
  - pose proof (bpow_pos e).
    replace (Zpos (digits2_pos m) + e - 1) with ((Zpos (digits2_pos m) - 1) + e) by lia.
    rewrite !bpow_add.
    rewrite (bpow_Z (Zpos (digits2_pos m) - 1)), (bpow_Z (Zpos (digits2_pos m))) by lia.
    apply inject_Z_le in L. apply inject_Z_lt in U. split; nra.
  - assert (Hn : RNEQ (inject_Z (Zpos m) * bpow e * bpow (- e)) = Zpos m).
    { rewrite <- (RNEQ_Z (Zpos m)) at 2. apply RNEQ_compat.
      rewrite <- Qmult_assoc, bpow_cancel. ring. }
    rewrite Hn.
    assert (Hs : Zpos m < 2 ^ 53).
    { assert (2 ^ Zpos (digits2_pos m) <= 2 ^ 53) by (apply Z.pow_le_mono_r; lia). lia. }
    assert (Hl : e = -1074 \/ 2 ^ 52 <= Zpos m).
    { destruct (Z.eq_dec e (-1074)); [left; assumption|right].
      assert (Zpos (digits2_pos m) = 53) by lia.
      replace 52 with (Zpos (digits2_pos m) - 1) by lia. exact L. }
    destruct (encode_small s m e ltac:(lia) Hs Hl) as [-> _].
    destruct (Z.leb_spec e 971); [reflexivity|lia].
Qed.

(** ** The library rounds as [rounds] says: multiplication *)

Lemma bra_encode s m e l :
  binary_round_aux prec emax s m e l =
  encode s (round_nearest_even (shr_m (fst (shr_fexp prec emax m e l)))
                               (loc_of_shr_record (fst (shr_fexp prec emax m e l))))
           (snd (shr_fexp prec emax m e l)).
Proof.
  unfold binary_round_aux, encode.
  destruct (shr_fexp prec emax m e l) as [mrs' e']. reflexivity.
Qed.

Lemma bra_rounds s m e l N D g v :
  represents N D (shr_record_of_loc m l) ->
  (v * inject_Z D == inject_Z N * bpow e)%Q ->
  (bpow (g - 1) <= v < bpow g)%Q ->
  e <= fexp prec emax g ->
  fexp prec emax (Zdigits2 m + e) = fexp prec emax g ->
  rounds s v (binary_round_aux prec emax s m e l).
Proof.
  intros Hrep Hv Hg He Hf. exists g. split; [exact Hg|].
  rewrite bra_encode. unfold shr_fexp. rewrite Hf.
  set (E := fexp prec emax g) in *.
  assert (HD : 0 < D) by (destruct Hrep; assumption).
  destruct (E - e) as [|k|k] eqn:Hk; try lia; cbn [shr fst snd].
  - assert (e = E) by lia. subst e. f_equal.
    rewrite (RNE_represents _ _ _ Hrep). symmetry. apply RNEQ_frac; [exact HD|].
    rewrite <- Qmult_assoc, (Qmult_comm (bpow (- E))), Qmult_assoc, Hv.
    rewrite <- Qmult_assoc, bpow_cancel. ring.
  - replace (e + Zpos k) with E by lia. f_equal.
    rewrite (RNE_represents _ _ _ (iter_pos_represents k _ _ _ Hrep)).
    symmetry. apply RNEQ_frac.
    + assert (0 < 2 ^ Zpos k) by (apply Z.pow_pos_nonneg; lia). nia.
    + rewrite inject_Z_mult, <- bpow_Z by lia.
      transitivity (v * inject_Z D * (bpow (- E) * bpow (Zpos k)))%Q; [ring|].
      rewrite Hv, <- bpow_add. replace (- E + Zpos k) with (- e) by lia.
      rewrite <- Qmult_assoc, bpow_cancel. ring.
Qed.

Lemma Rnd_pos s v r :
  (0 < v)%Q -> rounds s v r -> Rnd (if s then - v else v)%Q r.
Proof.
  intros Hv R. destruct s.
  - right; right. split; [lra|]. destruct R as (g & Hg & ->). exists g.
    split; [rewrite Qopp_involutive; exact Hg|].
    f_equal. apply RNEQ_compat. rewrite Qopp_involutive. reflexivity.
  - right; left. split; assumption.
Qed.

Lemma Rnd_compat v v' r : (v == v')%Q -> Rnd v r -> Rnd v' r.
Proof.
  intros E [[H Z]|[[H R]|[H R]]].
  - left. split; [rewrite <- E; exact H|exact Z].
  - right; left. split; [rewrite <- E; exact H|].
    destruct R as (g & Hg & ->). exists g. split; [rewrite <- E; exact Hg|].
    f_equal. apply RNEQ_compat. rewrite E. reflexivity.
  - right; right. split; [rewrite <- E; exact H|].
    destruct R as (g & Hg & ->). exists g. split; [rewrite <- E; exact Hg|].
    f_equal. apply RNEQ_compat. rewrite E. reflexivity.
Qed.

Lemma Zpos_bounds_Q m e :
  (bpow (Zpos (digits2_pos m) + e - 1) <= inject_Z (Zpos m) * bpow e
   < bpow (Zpos (digits2_pos m) + e))%Q.
Proof.
  pose proof (digits2_bounds m) as [L U]. pose proof (bpow_pos e).
  replace (Zpos (digits2_pos m) + e - 1) with ((Zpos (digits2_pos m) - 1) + e) by lia.
  rewrite !bpow_add.
  rewrite (bpow_Z (Zpos (digits2_pos m) - 1)), (bpow_Z (Zpos (digits2_pos m))) by lia.
  apply inject_Z_le in L. apply inject_Z_lt in U. split; nra.
Qed.

Lemma digits2_mul_ge mx my :
  Zpos (digits2_pos mx) + Zpos (digits2_pos my) - 1 <= Zpos (digits2_pos (mx * my)).
Proof.
  pose proof (digits2_bounds mx) as [Lx Ux].
  pose proof (digits2_bounds my) as [Ly Uy].
  pose proof (digits2_bounds (mx * my)) as [L U].
  rewrite Pos2Z.inj_mul in *.
  assert (H : 2 ^ (Zpos (digits2_pos mx) - 1 + (Zpos (digits2_pos my) - 1))
              < 2 ^ Zpos (digits2_pos (mx * my))).
  { rewrite Z.pow_add_r by lia.
    assert (0 < 2 ^ (Zpos (digits2_pos mx) - 1)) by (apply Z.pow_pos_nonneg; lia).
    assert (0 < 2 ^ (Zpos (digits2_pos my) - 1)) by (apply Z.pow_pos_nonneg; lia).
    nia. }
  apply pow2_lt_inv in H; lia.
Qed.

Lemma fmul_finite_rounds sx mx ex sy my ey :
  bounded prec emax mx ex = true -> bounded prec emax my ey = true ->
  rounds (xorb sx sy) (inject_Z (Zpos mx) * bpow ex * (inject_Z (Zpos my) * bpow ey))
         (fmul (S754_finite sx mx ex) (S754_finite sy my ey)).
Proof.
  intros Bx By. unfold fmul; cbn [SFmul].
  apply (bra_rounds _ _ _ _ (Zpos (mx * my)) 1 (Zpos (digits2_pos (mx * my)) + (ex + ey))).
  - apply (represents_init (Zpos (mx * my))). lia.
  - rewrite Pos2Z.inj_mul, inject_Z_mult, bpow_add. change (inject_Z 1) with 1%Q. ring.
  - pose proof (Zpos_bounds_Q (mx * my) (ex + ey)) as H.
    rewrite Pos2Z.inj_mul, inject_Z_mult, bpow_add in H.
    assert (E : (inject_Z (Zpos mx) * bpow ex * (inject_Z (Zpos my) * bpow ey) ==
                 inject_Z (Zpos mx) * inject_Z (Zpos my) * (bpow ex * bpow ey))%Q) by ring.
    rewrite E. exact H.
  - rewrite bounded_spec in Bx, By. rewrite fexp_eq.
    pose proof (digits2_mul_ge mx my). lia.
  - reflexivity.
Qed.

Theorem fmul_Rnd x y :
  valid x = true -> valid y = true -> is_finite x = true -> is_finite y = true ->
  Rnd (F2Q x * F2Q y) (fmul x y).
Proof.
  destruct x as [sx|sx| |sx mx ex], y as [sy|sy| |sy my ey]; try discriminate;
    intros Vx Vy _ _.
  - left. split; [cbn; ring|]. eexists; reflexivity.
  - left. split; [cbn [F2Q]; ring|]. eexists; reflexivity.
  - left. split; [cbn [F2Q]; ring|]. eexists; reflexivity.
  - pose proof (fmul_finite_rounds sx mx ex sy my ey Vx Vy) as R.
    pose proof (mag_pos mx ex). pose proof (mag_pos my ey).
    apply Rnd_pos in R; [|nra].
    eapply Rnd_compat; [|exact R].
    rewrite !F2Q_finite. destruct sx, sy; cbn [xorb]; ring.
Qed.

(** ** Normalisation and subtraction *)

Lemma iter_xO m k : Zpos (Pos.iter xO m k) = Zpos m * 2 ^ Zpos k.
Proof.
  induction k as [|k IH] using Pos.peano_ind.
  - cbn. lia.
  - rewrite Pos.iter_succ, Pos2Z.inj_xO, IH, Pos2Z.inj_succ, Z.pow_succ_r by lia. ring.
Qed.

Lemma shl_align_spec mx ex ez :
  ez <= ex ->
  Zpos (fst (shl_align mx ex ez)) = Zpos mx * 2 ^ (ex - ez) /\
  snd (shl_align mx ex ez) = ez.
Proof.
  intros H. unfold shl_align. destruct (ez - ex) as [|d|d] eqn:Hd; try lia; cbn [fst snd].
  - replace (ex - ez) with 0 by lia. split; lia.
  - rewrite iter_xO. replace (ex - ez) with (Zpos d) by lia. split; reflexivity.
Qed.

Lemma binary_round_rounds s m e :
  rounds s (inject_Z (Zpos m) * bpow e) (binary_round prec emax s m e).
Proof.
  unfold binary_round.
  set (E := fexp prec emax (Zpos (digits2_pos m) + e)).
  pose proof (Zpos_bounds_Q m e) as Hg.
  destruct (Z.le_gt_cases E e) as [Hle|Hgt].
  - destruct (shl_align_spec m e E Hle) as [Hm He].
    destruct (shl_align m e E) as [mz ez]. cbn [fst snd] in *. subst ez.
    apply (bra_rounds _ _ _ _ (Zpos mz) 1 (Zpos (digits2_pos m) + e)).
    + apply (represents_init (Zpos mz)). lia.
    + rewrite Hm, inject_Z_mult, <- bpow_Z by lia. change (inject_Z 1) with 1%Q.
      rewrite <- (Qmult_assoc _ _ (bpow E)), <- bpow_add.
      replace (e - E + E) with e by lia. ring.
    + exact Hg.
    + fold E. lia.
    + cbn [Zdigits2]. rewrite (digits2_mul_pow2 m (e - E)) by (lia || assumption).
      f_equal. lia.
  - assert (Hs : shl_align m e E = (m, e)).
    { unfold shl_align. destruct (E - e) eqn:Hd; try reflexivity. lia. }
    rewrite Hs.
    apply (bra_rounds _ _ _ _ (Zpos m) 1 (Zpos (digits2_pos m) + e)).
    + apply (represents_init (Zpos m)). lia.
    + change (inject_Z 1) with 1%Q. ring.
    + exact Hg.
    + fold E. lia.
    + reflexivity.
Qed.

Theorem binary_normalize_Rnd z e :
  Rnd (inject_Z z * bpow e) (binary_normalize prec emax z e false).
Proof.
  destruct z as [|p|p]; cbn [binary_normalize].
  - left. split; [ring|]. eexists; reflexivity.
  - apply (Rnd_pos false); [apply mag_pos|apply binary_round_rounds].
  - eapply Rnd_compat;
      [|apply (Rnd_pos true); [apply mag_pos|apply (binary_round_rounds true p e)]].
    cbn beta iota. change (Zneg p) with (- Zpos p). rewrite inject_Z_opp. ring.
Qed.

Lemma F2Q_scaled s m e ez :
  ez <= e ->
  (F2Q (S754_finite s m e) ==
   inject_Z (cond_Zopp s (Zpos (fst (shl_align m e ez)))) * bpow ez)%Q.
Proof.
  intros H. destruct (shl_align_spec m e ez H) as [-> _].
  cbn [F2Q].
  replace e with ((e - ez) + ez) at 1 by lia. rewrite bpow_add, bpow_Z by lia.
  destruct s; cbn [cond_Zopp].
  - change (- Zpos m) with (Z.opp (Zpos m)). rewrite !inject_Z_opp, inject_Z_mult. ring.
  - rewrite inject_Z_mult. ring.
Qed.

Theorem fsub_Rnd x y :
  valid x = true -> valid y = true -> is_finite x = true -> is_finite y = true ->
  Rnd (F2Q x - F2Q y) (fsub x y).
Proof.
  destruct x as [sx|sx| |sx mx ex], y as [sy|sy| |sy my ey]; try discriminate;
    intros Vx Vy _ _.
  - left. split; [cbn; ring|]. destruct sx, sy; eexists; reflexivity.
  - unfold fsub; cbn [SFsub].
    eapply Rnd_compat;
      [|apply (Rnd_pos (negb sy)); [apply mag_pos|apply (rounds_id _ my ey Vy)]].
    rewrite F2Q_finite. cbn [F2Q]. destruct sy; cbn [negb]; ring.
  - unfold fsub; cbn [SFsub].
    eapply Rnd_compat;
      [|apply (Rnd_pos sx); [apply mag_pos|apply (rounds_id _ mx ex Vx)]].
    rewrite F2Q_finite. cbn [F2Q]. destruct sx; ring.
  - unfold fsub; cbn [SFsub].
    eapply Rnd_compat; [|apply binary_normalize_Rnd].
    rewrite (F2Q_scaled sx mx ex (Z.min ex ey)) by lia.
    rewrite (F2Q_scaled sy my ey (Z.min ex ey)) by lia.
    unfold Z.sub at 1. rewrite inject_Z_plus, inject_Z_opp. ring.
Qed.

(** ** Order *)

Lemma SFcompare_opp a b : SFcompare (SFopp a) (SFopp b) = SFcompare b a.
Proof.
  destruct a as [sa|sa| |sa ma ea], b as [sb|sb| |sb mb eb]; cbn; try reflexivity;
    try (destruct sa; reflexivity); try (destruct sb; reflexivity);
    try (destruct sa, sb; reflexivity).
  destruct sa, sb; cbn; try reflexivity.
  - rewrite (Z.compare_antisym ea eb). destruct (ea ?= eb); cbn; try reflexivity.
    change (Pos.compare_cont Eq mb ma) with (Pos.compare mb ma).
    change (Pos.compare_cont Eq ma mb) with (Pos.compare ma mb).
    rewrite (Pos.compare_antisym ma mb). destruct (ma ?= mb)%positive; reflexivity.
  - rewrite (Z.compare_antisym ea eb). destruct (ea ?= eb); cbn; try reflexivity.
    change (Pos.compare_cont Eq mb ma) with (Pos.compare mb ma).
    change (Pos.compare_cont Eq ma mb) with (Pos.compare ma mb).
    rewrite (Pos.compare_antisym ma mb). destruct (ma ?= mb)%positive; reflexivity.
Qed.

Lemma encode_opp s n E : encode (negb s) n E = SFopp (encode s n E).
Proof.
  unfold encode. destruct (shr_fexp prec emax n E loc_Exact) as [mrs e].
  destruct (shr_m mrs); cbn; try reflexivity.
  destruct (e <=? _); reflexivity.
Qed.

Lemma rounds_opp s v r : rounds s v r -> rounds (negb s) v (SFopp r).
Proof.
  intros (g & Hg & ->). exists g. split; [exact Hg|]. symmetry. apply encode_opp.
Qed.

Lemma rounds_neg_le v1 v2 r1 r2 :
  rounds true v1 r1 -> rounds true v2 r2 -> (v1 <= v2)%Q -> SFleb r2 r1 = true.
Proof.
  intros R1 R2 H. apply rounds_opp in R1, R2. cbn [negb] in *.
  pose proof (rounds_le _ _ _ _ R1 R2 H) as L.
  unfold SFleb in *. rewrite SFcompare_opp in L. exact L.
Qed.

Lemma rounds_sign s v r :
  rounds s v r ->
  r = S754_zero s \/ r = S754_infinity s \/ exists m e, r = S754_finite s m e.
Proof.
  intros R. destruct (rounds_encodes _ _ _ R) as (g & _ & [[_ ->]|[[_ ->]|(m & e & -> & _)]]); eauto.
Qed.

Theorem Rnd_le v1 v2 r1 r2 :
  Rnd v1 r1 -> Rnd v2 r2 -> (v1 <= v2)%Q -> SFleb r1 r2 = true.
Proof.
  intros [[H1 [s1 ->]]|[[H1 R1]|[H1 R1]]] [[H2 [s2 ->]]|[[H2 R2]|[H2 R2]]] H;
    try lra; try reflexivity.
  - destruct (rounds_sign _ _ _ R2) as [->|[->|(m & e & ->)]]; reflexivity.
  - eapply rounds_le; eauto.
  - destruct (rounds_sign _ _ _ R1) as [->|[->|(m & e & ->)]]; reflexivity.
  - destruct (rounds_sign _ _ _ R1) as [->|[->|(m1 & e1 & ->)]],
             (rounds_sign _ _ _ R2) as [->|[->|(m2 & e2 & ->)]]; reflexivity.
  - eapply rounds_neg_le; eauto. lra.
Qed.

Theorem Rnd_valid v r : Rnd v r -> valid r = true.
Proof.
  intros [[_ [s ->]]|[[_ R]|[_ R]]]; [reflexivity| |]; eapply rounds_valid; eauto.
Qed.

Theorem Rnd_not_nan v r : Rnd v r -> r <> S754_nan.
Proof.
  intros [[_ [s ->]]|[[_ R]|[_ R]]]; [discriminate| |];
    destruct (rounds_sign _ _ _ R) as [->|[->|(m & e & ->)]]; discriminate.
Qed.

(** ** Division *)

Lemma div_core_spec mx ex my ey :
  let G0 := Zpos (digits2_pos mx) + ex - (Zpos (digits2_pos my) + ey) in
  let e' := Z.min (fexp prec emax G0) (ex - ey) in
  let m' := Zpos mx * 2 ^ (ex - ey - e') in
  SFdiv_core_binary prec emax (Zpos mx) ex (Zpos my) ey =
  (m' / Zpos my, e', new_location (Zpos my) (m' mod Zpos my)).
Proof.
  intros G0 e' m'. unfold SFdiv_core_binary. cbn [Zdigits2]. fold G0. fold e'.
  assert (Hs : 0 <= ex - ey - e') by lia.
  assert (Hm : match ex - ey - e' with
               | 0 => Zpos mx
               | Zpos _ => Z.shiftl (Zpos mx) (ex - ey - e')
               | Zneg _ => 0
               end = m').
  { unfold m'. generalize Hs. generalize (ex - ey - e'). intros k Hk.
    destruct k as [|k|k]; try lia.
    rewrite Z.shiftl_mul_pow2 by lia. reflexivity. }
  rewrite Hm. unfold Z.div, Z.modulo.
  destruct (Z.div_eucl m' (Zpos my)) as [q r]. reflexivity.
Qed.

Lemma bpow_eq a b : a = b -> (bpow a == bpow b)%Q.
Proof. intros ->. reflexivity. Qed.

Lemma Qdiv_mul v X Y : (0 < Y)%Q -> (v == X / Y)%Q -> (v * Y == X)%Q.
Proof. intros HY ->. field. lra. Qed.

Lemma fdiv_finite_rounds sx mx ex sy my ey :
  rounds (xorb sx sy)
         ((inject_Z (Zpos mx) * bpow ex) / (inject_Z (Zpos my) * bpow ey))
         (fdiv (S754_finite sx mx ex) (S754_finite sy my ey)).
Proof.
  unfold fdiv; cbn [SFdiv]. rewrite div_core_spec.
  set (G0 := Zpos (digits2_pos mx) + ex - (Zpos (digits2_pos my) + ey)).
  set (e' := Z.min (fexp prec emax G0) (ex - ey)).
  set (m' := Zpos mx * 2 ^ (ex - ey - e')).
  set (X := (inject_Z (Zpos mx) * bpow ex)%Q).
  set (Y := (inject_Z (Zpos my) * bpow ey)%Q).
  set (v := (X / Y)%Q).
  assert (HX : (0 < X)%Q) by apply mag_pos.
  assert (HY : (0 < Y)%Q) by apply mag_pos.
  assert (HvY : (v * Y == X)%Q) by (apply Qdiv_mul; [exact HY|reflexivity]).
  pose proof (Zpos_bounds_Q mx ex) as [LX UX]. fold X in LX, UX.
  pose proof (Zpos_bounds_Q my ey) as [LY UY]. fold Y in LY, UY.
  assert (Hs : 0 <= ex - ey - e') by (unfold e'; lia).
  assert (Hm' : 0 < m').
  { unfold m'. assert (0 < 2 ^ (ex - ey - e')) by (apply Z.pow_pos_nonneg; lia). nia. }
  (* magnitude of the quotient *)
  assert (Hlo : (bpow (G0 - 1) < v)%Q).
  { assert (E : (bpow (Zpos (digits2_pos mx) + ex - 1) ==
                 bpow (G0 - 1) * bpow (Zpos (digits2_pos my) + ey))%Q).
    { rewrite <- bpow_add. apply bpow_eq. unfold G0. lia. }
    pose proof (bpow_pos (G0 - 1)).
    assert (bpow (G0 - 1) * Y < v * Y)%Q.
    { rewrite HvY. rewrite E in LX.
      assert (bpow (G0 - 1) * Y < bpow (G0 - 1) * bpow (Zpos (digits2_pos my) + ey))%Q by nra.
      lra. }
    nra. }
  assert (Hhi : (v < bpow (G0 + 1))%Q).
  { assert (E : (bpow (Zpos (digits2_pos mx) + ex) ==
                 bpow (G0 + 1) * bpow (Zpos (digits2_pos my) + ey - 1))%Q).
    { rewrite <- bpow_add. apply bpow_eq. unfold G0. lia. }
    pose proof (bpow_pos (G0 + 1)).
    assert (v * Y < bpow (G0 + 1) * Y)%Q.
    { rewrite HvY. rewrite E in UX.
      assert (bpow (G0 + 1) * bpow (Zpos (digits2_pos my) + ey - 1) <= bpow (G0 + 1) * Y)%Q by nra.
      lra. }
    nra. }
  assert (Hg : exists g, (bpow (g - 1) <= v < bpow g)%Q /\ G0 <= g <= G0 + 1).
  { destruct (Qlt_le_dec v (bpow G0)) as [Hlt|Hge].
    - exists G0. split; [split; [lra|exact Hlt]|lia].
    - exists (G0 + 1). replace (G0 + 1 - 1) with G0 by lia. split; [split; [exact Hge|exact Hhi]|lia]. }
  destruct Hg as (g & Hg & HgG).
  (* exact value at exponent e' *)
  assert (Hval : (v * inject_Z (Zpos my) == inject_Z m' * bpow e')%Q).
  { unfold m'. rewrite inject_Z_mult, <- bpow_Z by lia.
    rewrite <- Qmult_assoc, <- bpow_add. replace (ex - ey - e' + e') with (ex + - ey) by lia.
    rewrite bpow_add.
    assert (E : (v * inject_Z (Zpos my) == v * Y * bpow (- ey))%Q).
    { unfold Y. rewrite <- !Qmult_assoc, bpow_cancel. ring. }
    rewrite E, HvY. unfold X. ring. }
  apply (bra_rounds _ _ _ _ m' (Zpos my) g).
  - apply loc_represents; try reflexivity; lia.
  - exact Hval.
  - exact Hg.
  - unfold e'. rewrite !fexp_eq. lia.
  - (* digits of the quotient *)
    pose proof (Z.div_mod m' (Zpos my) ltac:(lia)) as Hdm.
    pose proof (Z.mod_pos_bound m' (Zpos my) ltac:(lia)) as Hmb.
    assert (Hq0 : 0 <= m' / Zpos my) by (apply Z.div_pos; lia).
    set (q := m' / Zpos my) in *.
    assert (HqL : (inject_Z q * bpow e' <= v)%Q).
    { assert (Hz : q * Zpos my <= m') by lia.
      apply inject_Z_le in Hz. rewrite inject_Z_mult in Hz.
      pose proof (bpow_pos e').
      assert (Hb : (0 < inject_Z (Zpos my))%Q) by reflexivity.
      assert (inject_Z q * bpow e' * inject_Z (Zpos my) <= v * inject_Z (Zpos my))%Q.
      { rewrite Hval. nra. }
      nra. }
    assert (HqU : (v < inject_Z (q + 1) * bpow e')%Q).
    { assert (Hz : m' < (q + 1) * Zpos my) by lia.
      apply inject_Z_lt in Hz. rewrite inject_Z_mult in Hz.
      pose proof (bpow_pos e').
      assert (Hb : (0 < inject_Z (Zpos my))%Q) by reflexivity.
      assert (v * inject_Z (Zpos my) < inject_Z (q + 1) * bpow e' * inject_Z (Zpos my))%Q.
      { rewrite Hval. nra. }
      nra. }
    destruct Hg as [Lg Ug].
    destruct q as [|p|p] eqn:Hq; try lia.
    + (* quotient below one unit: underflow *)
      cbn [Zdigits2].
      assert (g <= e').
      { assert (bpow (g - 1) < bpow e')%Q.
        { change (inject_Z (0 + 1)) with 1%Q in HqU. lra. }
        apply bpow_lt_inv in H. lia. }
      unfold e' in *. rewrite !fexp_eq in *. lia.
    + cbn [Zdigits2]. f_equal.
      assert (Hd : Zpos (digits2_pos p) = g - e'); [|lia].
      apply digits2_unique.
      pose proof (bpow_pos e') as Pe. pose proof (bpow_pos (- e')) as Pe'.
      pose proof (bpow_cancel e') as Hc.
      assert (H1 : (inject_Z (Zpos p) < bpow (g - e'))%Q).
      { replace (g - e') with (g + - e') by lia. rewrite bpow_add.
        assert (inject_Z (Zpos p) * bpow e' * bpow (- e') < bpow g * bpow (- e'))%Q by nra.
        assert (inject_Z (Zpos p) == inject_Z (Zpos p) * bpow e' * bpow (- e'))%Q
          by (rewrite <- Qmult_assoc, Hc; ring).
        lra. }
      assert (Hpos : 0 < g - e').
      { destruct (Z.ltb_spec 0 (g - e')) as [|Hle]; auto.
        assert (bpow (g - e') <= bpow 0)%Q by (apply bpow_le; lia).
        rewrite bpow_0 in *.
        assert (1 <= inject_Z (Zpos p))%Q by (change 1%Q with (inject_Z 1); rewrite <- Zle_Qle; lia).
        lra. }
      split.
      * assert (H2 : (bpow (g - e' - 1) < inject_Z (Zpos p + 1))%Q).
        { replace (g - e' - 1) with ((g - 1) + - e') by lia. rewrite bpow_add.
          assert (bpow (g - 1) * bpow (- e') < inject_Z (Zpos p + 1) * bpow e' * bpow (- e'))%Q by nra.
          assert (inject_Z (Zpos p + 1) == inject_Z (Zpos p + 1) * bpow e' * bpow (- e'))%Q
            by (rewrite <- Qmult_assoc, Hc; ring).
          lra. }
        rewrite bpow_Z in H2 by lia. apply inject_Z_lt in H2. lia.
      * rewrite bpow_Z in H1 by lia. apply inject_Z_lt in H1. exact H1.
Qed.

Theorem fdiv_Rnd x sy my ey :
  is_finite x = true ->
  Rnd (F2Q x / F2Q (S754_finite sy my ey)) (fdiv x (S754_finite sy my ey)).
Proof.
  destruct x as [sx|sx| |sx mx ex]; try discriminate; intros _.
  - left. split; [|eexists; reflexivity]. cbn [F2Q]. unfold Qdiv. ring.
  - pose proof (fdiv_finite_rounds sx mx ex sy my ey) as R.
    pose proof (mag_pos mx ex) as Px. pose proof (mag_pos my ey) as Py.
    apply Rnd_pos in R.
    + eapply Rnd_compat; [|exact R].
      pose proof (bpow_pos ey).
      assert (0 < inject_Z (Zpos my))%Q by reflexivity.
      rewrite !F2Q_finite. destruct sx, sy; cbn [xorb]; field; split; lra.
    + apply Qlt_shift_div_l; [exact Py|lra].
Qed.

(** ** Well-formed doubles and their values *)

Lemma wf_spec x : wf x = true <-> valid x = true /\ is_finite x = true.
Proof. unfold wf. apply andb_true_iff. Qed.

Lemma wf_cases x :
  wf x = true ->
  (exists s, x = S754_zero s) \/
  (exists s m e, x = S754_finite s m e /\ bounded prec emax m e = true).
Proof.
  rewrite wf_spec. destruct x as [s|s| |s m e]; cbn; intros [V F]; try discriminate; eauto 6.
Qed.

Theorem Rnd_F2Q x : wf x = true -> Rnd (F2Q x) x.
Proof.
  intros W. destruct (wf_cases x W) as [[s ->]|(s & m & e & -> & B)].
  - left. split; [reflexivity|eauto].
  - eapply Rnd_compat; [|apply (Rnd_pos s); [apply mag_pos|apply (rounds_id s m e B)]].
    rewrite F2Q_finite. destruct s; reflexivity.
Qed.

(** An order test is read off the comparison of the two exact values. *)
Ltac by_Qcompare a b :=
  destruct (Qcompare_spec a b) as [?E|?L|?G]; split; intros ?H;
  try reflexivity; try discriminate; lra.

Lemma SFleb_Q x y : wf x = true -> wf y = true -> (SFleb x y = true <-> (F2Q x <= F2Q y)%Q).
Proof.
  rewrite !wf_spec. intros [Vx Fx] [Vy Fy]. unfold SFleb.
  rewrite SFcompare_spec by assumption.
  by_Qcompare (F2Q x) (F2Q y).
Qed.

Lemma SFltb_Q x y : wf x = true -> wf y = true -> (SFltb x y = true <-> (F2Q x < F2Q y)%Q).
Proof.
  rewrite !wf_spec. intros [Vx Fx] [Vy Fy]. unfold SFltb.
  rewrite SFcompare_spec by assumption.
  by_Qcompare (F2Q x) (F2Q y).
Qed.

Lemma finite_between lo r hi :
  is_finite lo = true -> is_finite hi = true ->
  SFleb lo r = true -> SFleb r hi = true -> is_finite r = true.
Proof.
  destruct lo as [a|a| |a ma ea], hi as [b|b| |b mb eb], r as [c|c| |c mc ec];
    try discriminate; try reflexivity; intros _ _; cbn; destruct c; discriminate.
Qed.

(** Bounds on the exact value carry over to the rounded result. *)
Theorem Rnd_bounds v r vlo lo vhi hi :
  Rnd v r -> Rnd vlo lo -> Rnd vhi hi ->
  is_finite lo = true -> is_finite hi = true ->
  (vlo <= v <= vhi)%Q ->
  wf r = true /\ (F2Q lo <= F2Q r <= F2Q hi)%Q.
Proof.
  intros R Rlo Rhi Flo Fhi [H1 H2].
  pose proof (Rnd_le _ _ _ _ Rlo R H1) as L1.
  pose proof (Rnd_le _ _ _ _ R Rhi H2) as L2.
  pose proof (Rnd_valid _ _ R) as V.
  pose proof (finite_between _ _ _ Flo Fhi L1 L2) as F.
  assert (W : wf r = true) by (apply wf_spec; auto).
  assert (Wlo : wf lo = true) by (apply wf_spec; split; [eapply Rnd_valid; eauto|auto]).
  assert (Whi : wf hi = true) by (apply wf_spec; split; [eapply Rnd_valid; eauto|auto]).
  split; [exact W|]. split; apply SFleb_Q; assumption.
Qed.

Theorem Rnd_fun v v' r r' :
  Rnd v r -> Rnd v' r' -> (v == v')%Q -> ~ (v == 0)%Q -> r = r'.
Proof.
  intros [[H1 _]|[[H1 R1]|[H1 R1]]] [[H2 _]|[[H2 R2]|[H2 R2]]] E NZ; try lra.
  - eapply rounds_fun; eauto.
  - eapply rounds_fun; eauto. rewrite E. reflexivity.
Qed.

(** Sign of a rounded result *)
Lemma Rnd_nonneg v r : Rnd v r -> (0 <= v)%Q -> SFleb (S754_zero false) r = true.
Proof.
  intros R H. apply (Rnd_le 0 v); [|exact R|exact H].
  left. split; [reflexivity|eauto].
Qed.

Lemma Rnd_nonpos v r : Rnd v r -> (v <= 0)%Q -> SFleb r (S754_zero false) = true.
Proof.
  intros R H. apply (Rnd_le v 0); [exact R| |exact H].
  left. split; [reflexivity|eauto].
Qed.

(** ** Comparison of a float with an integer *)

Lemma Qcompare_Z a b : (inject_Z a ?= inject_Z b)%Q = (a ?= b).
Proof. unfold Qcompare; cbn. rewrite !Z.mul_1_r. reflexivity. Qed.

Lemma Qcompare_scale a b c : (0 < c)%Q -> (a * c ?= b * c)%Q = (a ?= b)%Q.
Proof.
  intros Hc. destruct (Qcompare_spec a b) as [E|L|G].
  - apply Qcompare_Eq. rewrite E. reflexivity.
  - apply Qcompare_Lt. nra.
  - apply Qcompare_Gt. nra.
Qed.

Theorem SF_Z_compare_spec x z :
  is_finite x = true -> SF_Z_compare x z = Some (F2Q x ?= inject_Z z)%Q.
Proof.
  destruct x as [s|s| |s m e]; try discriminate; intros _; cbn [SF_Z_compare F2Q].
  - f_equal. symmetry. apply (Qcompare_Z 0 z).
  - destruct (Z.leb_spec 0 e) as [He|He]; f_equal.
    + rewrite bpow_inject by exact He. symmetry. apply Qcompare_Z.
    + rewrite <- (Qcompare_scale _ _ (bpow (- e))) by apply bpow_pos.
      rewrite <- Qmult_assoc, bpow_cancel, Qmult_1_r.
      rewrite bpow_inject by lia. symmetry. apply Qcompare_Z.
Qed.

Theorem num_compare_spec a b :
  wf_num a = true -> wf_num b = true ->
  num_compare a b = Some (num2Q a ?= num2Q b)%Q.
Proof.
  destruct a as [x|x], b as [y|y]; cbn [wf_num num_compare num2Q]; intros Wa Wb.
  - f_equal. symmetry. apply Qcompare_Z.
  - apply wf_spec in Wb. destruct Wb as [_ F]. rewrite SF_Z_compare_spec by exact F.
    cbn [option_map]. f_equal. apply Qcompare_antisym.
  - apply wf_spec in Wa. destruct Wa as [_ F]. apply SF_Z_compare_spec, F.
  - apply wf_spec in Wa, Wb. destruct Wa, Wb. apply SFcompare_spec; assumption.
Qed.

Lemma py_le_Q a b : wf_num a = true -> wf_num b = true ->
  (py_le a b = true <-> (num2Q a <= num2Q b)%Q).
Proof.
  intros Wa Wb. unfold py_le. rewrite num_compare_spec by assumption.
  by_Qcompare (num2Q a) (num2Q b).
Qed.

Lemma py_lt_Q a b : wf_num a = true -> wf_num b = true ->
  (py_lt a b = true <-> (num2Q a < num2Q b)%Q).
Proof.
  intros Wa Wb. unfold py_lt. rewrite num_compare_spec by assumption.
  by_Qcompare (num2Q a) (num2Q b).
Qed.

Lemma py_gt_Q a b : wf_num a = true -> wf_num b = true ->
  (py_gt a b = true <-> (num2Q b < num2Q a)%Q).
Proof.
  intros Wa Wb. unfold py_gt. rewrite num_compare_spec by assumption.
  by_Qcompare (num2Q a) (num2Q b).
Qed.

Lemma py_ge_Q a b : wf_num a = true -> wf_num b = true ->
  (py_ge a b = true <-> (num2Q b <= num2Q a)%Q).
Proof.
  intros Wa Wb. unfold py_ge. rewrite num_compare_spec by assumption.
  by_Qcompare (num2Q a) (num2Q b).
Qed.

Lemma py_eq_Q a b : wf_num a = true -> wf_num b = true ->
  (py_eq a b = true <-> (num2Q a == num2Q b)%Q).
Proof.
  intros Wa Wb. unfold py_eq. rewrite num_compare_spec by assumption.
  by_Qcompare (num2Q a) (num2Q b).
Qed.

(** ** Constants *)

Lemma float_of_int_1 : float_of_int 1 = Ok f1.
Proof. reflexivity. Qed.
Lemma float_of_int_0 : float_of_int 0 = Ok f0.
Proof. reflexivity. Qed.
Lemma float_of_int_5 : float_of_int 5 = Ok f5.
Proof. reflexivity. Qed.
Lemma float_of_int_25 : float_of_int 25 = Ok f25.
Proof. reflexivity. Qed.
Lemma float_of_int_30 : float_of_int 30 = Ok f30.
Proof. reflexivity. Qed.
Lemma F2Q_f1 : (F2Q f1 == 1)%Q.
Proof. reflexivity. Qed.
Lemma F2Q_f25 : (F2Q f25 == 25)%Q.
Proof. reflexivity. Qed.
Lemma F2Q_f100 : (F2Q f100 == 100)%Q.
Proof. reflexivity. Qed.
Lemma F2Q_f30 : (F2Q f30 == 30)%Q.
Proof. reflexivity. Qed.
Lemma F2Q_f150 : (F2Q f150 == 150)%Q.
Proof. reflexivity. Qed.
Lemma F2Q_f0_8 : (F2Q f0_8 == 3602879701896397 # 4503599627370496)%Q.
Proof. reflexivity. Qed.
Lemma F2Q_f0_005 : (F2Q f0_005 == 5764607523034235 # 1152921504606846976)%Q.
Proof. reflexivity. Qed.

(** ** Shape of the computation *)

Lemma bind_Ok {A B} (m : res A) (k : A -> res B) b :
  bind m k = Ok b -> exists a, m = Ok a /\ k a = Ok b.
Proof. destruct m as [a|e]; cbn; [eauto|discriminate]. Qed.

Lemma is_pos_max d :
  py_max (Int 0) (Float d) = if is_pos d then Float d else Int 0.
Proof. reflexivity. Qed.

Lemma engineering_float x c t share :
  py_truediv c (Int 100) = Ok (Float share) ->
  engineering (Float x) c (Float t) =
  Ok {| cloud_efficiency := Float (ce_of share);
        heat_loss := if is_pos (derate_of t) then Float (derate_of t) else Int 0;
        temp_efficiency := if is_pos (derate_of t) then Float (fsub f1 (derate_of t)) else Int 1;
        actual_power := Float (power_of x share t);
        daily_production := Float (fmul (power_of x share t) f5);
        monthly_production := Float (fmul (fmul (power_of x share t) f5) f30) |}.
Proof.
  intros H. unfold engineering. rewrite H.
  repeat (progress (cbn [bind py_mul py_sub];
                    rewrite ?float_of_int_1, ?float_of_int_25)).
  fold (derate_of t). fold (ce_of share). rewrite is_pos_max.
  unfold power_of, te_of.
  destruct (is_pos (derate_of t));
    repeat (progress (cbn [bind py_mul py_sub];
                      rewrite ?float_of_int_1, ?float_of_int_5, ?float_of_int_30));
    reflexivity.
Qed.

Lemma share_float c : py_truediv (Float c) (Int 100) = Ok (Float (fdiv c f100)).
Proof. reflexivity. Qed.

Lemma Rnd_0 : Rnd 0 f0.
Proof. left. split; [reflexivity|]. exists false. reflexivity. Qed.

Lemma Rnd_1 : Rnd 1 f1.
Proof. apply (Rnd_compat (F2Q f1)); [apply F2Q_f1|apply Rnd_F2Q; reflexivity]. Qed.

Theorem Rnd_mono_Q v1 r1 v2 r2 :
  Rnd v1 r1 -> Rnd v2 r2 -> wf r1 = true -> wf r2 = true ->
  (v1 <= v2)%Q -> (F2Q r1 <= F2Q r2)%Q.
Proof.
  intros R1 R2 W1 W2 H. apply SFleb_Q; try assumption. eapply Rnd_le; eauto.
Qed.

(** ** Every finite double lies between the two largest ones *)

Lemma wf_range x : wf x = true -> (- F2Q fmax <= F2Q x <= F2Q fmax)%Q.
Proof.
  intros W. destruct (wf_cases x W) as [[s ->]|(s & m & e & -> & B)].
  - cbn [F2Q]. split; [|apply Qlt_le_weak, mag_pos].
    pose proof (mag_pos 9007199254740991 971). unfold fmax. rewrite F2Q_finite. lra.
  - assert (H : (inject_Z (Zpos m) * bpow e <= F2Q fmax)%Q).
    { destruct (Qlt_le_dec (F2Q fmax) (inject_Z (Zpos m) * bpow e)) as [Hlt|]; [|assumption].
      exfalso.
      assert (L : SFltb fmax (S754_finite false m e) = true).
      { apply SFltb_Q; [reflexivity|apply wf_spec; split; [exact B|reflexivity]|].
        rewrite (F2Q_finite false m e). exact Hlt. }
      rewrite bounded_spec in B. destruct B as [C Be].
      pose proof (digits2_bounds m) as [Lm Um].
      assert (Zpos (digits2_pos m) <= 53) by lia.
      assert (Zpos m < 2 ^ 53).
      { assert (2 ^ Zpos (digits2_pos m) <= 2 ^ 53) by (apply Z.pow_le_mono_r; lia). lia. }
      change (2 ^ 53) with 9007199254740992 in *.
      unfold SFltb, fmax in L. cbn [SFcompare] in L.
      destruct (Z.compare_spec 971 e); try discriminate; try lia.
      subst e. change (Pos.compare_cont Eq 9007199254740991 m) with (9007199254740991 ?= m)%positive in L.
      destruct (Pos.compare_spec 9007199254740991 m); try discriminate. lia. }
    pose proof (mag_pos m e). rewrite F2Q_finite. destruct s; lra.
Qed.

Lemma F2Q_fmax_pos : (0 < F2Q fmax)%Q.
Proof. unfold fmax. rewrite F2Q_finite. apply mag_pos. Qed.

(** ** Cloud share *)

Lemma F2Q_Z2SF z : (F2Q (Z2SF z) == inject_Z z)%Q.
Proof.
  destruct z as [|p|p]; cbn [Z2SF F2Q cond_Zopp]; try reflexivity;
    change (bpow 0) with 1%Q; rewrite Qmult_1_r; reflexivity.
Qed.

Theorem share_Rnd c share :
  wf_num c = true -> py_truediv c (Int 100) = Ok (Float share) ->
  Rnd (num2Q c * (1 # 100)) share.
Proof.
  intros W H. destruct c as [z|x].
  - cbn [py_truediv] in H. change (100 =? 0) with false in H. cbn iota in H.
    assert (E : share = fdiv (Z2SF z) (Z2SF 100)).
    { destruct (fdiv (Z2SF z) (Z2SF 100)); try discriminate; injection H as <-; reflexivity. }
    subst share. cbn [num2Q].
    eapply Rnd_compat; [|apply (fdiv_Rnd (Z2SF z) false 100 0)].
    + rewrite F2Q_Z2SF. change (F2Q (S754_finite false 100 0)) with (100 * 1)%Q. field.
    + destruct z; reflexivity.
  - rewrite share_float in H. injection H as <-. cbn [num2Q wf_num] in *.
    apply wf_spec in W. destruct W as [_ F].
    eapply Rnd_compat; [|apply (fdiv_Rnd x false 7036874417766400 (-46) F)].
    change (S754_finite false 7036874417766400 (-46)) with f100.
    rewrite F2Q_f100. field.
Qed.

Theorem share_total c :
  wf_num c = true -> (0 <= num2Q c <= 100)%Q ->
  exists share, py_truediv c (Int 100) = Ok (Float share) /\
                wf share = true /\ (0 <= F2Q share <= 1)%Q.
Proof.
  intros W [L U].
  assert (Hr : forall q, Rnd (num2Q c * (1 # 100)) q -> wf q = true /\ (0 <= F2Q q <= 1)%Q).
  { intros q R.
    destruct (Rnd_bounds _ _ _ _ _ _ R Rnd_0 Rnd_1 eq_refl eq_refl) as [Wq B]; [lra|].
    rewrite F2Q_f1 in B. change (F2Q f0) with 0%Q in B. auto. }
  destruct c as [z|x].
  - assert (R : Rnd (num2Q (Int z) * (1 # 100)) (fdiv (Z2SF z) (Z2SF 100))).
    { cbn [num2Q]. eapply Rnd_compat; [|apply (fdiv_Rnd (Z2SF z) false 100 0)].
      + rewrite F2Q_Z2SF. change (F2Q (S754_finite false 100 0)) with (100 * 1)%Q. field.
      + destruct z; reflexivity. }
    destruct (Hr _ R) as [Wq B]. exists (fdiv (Z2SF z) (Z2SF 100)).
    split; [|auto]. cbn [py_truediv]. change (100 =? 0) with false. cbn iota.
    apply wf_spec in Wq. destruct Wq as [_ F].
    destruct (fdiv (Z2SF z) (Z2SF 100)); try discriminate; reflexivity.
  - exists (fdiv x f100). split; [apply share_float|].
    apply Hr. apply share_Rnd; [exact W|apply share_float].
Qed.

(** ** Cloud efficiency *)

Lemma F2Q_ce_min : (F2Q ce_min == 900719925474099 # 4503599627370496)%Q.
Proof. reflexivity. Qed.

Lemma loss_bounds s :
  wf s = true -> (0 <= F2Q s <= 1)%Q ->
  wf (fmul s f0_8) = true /\ (0 <= F2Q (fmul s f0_8) <= F2Q f0_8)%Q.
Proof.
  intros W [L U]. apply wf_spec in W. destruct W as [V F].
  pose proof (fmul_Rnd s f0_8 V eq_refl F eq_refl) as R.
  destruct (Rnd_bounds _ _ _ _ _ _ R Rnd_0 (Rnd_F2Q f0_8 eq_refl) eq_refl eq_refl) as [Wq B].
  - rewrite F2Q_f0_8. lra.
  - change (F2Q f0) with 0%Q in B. auto.
Qed.

Theorem ce_bounds s :
  wf s = true -> (0 <= F2Q s <= 1)%Q ->
  wf (ce_of s) = true /\ (F2Q ce_min <= F2Q (ce_of s) <= 1)%Q.
Proof.
  intros W B. destruct (loss_bounds s W B) as [Wl [Ll Ul]].
  pose proof Wl as Wl'. apply wf_spec in Wl'. destruct Wl' as [Vl Fl].
  pose proof (fsub_Rnd f1 (fmul s f0_8) eq_refl Vl eq_refl Fl) as R.
  pose proof (fsub_Rnd f1 f0_8 eq_refl eq_refl eq_refl eq_refl) as Rlo.
  change (fsub f1 f0_8) with ce_min in Rlo.
  destruct (Rnd_bounds _ _ _ _ _ _ R Rlo Rnd_1 eq_refl eq_refl) as [Wq Bq].
  - rewrite F2Q_f1. lra.
  - rewrite F2Q_f1 in Bq. auto.
Qed.

(** ** Thermal derating *)

Lemma F2Q_opp x : (F2Q (SFopp x) == - F2Q x)%Q.
Proof.
  destruct x as [s|s| |s m e]; try reflexivity.
  destruct s; cbn [SFopp negb]; rewrite !F2Q_finite; ring.
Qed.

Lemma wf_opp x : wf x = true -> wf (SFopp x) = true.
Proof. destruct x; cbn; auto. Qed.

Lemma Rnd_fmax : Rnd (F2Q fmax) fmax.
Proof. apply Rnd_F2Q. reflexivity. Qed.

Lemma Rnd_fmin : Rnd (- F2Q fmax) (SFopp fmax).
Proof.
  apply (Rnd_compat (F2Q (SFopp fmax))); [apply F2Q_opp|apply Rnd_F2Q; reflexivity].
Qed.

Lemma wf_split x : wf x = true -> valid x = true /\ is_finite x = true.
Proof. apply wf_spec. Qed.

Theorem excess_wf t :
  wf t = true -> wf (fsub t f25) = true /\ Rnd (F2Q t - 25) (fsub t f25).
Proof.
  intros W. destruct (wf_split _ W) as [V F].
  assert (R : Rnd (F2Q t - 25) (fsub t f25)).
  { apply (Rnd_compat (F2Q t - F2Q f25)); [rewrite F2Q_f25; reflexivity|].
    apply fsub_Rnd; auto. }
  split; [|exact R].
  pose proof (wf_range t W) as [L U].
  pose proof (fsub_Rnd (SFopp fmax) f25 eq_refl eq_refl eq_refl eq_refl) as Rlo.
  pose proof (fsub_Rnd fmax f25 eq_refl eq_refl eq_refl eq_refl) as Rhi.
  destruct (Rnd_bounds _ _ _ _ _ _ R Rlo Rhi eq_refl eq_refl) as [Wq _]; [|exact Wq].
  rewrite F2Q_opp, F2Q_f25. lra.
Qed.

Theorem derate_wf t :
  wf t = true ->
  wf (derate_of t) = true /\ Rnd (F2Q (fsub t f25) * F2Q f0_005) (derate_of t).
Proof.
  intros W. destruct (excess_wf t W) as [We _].
  destruct (wf_split _ We) as [Ve Fe].
  assert (R : Rnd (F2Q (fsub t f25) * F2Q f0_005) (derate_of t)).
  { apply fmul_Rnd; auto. }
  split; [|exact R].
  pose proof (wf_range _ We) as [L U].
  destruct (Rnd_bounds _ _ _ _ _ _ R Rnd_fmin Rnd_fmax eq_refl eq_refl) as [Wq _]; [|exact Wq].
  rewrite F2Q_f0_005. pose proof F2Q_fmax_pos. lra.
Qed.

Theorem derate_mono t1 t2 :
  wf t1 = true -> wf t2 = true -> (F2Q t1 <= F2Q t2)%Q ->
  (F2Q (derate_of t1) <= F2Q (derate_of t2))%Q.
Proof.
  intros W1 W2 H.
  destruct (excess_wf t1 W1) as [We1 Re1]. destruct (excess_wf t2 W2) as [We2 Re2].
  destruct (derate_wf t1 W1) as [Wd1 Rd1]. destruct (derate_wf t2 W2) as [Wd2 Rd2].
  assert (He : (F2Q (fsub t1 f25) <= F2Q (fsub t2 f25))%Q).
  { apply (Rnd_mono_Q _ _ _ _ Re1 Re2 We1 We2). lra. }
  apply (Rnd_mono_Q _ _ _ _ Rd1 Rd2 Wd1 Wd2).
  rewrite F2Q_f0_005. lra.
Qed.

Lemma F2Q_f225 : (F2Q f225 == 225)%Q.
Proof. reflexivity. Qed.

Lemma derate_225 : derate_of f225 = f1.
Proof. reflexivity. Qed.

Lemma derate_25 : derate_of f25 = f0.
Proof. reflexivity. Qed.

Theorem derate_le_1 t :
  wf t = true -> (F2Q t <= 225)%Q -> (F2Q (derate_of t) <= 1)%Q.
Proof.
  intros W H. rewrite <- F2Q_f1, <- derate_225.
  apply derate_mono; [exact W|reflexivity|rewrite F2Q_f225; exact H].
Qed.

Theorem derate_nonpos t :
  wf t = true -> (F2Q t <= 25)%Q -> (F2Q (derate_of t) <= 0)%Q.
Proof.
  intros W H. change 0%Q with (F2Q f0). rewrite <- derate_25.
  apply derate_mono; [exact W|reflexivity|rewrite F2Q_f25; exact H].
Qed.

Lemma is_pos_Q d : wf d = true -> (is_pos d = true <-> (0 < F2Q d)%Q).
Proof.
  intros W. unfold is_pos. rewrite (py_gt_Q (Float d) (Int 0)) by (cbn; auto).
  cbn [num2Q]. reflexivity.
Qed.

Lemma is_pos_false_Q d : wf d = true -> (is_pos d = false <-> (F2Q d <= 0)%Q).
Proof.
  intros W. pose proof (is_pos_Q d W) as H.
  destruct (is_pos d); split; intros K; try reflexivity; try discriminate.
  - assert (0 < F2Q d)%Q by (apply H; reflexivity). lra.
  - destruct (Qlt_le_dec 0 (F2Q d)) as [P|P]; [|exact P].
    apply H in P. discriminate.
Qed.

(** ** Temperature efficiency *)

Theorem te_wf t :
  wf t = true -> wf (te_of t) = true /\ (F2Q (te_of t) <= 1)%Q.
Proof.
  intros W. destruct (derate_wf t W) as [Wd _]. unfold te_of.
  destruct (is_pos (derate_of t)) eqn:P.
  - apply (is_pos_Q _ Wd) in P. destruct (wf_split _ Wd) as [Vd Fd].
    pose proof (fsub_Rnd f1 (derate_of t) eq_refl Vd eq_refl Fd) as R.
    pose proof (fsub_Rnd f1 fmax eq_refl eq_refl eq_refl eq_refl) as Rlo.
    pose proof (wf_range _ Wd) as [L U].
    destruct (Rnd_bounds _ _ _ _ _ _ R Rlo Rnd_1 eq_refl eq_refl) as [Wq [_ Bq]].
    + rewrite F2Q_f1. lra.
    + rewrite F2Q_f1 in Bq. auto.
  - split; [reflexivity|]. rewrite F2Q_f1. lra.
Qed.

Theorem te_nonneg t :
  wf t = true -> (F2Q t <= 225)%Q -> (0 <= F2Q (te_of t))%Q.
Proof.
  intros W H. destruct (derate_wf t W) as [Wd _].
  pose proof (derate_le_1 t W H) as D1. unfold te_of.
  destruct (is_pos (derate_of t)) eqn:P.
  - apply (is_pos_Q _ Wd) in P. destruct (wf_split _ Wd) as [Vd Fd].
    pose proof (fsub_Rnd f1 (derate_of t) eq_refl Vd eq_refl Fd) as R.
    destruct (Rnd_bounds _ _ _ _ _ _ R Rnd_0 Rnd_1 eq_refl eq_refl) as [Wq [Bq _]].
    + rewrite F2Q_f1. lra.
    + exact Bq.
  - rewrite F2Q_f1. lra.
Qed.

Theorem te_mono t1 t2 :
  wf t1 = true -> wf t2 = true -> (F2Q t1 <= F2Q t2)%Q ->
  (F2Q (te_of t2) <= F2Q (te_of t1))%Q.
Proof.
  intros W1 W2 H.
  destruct (derate_wf t1 W1) as [Wd1 _]. destruct (derate_wf t2 W2) as [Wd2 _].
  pose proof (derate_mono t1 t2 W1 W2 H) as D.
  destruct (te_wf t1 W1) as [Wt1 U1]. destruct (te_wf t2 W2) as [Wt2 U2].
  revert Wt1 Wt2 U1 U2. unfold te_of.
  destruct (is_pos (derate_of t1)) eqn:P1, (is_pos (derate_of t2)) eqn:P2; intros.
  - destruct (wf_split _ Wd1) as [V1 F1]. destruct (wf_split _ Wd2) as [V2 F2].
    apply (Rnd_mono_Q (F2Q f1 - F2Q (derate_of t2)) _ (F2Q f1 - F2Q (derate_of t1)));
      try assumption; try (apply fsub_Rnd; auto). lra.
  - apply (is_pos_Q _ Wd1) in P1. apply (is_pos_false_Q _ Wd2) in P2. lra.
  - rewrite F2Q_f1. exact U2.
  - lra.
Qed.

Theorem te_cold t : wf t = true -> (F2Q t <= 25)%Q -> is_pos (derate_of t) = false.
Proof.
  intros W H. destruct (derate_wf t W) as [Wd _].
  apply (is_pos_false_Q _ Wd). apply derate_nonpos; assumption.
Qed.

(** ** Multiplication by one, validity of results *)

Theorem fmul_one x : valid x = true -> fmul x f1 = x.
Proof.
  intros V. destruct x as [s|s| |s m e]; try (destruct s; reflexivity); try reflexivity.
  assert (W : wf (S754_finite s m e) = true) by (apply wf_spec; auto).
  apply (Rnd_fun (F2Q (S754_finite s m e) * F2Q f1) (F2Q (S754_finite s m e))).
  - apply fmul_Rnd; auto.
  - apply Rnd_F2Q, W.
  - rewrite F2Q_f1. ring.
  - rewrite F2Q_f1, F2Q_finite. pose proof (mag_pos m e). destruct s; lra.
Qed.

Lemma fmul_valid x y : valid x = true -> valid y = true -> valid (fmul x y) = true.
Proof.
  intros Vx Vy.
  destruct x as [sx|sx| |sx mx ex], y as [sy|sy| |sy my ey]; try reflexivity.
  eapply Rnd_valid, fmul_Rnd; auto.
Qed.

Lemma fsub_valid x y : valid x = true -> valid y = true -> valid (fsub x y) = true.
Proof.
  intros Vx Vy.
  destruct x as [sx|sx| |sx mx ex], y as [sy|sy| |sy my ey]; try reflexivity;
    try (destruct sx, sy; reflexivity); try exact Vx; try exact Vy.
  eapply Rnd_valid, fsub_Rnd; auto.
Qed.

Lemma fdiv_valid x y : valid (fdiv x y) = true.
Proof.
  destruct x as [sx|sx| |sx mx ex], y as [sy|sy| |sy my ey]; try reflexivity.
  eapply Rnd_valid, (fdiv_Rnd (S754_finite sx mx ex)). reflexivity.
Qed.

(** ** Products of non-negative factors *)

Theorem fmul_contract a b :
  wf a = true -> wf b = true -> (0 <= F2Q a)%Q -> (0 <= F2Q b <= 1)%Q ->
  wf (fmul a b) = true /\ (0 <= F2Q (fmul a b) <= F2Q a)%Q.
Proof.
  intros Wa Wb Ha [Lb Ub].
  destruct (wf_split _ Wa) as [Va Fa]. destruct (wf_split _ Wb) as [Vb Fb].
  pose proof (fmul_Rnd a b Va Vb Fa Fb) as R.
  destruct (Rnd_bounds _ _ _ _ _ _ R Rnd_0 (Rnd_F2Q a Wa) eq_refl Fa) as [Wq B].
  - split; nra.
  - change (F2Q f0) with 0%Q in B. auto.
Qed.


Theorem fmul_le_l a1 a2 b :
  wf a1 = true -> wf a2 = true -> wf b = true ->
  (0 <= F2Q b)%Q -> (F2Q a1 <= F2Q a2)%Q ->
  SFleb (fmul a1 b) (fmul a2 b) = true.
Proof.
  intros W1 W2 Wb Hb H.
  destruct (wf_split _ Wb) as [Vb Fb].
  destruct (wf_split _ W1) as [V1 F1]. destruct (wf_split _ W2) as [V2 F2].
  apply (Rnd_le (F2Q a1 * F2Q b) (F2Q a2 * F2Q b)); try (apply fmul_Rnd; auto). nra.
Qed.

(** ** Signs *)

Lemma SF_Z_compare_0 s m e :
  SF_Z_compare (S754_finite s m e) 0 = Some (if s then Lt else Gt).
Proof.
  cbn [SF_Z_compare]. destruct (Z.leb_spec 0 e) as [He|He]; f_equal.
  - assert (0 < 2 ^ e) by (apply Z.pow_pos_nonneg; lia).
    destruct s; cbn [cond_Zopp]; [apply Z.compare_lt_iff|apply Z.compare_gt_iff]; nia.
  - destruct s; reflexivity.
Qed.

Lemma is_pos_spec d : is_pos d = SFltb f0 d.
Proof.
  unfold is_pos, py_gt, num_compare.
  destruct d as [s|s| |s m e]; try reflexivity; try (destruct s; reflexivity).
  rewrite SF_Z_compare_0. destruct s; reflexivity.
Qed.

Lemma is_neg_spec d : is_neg d = SFltb d f0.
Proof.
  unfold is_neg, py_lt, num_compare.
  destruct d as [s|s| |s m e]; try reflexivity; try (destruct s; reflexivity).
  rewrite SF_Z_compare_0. destruct s; reflexivity.
Qed.

Lemma is_pos_cases d :
  is_pos d = true -> d = S754_infinity false \/ exists m e, d = S754_finite false m e.
Proof.
  rewrite is_pos_spec.
  destruct d as [s|s| |s m e]; try discriminate; destruct s; try discriminate; eauto.
Qed.

Lemma is_neg_cases d :
  is_neg d = true -> d = S754_infinity true \/ exists m e, d = S754_finite true m e.
Proof.
  rewrite is_neg_spec.
  destruct d as [s|s| |s m e]; try discriminate; destruct s; try discriminate; eauto.
Qed.

Lemma fmul_finite_sign sx mx ex sy my ey :
  bounded prec emax mx ex = true -> bounded prec emax my ey = true ->
  fmul (S754_finite sx mx ex) (S754_finite sy my ey) = S754_zero (xorb sx sy) \/
  fmul (S754_finite sx mx ex) (S754_finite sy my ey) = S754_infinity (xorb sx sy) \/
  exists m e, fmul (S754_finite sx mx ex) (S754_finite sy my ey) = S754_finite (xorb sx sy) m e.
Proof.
  intros Bx By. eapply rounds_sign, fmul_finite_rounds; assumption.
Qed.

Lemma is_neg_finite m e : is_neg (S754_finite true m e) = true.
Proof. rewrite is_neg_spec. reflexivity. Qed.

Lemma is_pos_finite m e : is_pos (S754_finite false m e) = true.
Proof. rewrite is_pos_spec. reflexivity. Qed.

Theorem fmul_pos_neg a b :
  valid a = true -> valid b = true ->
  is_pos a = true -> is_neg b = true -> neg_or_mzero (fmul a b).
Proof.
  intros Va Vb Pa Nb.
  destruct (is_pos_cases _ Pa) as [->|(ma & ea & ->)],
           (is_neg_cases _ Nb) as [->|(mb & eb & ->)].
  - left. reflexivity.
  - left. reflexivity.
  - left. reflexivity.
  - destruct (fmul_finite_sign false ma ea true mb eb Va Vb) as [->|[->|(m & e & ->)]];
      cbn [xorb]; [right; reflexivity|left; reflexivity|left; apply is_neg_finite].
Qed.

Theorem fmul_neg_pos a b :
  valid a = true -> valid b = true ->
  is_neg a = true -> is_pos b = true -> neg_or_mzero (fmul a b).
Proof.
  intros Va Vb Na Pb.
  destruct (is_neg_cases _ Na) as [->|(ma & ea & ->)],
           (is_pos_cases _ Pb) as [->|(mb & eb & ->)].
  - left. reflexivity.
  - left. reflexivity.
  - left. reflexivity.
  - destruct (fmul_finite_sign true ma ea false mb eb Va Vb) as [->|[->|(m & e & ->)]];
      cbn [xorb]; [right; reflexivity|left; reflexivity|left; apply is_neg_finite].
Qed.

(** A negative zero times a finite positive factor stays a negative zero. *)
Lemma fmul_mzero_pos b :
  is_pos b = true -> is_finite b = true -> fmul (S754_zero true) b = S754_zero true.
Proof.
  intros P F. destruct (is_pos_cases _ P) as [->|(m & e & ->)]; [discriminate|reflexivity].
Qed.

Lemma truediv_float a b s : py_truediv a b = Ok s -> exists q, s = Float q.
Proof.
  destruct a as [x|x], b as [y|y]; cbn [py_truediv]; unfold float_truediv.
  - destruct (y =? 0); [discriminate|].
    destruct (fdiv (Z2SF x) (Z2SF y)); intros H; try discriminate; injection H as <-; eauto.
  - destruct (float_of_int x); cbn [bind]; [|discriminate].
    destruct (is_zero y); intros H; try discriminate; injection H as <-; eauto.
  - destruct (float_of_int y); cbn [bind]; [|discriminate].
    destruct (is_zero a); intros H; try discriminate; injection H as <-; eauto.
  - destruct (is_zero y); intros H; try discriminate; injection H as <-; eauto.
Qed.

Lemma engineering_cases x c t r :
  engineering (Float x) c (Float t) = Ok r ->
  exists share, py_truediv c (Int 100) = Ok (Float share) /\ r = float_record x share t.
Proof.
  intros H. destruct (py_truediv c (Int 100)) as [s|e] eqn:Hs.
  - destruct (truediv_float _ _ _ Hs) as [q ->]. exists q. split; [reflexivity|].
    rewrite (engineering_float x c t q Hs) in H. injection H as <-. reflexivity.
  - unfold engineering in H. rewrite Hs in H. discriminate.
Qed.

Lemma engineering_returns x c t share :
  py_truediv c (Int 100) = Ok (Float share) ->
  engineering (Float x) c (Float t) = Ok (float_record x share t).
Proof. apply engineering_float. Qed.

(** ** Reference condition *)

Lemma py_eq_0_cases c :
  py_eq c (Int 0) = true -> c = Int 0 \/ exists s, c = Float (S754_zero s).
Proof.
  unfold py_eq, num_compare. destruct c as [z|x].
  - destruct (Z.compare_spec z 0); try discriminate. subst. auto.
  - destruct x as [s|s| |s m e]; try discriminate; [eauto|destruct s; discriminate|].
    rewrite SF_Z_compare_0. destruct s; discriminate.
Qed.

Lemma SFleb_25_Q t : valid t = true -> SFleb t f25 = true ->
  t = S754_infinity true \/ (wf t = true /\ (F2Q t <= 25)%Q).
Proof.
  intros V H. destruct t as [s|s| |s m e]; try discriminate.
  - right. split; [reflexivity|]. cbn. lra.
  - destruct s; [auto|discriminate].
  - right. assert (W : wf (S754_finite s m e) = true) by (apply wf_spec; auto).
    split; [exact W|]. rewrite <- F2Q_f25. apply SFleb_Q; auto.
Qed.

Lemma te_of_cold t : valid t = true -> SFleb t f25 = true -> is_pos (derate_of t) = false.
Proof.
  intros V H. destruct (SFleb_25_Q t V H) as [->|[W Q]]; [reflexivity|].
  apply te_cold; assumption.
Qed.

Lemma share_of_zero c share :
  py_eq c (Int 0) = true -> py_truediv c (Int 100) = Ok (Float share) -> ce_of share = f1.
Proof.
  intros Hc Hs. destruct (py_eq_0_cases c Hc) as [->|[s ->]].
  - injection Hs as <-. reflexivity.
  - injection Hs as <-. destruct s; reflexivity.
Qed.

Lemma share_of_zero_total c :
  py_eq c (Int 0) = true -> exists share, py_truediv c (Int 100) = Ok (Float share).
Proof.
  intros Hc. destruct (py_eq_0_cases c Hc) as [->|[s ->]]; eexists; reflexivity.
Qed.

Lemma py_le_floats a b : py_le (Float a) (Float b) = SFleb a b.
Proof. reflexivity. Qed.

Lemma wf_nonneg x : wf x = true -> SFleb f0 x = true -> (0 <= F2Q x)%Q.
Proof. intros W H. apply (SFleb_Q f0 x) in H; auto. Qed.

Lemma temp_efficiency_float x share t :
  temp_efficiency (float_record x share t) =
  if is_pos (derate_of t) then Float (te_of t) else Int 1.
Proof. unfold float_record, te_of; cbn. destruct (is_pos (derate_of t)); reflexivity. Qed.

(** ** Cloud efficiency outside the range *)

Lemma wf_of_Rnd_finite v r : Rnd v r -> is_finite r = true -> wf r = true.
Proof. intros R F. apply wf_spec. split; [eapply Rnd_valid; eauto|exact F]. Qed.

Theorem share_wf c share :
  wf_num c = true -> py_truediv c (Int 100) = Ok (Float share) -> wf share = true.
Proof.
  intros W H. pose proof (share_Rnd c share W H) as R.
  destruct c as [z|x].
  - apply (wf_of_Rnd_finite _ _ R).
    cbn [py_truediv] in H. change (100 =? 0) with false in H. cbn iota in H.
    pose proof (Rnd_not_nan _ _ R) as NN.
    destruct (fdiv (Z2SF z) (Z2SF 100)); try discriminate; injection H as <-;
      try reflexivity. congruence.
  - cbn [wf_num num2Q] in *. pose proof (wf_range x W) as [L U].
    pose proof F2Q_fmax_pos.
    destruct (Rnd_bounds _ _ _ _ _ _ R Rnd_fmin Rnd_fmax eq_refl eq_refl) as [Wq _];
      [lra|exact Wq].
Qed.

Theorem loss_wf s : wf s = true -> wf (fmul s f0_8) = true.
Proof.
  intros W. destruct (wf_split _ W) as [V F].
  pose proof (fmul_Rnd s f0_8 V eq_refl F eq_refl) as R.
  pose proof (wf_range s W) as [L U]. pose proof F2Q_fmax_pos.
  destruct (Rnd_bounds _ _ _ _ _ _ R Rnd_fmin Rnd_fmax eq_refl eq_refl) as [Wq _];
    [rewrite F2Q_f0_8; lra|exact Wq].
Qed.

Theorem ce_wf s : wf s = true -> wf (ce_of s) = true.
Proof.
  intros W. pose proof (loss_wf s W) as Wl. destruct (wf_split _ Wl) as [Vl Fl].
  pose proof (fsub_Rnd f1 (fmul s f0_8) eq_refl Vl eq_refl Fl) as R.
  pose proof (fsub_Rnd f1 fmax eq_refl eq_refl eq_refl eq_refl) as Rlo.
  pose proof (fsub_Rnd f1 (SFopp fmax) eq_refl eq_refl eq_refl eq_refl) as Rhi.
  pose proof (wf_range _ Wl) as [L U].
  destruct (Rnd_bounds _ _ _ _ _ _ R Rlo Rhi eq_refl eq_refl) as [Wq _]; [|exact Wq].
  rewrite F2Q_opp. lra.
Qed.

Theorem ce_antitone s1 s2 :
  wf s1 = true -> wf s2 = true ->
  (F2Q s1 <= F2Q s2)%Q -> (F2Q (ce_of s2) <= F2Q (ce_of s1))%Q.
Proof.
  intros W1 W2 H.
  pose proof (loss_wf s1 W1) as Wl1. pose proof (loss_wf s2 W2) as Wl2.
  pose proof (ce_wf s1 W1) as Wc1. pose proof (ce_wf s2 W2) as Wc2.
  destruct (wf_split _ W1) as [V1 F1]. destruct (wf_split _ W2) as [V2 F2].
  destruct (wf_split _ Wl1) as [Vl1 Fl1]. destruct (wf_split _ Wl2) as [Vl2 Fl2].
  assert (Hl : (F2Q (fmul s1 f0_8) <= F2Q (fmul s2 f0_8))%Q).
  { apply (Rnd_mono_Q (F2Q s1 * F2Q f0_8) _ (F2Q s2 * F2Q f0_8));
      try assumption; try (apply fmul_Rnd; auto).
    rewrite F2Q_f0_8. lra. }
  apply (Rnd_mono_Q (F2Q f1 - F2Q (fmul s2 f0_8)) _ (F2Q f1 - F2Q (fmul s1 f0_8)));
    try assumption; try (apply fsub_Rnd; auto). lra.
Qed.

(** The next double after a positive one is the least double above it. *)
Lemma SFltb_succ m e y :
  SFltb (S754_finite false m e) y = true ->
  SFleb (S754_finite false (Pos.succ m) e) y = true.
Proof.
  unfold SFltb, SFleb.
  destruct y as [s|s| |s my ey]; cbn [SFcompare]; try discriminate;
    try (destruct s; intros H; try discriminate; reflexivity).
  destruct s; [discriminate|].
  destruct (Z.compare_spec e ey); try discriminate; try reflexivity.
  change (Pos.compare_cont Eq m my) with (m ?= my)%positive.
  change (Pos.compare_cont Eq (Pos.succ m) my) with (Pos.succ m ?= my)%positive.
  destruct (Pos.compare_spec m my); try discriminate. intros _.
  destruct (Pos.compare_spec (Pos.succ m) my); try reflexivity. lia.
Qed.

Lemma F2Q_f125 : (F2Q f125 == 125)%Q.
Proof. reflexivity. Qed.

Lemma F2Q_f125_succ : (F2Q f125_succ == 8796093022208001 # 70368744177664)%Q.
Proof. reflexivity. Qed.

Lemma above_125 c :
  wf_num c = true -> py_gt c (Int 125) = true -> (F2Q f125_succ <= num2Q c)%Q.
Proof.
  intros W H. destruct c as [z|x].
  - apply py_gt_Q in H; auto. cbn [num2Q] in *.
    rewrite <- Zlt_Qlt in H.
    rewrite F2Q_f125_succ.
    assert (K : (inject_Z 126 <= inject_Z z)%Q) by (rewrite <- Zle_Qle; lia).
    change (inject_Z 126) with 126%Q in K. lra.
  - cbn [wf_num num2Q] in *.
    assert (L : SFltb f125 x = true).
    { apply SFltb_Q; [reflexivity|exact W|]. apply py_gt_Q in H; auto.
      rewrite F2Q_f125. exact H. }
    apply (SFltb_succ 8796093022208000 (-46)) in L.
    apply (SFleb_Q f125_succ x) in L; auto.
Qed.

Lemma above_225 t :
  wf t = true -> py_gt (Float t) (Int 225) = true -> (F2Q f225_succ <= F2Q t)%Q.
Proof.
  intros W H.
  assert (L : SFltb f225 t = true).
  { apply SFltb_Q; [reflexivity|exact W|]. apply py_gt_Q in H; auto.
    rewrite F2Q_f225. exact H. }
  apply (SFltb_succ 7916483719987200 (-45)) in L.
  apply (SFleb_Q f225_succ t) in L; auto.
Qed.

Lemma is_neg_Q d : wf d = true -> (is_neg d = true <-> (F2Q d < 0)%Q).
Proof.
  intros W. unfold is_neg. rewrite (py_lt_Q (Float d) (Int 0)) by (cbn; auto).
  cbn [num2Q]. reflexivity.
Qed.

Theorem ce_negative c share :
  wf_num c = true -> py_gt c (Int 125) = true ->
  py_truediv c (Int 100) = Ok (Float share) -> is_neg (ce_of share) = true.
Proof.
  intros W H Hs. pose proof (above_125 c W H) as Hc.
  pose proof (share_wf c share W Hs) as Ws.
  pose proof (share_Rnd c share W Hs) as Rs.
  pose proof (share_Rnd (Float f125_succ) (fdiv f125_succ f100) eq_refl eq_refl) as R0.
  assert (H0 : (F2Q (fdiv f125_succ f100) <= F2Q share)%Q).
  { apply (Rnd_mono_Q _ _ _ _ R0 Rs); [reflexivity|exact Ws|]. cbn [num2Q]. lra. }
  pose proof (ce_antitone (fdiv f125_succ f100) share eq_refl Ws H0) as Hce.
  apply is_neg_Q; [apply ce_wf, Ws|].
  assert (K : (F2Q (ce_of (fdiv f125_succ f100)) < 0)%Q) by reflexivity.
  lra.
Qed.

Theorem te_negative t :
  wf t = true -> py_gt (Float t) (Int 225) = true ->
  is_pos (derate_of t) = true /\ is_neg (fsub f1 (derate_of t)) = true.
Proof.
  intros W H. pose proof (above_225 t W H) as Ht.
  destruct (derate_wf t W) as [Wd _].
  pose proof (derate_mono f225_succ t eq_refl W Ht) as Hd.
  assert (K : (1 < F2Q (derate_of f225_succ))%Q) by reflexivity.
  assert (P : is_pos (derate_of t) = true) by (apply is_pos_Q; [exact Wd|lra]).
  split; [exact P|].
  pose proof (te_wf t W) as [Wte _]. pose proof (te_mono f225_succ t eq_refl W Ht) as Hte.
  assert (K' : (F2Q (te_of f225_succ) < 0)%Q) by reflexivity.
  assert (E : te_of t = fsub f1 (derate_of t)) by (unfold te_of; rewrite P; reflexivity).
  rewrite E in Wte, Hte.
  apply is_neg_Q; [exact Wte|]. lra.
Qed.

(** ** Bills *)

Theorem float_of_int_Rnd mu muf :
  float_of_int mu = Ok muf -> Rnd (inject_Z mu) muf /\ wf muf = true.
Proof.
  unfold float_of_int. intros H.
  pose proof (binary_normalize_Rnd mu 0) as R.
  assert (E : binary_normalize prec emax mu 0 false = muf /\ is_finite muf = true).
  { pose proof (Rnd_not_nan _ _ R) as NN.
    destruct (binary_normalize prec emax mu 0 false); try discriminate;
      injection H as <-; split; try reflexivity; congruence. }
  destruct E as [E F]. rewrite E in R.
  assert (R' : Rnd (inject_Z mu) muf).
  { eapply Rnd_compat; [|exact R]. change (bpow 0) with 1%Q. ring. }
  split; [exact R'|]. apply (wf_of_Rnd_finite _ _ R' F).
Qed.

Lemma financial_float mu t mp muf :
  float_of_int mu = Ok muf ->
  financial (Int mu) (Float t) (Float mp) = Ok (fin_record muf t mp).
Proof.
  intros H. unfold financial. cbn [py_mul py_sub]. rewrite H. cbn [bind].
  rewrite is_pos_max. unfold fin_record, net_of.
  destruct (is_pos (fsub muf mp)); cbn [bind py_mul py_sub];
    rewrite ?float_of_int_0; reflexivity.
Qed.

Lemma financial_cases mu t mp r :
  financial (Int mu) (Float t) (Float mp) = Ok r ->
  exists muf, float_of_int mu = Ok muf /\ r = fin_record muf t mp.
Proof.
  intros H. destruct (float_of_int mu) as [muf|e] eqn:E.
  - exists muf. split; [reflexivity|].
    rewrite (financial_float mu t mp muf E) in H. injection H as <-. reflexivity.
  - unfold financial in H. cbn [py_mul] in H. rewrite E in H. discriminate.
Qed.


Lemma SFleb_0_not_pos d : SFleb d f0 = true -> is_pos d = false.
Proof.
  rewrite is_pos_spec. unfold SFleb, SFltb.
  destruct d as [s|s| |s m e]; try reflexivity; destruct s; try reflexivity; discriminate.
Qed.




(** ** Savings *)

Lemma nonneg_cases mp :
  valid mp = true -> SFleb f0 mp = true ->
  mp = S754_infinity false \/ (wf mp = true /\ (0 <= F2Q mp)%Q).
Proof.
  intros V H. destruct mp as [s|s| |s m e]; try discriminate.
  - right. split; [reflexivity|]. cbn. lra.
  - destruct s; [discriminate|auto].
  - right. assert (W : wf (S754_finite s m e) = true) by (apply wf_spec; auto).
    split; [exact W|]. apply (SFleb_Q f0) in H; auto.
Qed.

Lemma old_bill_finite o :
  valid o = true -> SFleb f0 o = true ->
  py_lt (Float o) (Float (S754_infinity false)) = true -> wf o = true.
Proof.
  intros V P H. apply wf_spec. split; [exact V|].
  destruct o as [s|s| |s m e]; try reflexivity; try discriminate.
  destruct s; discriminate.
Qed.

Theorem net_bounds muf mp :
  wf muf = true -> (0 <= F2Q muf)%Q -> valid mp = true -> SFleb f0 mp = true ->
  wf (net_of muf mp) = true /\ (0 <= F2Q (net_of muf mp) <= F2Q muf)%Q.
Proof.
  intros Wm Lm V P. destruct (wf_split _ Wm) as [Vm Fm]. unfold net_of.
  destruct (nonneg_cases mp V P) as [->|[Wp Lp]].
  - assert (E : fsub muf (S754_infinity false) = S754_infinity true).
    { destruct muf; try discriminate; reflexivity. }
    rewrite E. change (is_pos (S754_infinity true)) with false. cbn iota.
    split; [reflexivity|]. change (F2Q f0) with 0%Q. lra.
  - destruct (wf_split _ Wp) as [Vp Fp].
    pose proof (fsub_Rnd muf mp Vm Vp Fm Fp) as R.
    assert (Rlo : Rnd (- F2Q mp) (SFopp mp)).
    { apply (Rnd_compat (F2Q (SFopp mp))); [apply F2Q_opp|apply Rnd_F2Q, wf_opp, Wp]. }
    assert (Flo : is_finite (SFopp mp) = true).
    { destruct mp; try discriminate; reflexivity. }
    destruct (Rnd_bounds _ _ _ _ _ _ R Rlo (Rnd_F2Q muf Wm) Flo Fm) as [Wr [_ Ur]]; [lra|].
    destruct (is_pos (fsub muf mp)) eqn:Q.
    + apply (is_pos_Q _ Wr) in Q. split; [exact Wr|lra].
    + split; [reflexivity|]. change (F2Q f0) with 0%Q. lra.
Qed.

Theorem savings_nonneg mu muf t mp :
  0 <= mu -> float_of_int mu = Ok muf ->
  wf t = true -> SFleb f0 t = true ->
  valid mp = true -> SFleb f0 mp = true ->
  py_lt (Float (fmul muf t)) (Float (S754_infinity false)) = true ->
  py_ge (Float (fsub (fmul muf t) (fmul (net_of muf mp) t))) (Int 0) = true.
Proof.
  intros Hmu Hm Wt Pt Vp Pp Hfin.
  destruct (float_of_int_Rnd mu muf Hm) as [Rm Wm].
  destruct (wf_split _ Wm) as [Vm Fm]. destruct (wf_split _ Wt) as [Vt Ft].
  assert (Lm : (0 <= F2Q muf)%Q).
  { change 0%Q with (F2Q f0). apply (Rnd_mono_Q _ _ _ _ Rnd_0 Rm eq_refl Wm).
    change 0%Q with (inject_Z 0). rewrite <- Zle_Qle. exact Hmu. }
  pose proof (wf_nonneg t Wt Pt) as Lt.
  pose proof (fmul_Rnd muf t Vm Vt Fm Ft) as Ro.
  assert (Wo : wf (fmul muf t) = true).
  { apply old_bill_finite; [eapply Rnd_valid; eauto| |exact Hfin].
    apply (Rnd_nonneg _ _ Ro). nra. }
  destruct (wf_split _ Wo) as [Vo Fo].
  destruct (net_bounds muf mp Wm Lm Vp Pp) as [Wn [Ln Un]].
  destruct (wf_split _ Wn) as [Vn Fn].
  pose proof (fmul_Rnd (net_of muf mp) t Vn Vt Fn Ft) as Rn.
  destruct (Rnd_bounds _ _ _ _ _ _ Rn Rnd_0 Ro eq_refl Fo) as [Wb [Lb Ub]]; [split; nra|].
  change (F2Q f0) with 0%Q in Lb.
  destruct (wf_split _ Wb) as [Vb Fb].
  pose proof (fsub_Rnd (fmul muf t) (fmul (net_of muf mp) t) Vo Vb Fo Fb) as Rs.
  destruct (Rnd_bounds _ _ _ _ _ _ Rs Rnd_0 (Rnd_F2Q _ Wo) eq_refl Fo) as [Ws [Ls _]]; [lra|].
  apply py_ge_Q; auto.
Qed.

Lemma py_ge_0_spec d : py_ge (Float d) (Int 0) = SFleb f0 d.
Proof.
  unfold py_ge, num_compare, SFleb.
  destruct d as [s|s| |s m e]; try reflexivity; try (destruct s; reflexivity).
  rewrite SF_Z_compare_0. destruct s; reflexivity.
Qed.

Lemma py_gt_0_spec d : py_gt (Float d) (Int 0) = is_pos d.
Proof. reflexivity. Qed.

Lemma py_lt_0_spec d : py_lt (Float d) (Int 0) = is_neg d.
Proof. reflexivity. Qed.

Lemma py_ge_Z a b : py_ge (Int a) (Int b) = true <-> b <= a.
Proof.
  unfold py_ge, num_compare. destruct (Z.compare_spec a b) as [E|L|G]; split; intros H;
    try reflexivity; try discriminate; lia.
Qed.

Theorem fmul_pos_pos a b :
  valid a = true -> valid b = true -> is_pos a = true -> is_pos b = true ->
  is_pos (fmul a b) = true \/ fmul a b = S754_zero false.
Proof.
  intros Va Vb Pa Pb.
  destruct (is_pos_cases _ Pa) as [->|(ma & ea & ->)],
           (is_pos_cases _ Pb) as [->|(mb & eb & ->)].
  - left. reflexivity.
  - left. reflexivity.
  - left. reflexivity.
  - destruct (fmul_finite_sign false ma ea false mb eb Va Vb) as [->|[->|(m & e & ->)]];
      cbn [xorb]; [right; reflexivity|left; reflexivity|left; apply is_pos_finite].
Qed.

Lemma fmul_pzero_neg b :
  is_neg b = true -> is_finite b = true -> fmul (S754_zero false) b = S754_zero true.
Proof.
  intros N F. destruct (is_neg_cases _ N) as [->|(m & e & ->)]; [discriminate|reflexivity].
Qed.

Lemma neg_or_mzero_py d :
  neg_or_mzero d -> py_lt (Float d) (Int 0) = true \/ Float d = Float (S754_zero true).
Proof. intros [H| ->]; [left; exact H|right; reflexivity]. Qed.

(** Sign of the derated power when the two efficiencies have opposite signs. *)
Theorem power_sign x share t :
  valid x = true -> is_pos x = true -> wf share = true -> wf t = true ->
  (is_neg (ce_of share) = true /\ is_pos (te_of t) = true) \/
  (is_pos (ce_of share) = true /\ is_neg (te_of t) = true) ->
  neg_or_mzero (power_of x share t).
Proof.
  intros Vx Px Ws Wt H.
  pose proof (ce_wf share Ws) as Wce. destruct (wf_split _ Wce) as [Vce Fce].
  destruct (te_wf t Wt) as [Wte _]. destruct (wf_split _ Wte) as [Vte Fte].
  pose proof (fmul_valid x (ce_of share) Vx Vce) as Vcl.
  unfold power_of. destruct H as [[N P]|[P N]].
  - destruct (fmul_pos_neg x (ce_of share) Vx Vce Px N) as [Ncl| ->].
    + apply fmul_neg_pos; assumption.
    + right. apply fmul_mzero_pos; assumption.
  - destruct (fmul_pos_pos x (ce_of share) Vx Vce Px P) as [Pcl| ->].
    + apply fmul_pos_neg; assumption.
    + right. apply fmul_pzero_neg; assumption.
Qed.

Lemma temp_efficiency_sign x share t :
  (py_gt (temp_efficiency (float_record x share t)) (Int 0) = is_pos (te_of t)) /\
  (py_lt (temp_efficiency (float_record x share t)) (Int 0) = is_neg (te_of t)).
Proof.
  rewrite temp_efficiency_float. unfold te_of.
  destruct (is_pos (derate_of t)); split; reflexivity.
Qed.

(** ** Monthly energy *)

Lemma float_of_int_150 : float_of_int 150 = Ok f150.
Proof. reflexivity. Qed.

Theorem monthly_exact p :
  wf p = true -> wf (fmul p f5) = true -> (F2Q (fmul p f5) == 5 * F2Q p)%Q ->
  fmul (fmul p f5) f30 = fmul p f150.
Proof.
  intros Wp Wd E.
  destruct (wf_split _ Wp) as [Vp Fp]. destruct (wf_split _ Wd) as [Vd Fd].
  destruct (wf_cases p Wp) as [[s ->]|(s & m & e & -> & B)].
  - destruct s; reflexivity.
  - apply (Rnd_fun (F2Q (fmul (S754_finite s m e) f5) * F2Q f30)
                   (F2Q (S754_finite s m e) * F2Q f150)).
    + apply fmul_Rnd; auto.
    + apply fmul_Rnd; auto.
    + rewrite E, F2Q_f30, F2Q_f150. ring.
    + rewrite E, F2Q_f30, F2Q_finite. pose proof (mag_pos m e). destruct s; lra.
Qed.

Lemma py_le_25 t : valid t = true -> py_le (Float t) (Int 25) = true -> SFleb t f25 = true.
Proof.
  intros V H. destruct t as [s|s| |s m e]; try discriminate.
  - reflexivity.
  - destruct s; [reflexivity|discriminate].
  - assert (W : wf (S754_finite s m e) = true) by (apply wf_spec; auto).
    apply py_le_Q in H; auto. apply SFleb_Q; auto. rewrite F2Q_f25. exact H.
Qed.

Lemma py_eq_25 t : valid t = true -> py_eq (Float t) (Int 25) = true -> t = f25.
Proof.
  intros V H.
  assert (F : is_finite t = true).
  { destruct t as [s|s| |s m e]; try reflexivity; try discriminate. destruct s; discriminate. }
  assert (W : wf t = true) by (apply wf_spec; auto).
  apply py_eq_Q in H; auto. cbn [num2Q] in H. change (inject_Z 25) with 25%Q in H.
  apply (Rnd_fun (F2Q t) (F2Q f25)).
  - apply Rnd_F2Q, W.
  - apply Rnd_F2Q. reflexivity.
  - rewrite F2Q_f25. exact H.
  - rewrite H. discriminate.
Qed.

Lemma valid_cases t :
  valid t = true ->
  wf t = true \/ t = S754_infinity false \/ t = S754_infinity true \/ t = S754_nan.
Proof.
  intros V. destruct t as [s|s| |s m e]; auto.
  - destruct s; auto.
  - left. apply wf_spec. auto.
Qed.

Theorem te_le_1 x share t :
  valid t = true -> py_le (temp_efficiency (float_record x share t)) (Int 1) = true.
Proof.
  intros V. destruct (valid_cases t V) as [W|[->|[->| ->]]]; try reflexivity.
  rewrite temp_efficiency_float. destruct (te_wf t W) as [Wte Ute].
  destruct (is_pos (derate_of t)); [|reflexivity].
  apply py_le_Q; auto.
Qed.

Theorem te_unit t :
  valid t = true -> py_le (Float t) (Int 225) = true ->
  wf (te_of t) = true /\ (0 <= F2Q (te_of t) <= 1)%Q.
Proof.
  intros V H. destruct (valid_cases t V) as [W|[->|[->| ->]]]; try discriminate.
  - apply py_le_Q in H; auto. cbn [num2Q] in H. change (inject_Z 225) with 225%Q in H.
    destruct (te_wf t W) as [Wte Ute]. pose proof (te_nonneg t W H). auto.
  - change (te_of (S754_infinity true)) with f1. split; [reflexivity|].
    rewrite F2Q_f1. lra.
Qed.

(** * The claims *)

(** ** Reference condition *)

(** C1: at zero cloud cover and 25 degrees Celsius the derated power is
    the rated power itself, for every rated power above zero. *)
Theorem C1_reference_condition (x : float) (clouds : num) (t : float) :
  valid x = true -> py_gt (Float x) (Int 0) = true ->
  py_eq clouds (Int 0) = true ->
  valid t = true -> py_eq (Float t) (Int 25) = true ->
  exists r, engineering (Float x) clouds (Float t) = Ok r /\
            actual_power r = Float x.
Proof.
  intros V _ Hc Vt Ht. rewrite (py_eq_25 t Vt Ht).
  destruct (share_of_zero_total clouds Hc) as [share Hs].
  exists (float_record x share f25). split; [apply engineering_returns, Hs|].
  cbn [float_record actual_power]. unfold power_of.
  rewrite (share_of_zero clouds share Hc Hs).
  change (te_of f25) with f1. rewrite !fmul_one; auto.
  rewrite fmul_one; auto.
Qed.

Lemma C1_witness :
  exists r, engineering (Float f5) (Int 0) (Float f25) = Ok r /\
            actual_power r = Float f5.
Proof.
  apply (C1_reference_condition f5 (Int 0) f25); reflexivity.
Defined.

(** ** Monotonicity *)




(** ** Savings *)

(** C3 as stated fails: a tariff of 1e307 makes both bills infinite and the
    savings a NaN. *)
Lemma C3_counterexample :
  exists r,
    financial (Int 350) (Float f1e307) (Float f0) = Ok r /\
    py_ge (Int 350) (Int 0) = true /\
    py_ge (Float f1e307) (Int 0) = true /\
    py_ge (Float f0) (Int 0) = true /\
    py_ge (savings r) (Int 0) = false.
Proof.
  eexists. split; [vm_compute; reflexivity|].
  repeat split; vm_compute; reflexivity.
Qed.

(** C3, as amended: the savings are the old bill minus the new bill, and
    with non-negative usage, tariff and production they are non-negative
    whenever the old bill is finite. *)
Theorem C3_savings (mu : Z) (t mp : float) (r : Financial) :
  financial (Int mu) (Float t) (Float mp) = Ok r ->
  py_sub (old_bill r) (new_bill r) = Ok (savings r) /\
  (py_ge (Int mu) (Int 0) = true ->
   wf t = true -> py_ge (Float t) (Int 0) = true ->
   valid mp = true -> py_ge (Float mp) (Int 0) = true ->
   py_lt (old_bill r) (Float (S754_infinity false)) = true ->
   py_ge (savings r) (Int 0) = true).
Proof.
  intros H. destruct (financial_cases mu t mp r H) as (muf & Hm & ->).
  split; [reflexivity|].
  intros Hmu Wt Pt Vp Pp Hfin. cbn [fin_record savings old_bill] in *.
  rewrite py_ge_0_spec in Pt, Pp. apply py_ge_Z in Hmu.
  apply (savings_nonneg mu); assumption.
Qed.

Lemma C3_witness :
  py_sub (Float (literal 2800 1)) (Float (literal 1600 1)) = Ok (Float (literal 1200 1)) /\
  py_ge (Float (literal 1200 1)) (Int 0) = true.
Proof.
  destruct (C3_savings 350 f8 f150
              {| old_bill := Float (literal 2800 1);
                 net_usage := Float (literal 200 1);
                 new_bill := Float (literal 1600 1);
                 savings := Float (literal 1200 1) |} eq_refl) as [A B].
  split; [exact A|apply B; reflexivity].
Defined.

(** ** Net usage *)



(** ** Scenario 2 *)

(** C5 as stated fails: none of the six stated values is computed. *)
Lemma C5_counterexample :
  exists eng fin,
    compute (Float f5) (Int 350) (Float f8) (Int 100) (Float f25) = Ok (eng, fin) /\
    py_eq (cloud_efficiency eng) (Float f0_2) = false /\
    py_eq (actual_power eng) (Float f1) = false /\
    py_eq (monthly_production eng) (Float f150) = false /\
    py_eq (net_usage fin) (Int 200) = false /\
    py_eq (new_bill fin) (Int 1600) = false /\
    py_eq (savings fin) (Int 1200) = false.
Proof.
  eexists. eexists. split; [vm_compute; reflexivity|].
  repeat split; vm_compute; reflexivity.
Qed.

(** C5, as amended: at 5 kW, 100 % cloud, 25 degrees Celsius, 350 kWh and a
    tariff of 8 the computation yields the doubles 0.19999999999999996,
    0.9999999999999998, 149.99999999999997, 200.00000000000003,
    1600.0000000000002 and 1199.9999999999998. *)
Theorem C5_scenario_2 :
  exists eng fin,
    compute (Float f5) (Int 350) (Float f8) (Int 100) (Float f25) = Ok (eng, fin) /\
    cloud_efficiency eng = Float (literal 19999999999999996 (10 ^ 17)) /\
    actual_power eng = Float (literal 9999999999999998 (10 ^ 16)) /\
    monthly_production eng = Float (literal 14999999999999997 (10 ^ 14)) /\
    net_usage fin = Float (literal 20000000000000003 (10 ^ 14)) /\
    new_bill fin = Float (literal 16000000000000002 (10 ^ 13)) /\
    savings fin = Float (literal 11999999999999998 (10 ^ 13)).
Proof.
  eexists. eexists. split; [vm_compute; reflexivity|].
  repeat split; vm_compute; reflexivity.
Qed.

(** ** Below 25 degrees Celsius *)

(** C6: at or below 25 degrees Celsius the heat loss is the integer 0 and
    the temperature efficiency the integer 1. *)
Theorem C6_no_bonus_below_25 (x : float) (clouds : num) (t : float) (r : Engineering) :
  valid t = true -> py_le (Float t) (Int 25) = true ->
  engineering (Float x) clouds (Float t) = Ok r ->
  heat_loss r = Int 0 /\ temp_efficiency r = Int 1.
Proof.
  intros V H E. apply (py_le_25 t V) in H.
  destruct (engineering_cases x clouds t r E) as (share & _ & ->).
  cbn [float_record heat_loss temp_efficiency].
  rewrite (te_of_cold t V H). split; reflexivity.
Qed.

Lemma C6_witness :
  heat_loss (float_record f5 (fdiv (Z2SF 40) (Z2SF 100)) (literal 18 1)) = Int 0 /\
  temp_efficiency (float_record f5 (fdiv (Z2SF 40) (Z2SF 100)) (literal 18 1)) = Int 1.
Proof.
  apply (C6_no_bonus_below_25 f5 (Int 40) (literal 18 1)); reflexivity.
Defined.

(** ** No clamping *)

(** C7 as stated fails: at 130 % cloud and 300 degrees Celsius both
    efficiencies are negative and the power is positive. *)
Lemma C7_counterexample :
  exists r,
    engineering (Float f5) (Int 130) (Float f300) = Ok r /\
    py_gt (Int 130) (Int 125) = true /\
    py_lt (temp_efficiency r) (Int 0) = true /\
    py_lt (actual_power r) (Int 0) = false.
Proof.
  eexists. split; [vm_compute; reflexivity|].
  repeat split; vm_compute; reflexivity.
Qed.

(** C7, as amended: nothing clamps the efficiencies.  Cloud cover above
    125 makes the cloud efficiency negative, a temperature above 225 makes
    the temperature efficiency negative, and when exactly one of the two is
    negative and the other positive the derated power of a positive rated
    power is negative, or the negative zero when the product underflows. *)
Theorem C7_not_clamped (x : float) (clouds : num) (t : float) (r : Engineering) :
  valid x = true -> py_gt (Float x) (Int 0) = true ->
  wf_num clouds = true -> wf t = true ->
  engineering (Float x) clouds (Float t) = Ok r ->
  (py_gt clouds (Int 125) = true -> py_lt (cloud_efficiency r) (Int 0) = true) /\
  (py_gt (Float t) (Int 225) = true -> py_lt (temp_efficiency r) (Int 0) = true) /\
  ((py_lt (cloud_efficiency r) (Int 0) = true /\
    py_gt (temp_efficiency r) (Int 0) = true) \/
   (py_gt (cloud_efficiency r) (Int 0) = true /\
    py_lt (temp_efficiency r) (Int 0) = true) ->
   py_lt (actual_power r) (Int 0) = true \/
   actual_power r = Float (S754_zero true)).
Proof.
  intros Vx Px Wc Wt E.
  destruct (engineering_cases x clouds t r E) as (share & Hs & ->).
  pose proof (share_wf clouds share Wc Hs) as Ws.
  destruct (temp_efficiency_sign x share t) as [Egt Elt].
  split; [|split].
  - intros H. cbn [float_record cloud_efficiency]. rewrite py_lt_0_spec.
    apply (ce_negative clouds); assumption.
  - intros H. rewrite Elt. destruct (te_negative t Wt H) as [P N].
    unfold te_of. rewrite P. exact N.
  - rewrite Egt, Elt. cbn [float_record cloud_efficiency actual_power].
    rewrite py_lt_0_spec, py_gt_0_spec. intros H.
    apply neg_or_mzero_py, power_sign; assumption.
Qed.

Lemma C7_witness :
  py_lt (Float (ce_of (fdiv (Z2SF 130) (Z2SF 100)))) (Int 0) = true /\
  (py_lt (Float (power_of f5 (fdiv (Z2SF 130) (Z2SF 100)) f25)) (Int 0) = true \/
   Float (power_of f5 (fdiv (Z2SF 130) (Z2SF 100)) f25) = Float (S754_zero true)).
Proof.
  destruct (C7_not_clamped f5 (Int 130) f25
              (float_record f5 (fdiv (Z2SF 130) (Z2SF 100)) f25)
              eq_refl eq_refl eq_refl eq_refl eq_refl) as (A & _ & C).
  split; [apply A; reflexivity|]. apply C. left. split; reflexivity.
Defined.

(** ** Monthly energy *)

(** C8 as stated fails: at 5 kW, 6 % cloud and 25 degrees Celsius the
    power is 4.76, the monthly energy 713.9999999999999, and 4.76 * 150 is
    714.0. *)
Lemma C8_counterexample :
  exists r m,
    engineering (Float f5) (Int 6) (Float f25) = Ok r /\
    py_mul (actual_power r) (Int 150) = Ok m /\
    py_eq (monthly_production r) m = false.
Proof.
  eexists. eexists. split; [vm_compute; reflexivity|].
  repeat split; vm_compute; reflexivity.
Qed.

(** C8, as amended: the monthly energy is the daily energy times 30 and
    the daily energy is the derated power times 5, each product rounded;
    it is the derated power times 150 whenever the daily energy is exactly
    five times the power. *)
Theorem C8_monthly_production (x : float) (clouds : num) (t : float) (r : Engineering) :
  engineering (Float x) clouds (Float t) = Ok r ->
  py_mul (actual_power r) (Int 5) = Ok (daily_production r) /\
  py_mul (daily_production r) (Int 30) = Ok (monthly_production r) /\
  (forall a d : float,
     actual_power r = Float a -> daily_production r = Float d ->
     wf a = true -> wf d = true -> (F2Q d == 5 * F2Q a)%Q ->
     py_mul (actual_power r) (Int 150) = Ok (monthly_production r)).
Proof.
  intros E. destruct (engineering_cases x clouds t r E) as (share & Hs & ->).
  cbn [float_record actual_power daily_production monthly_production].
  split; [reflexivity|]. split; [reflexivity|].
  intros a d Ha Hd Wa Wd Hex. injection Ha as <-. injection Hd as <-.
  cbn [py_mul]. rewrite float_of_int_150. cbn [bind].
  rewrite monthly_exact; auto.
Qed.

Lemma C8_witness :
  py_mul (Float f5) (Int 150) = Ok (Float (literal 750 1)).
Proof.
  destruct (C8_monthly_production f5 (Int 0) f25
              (float_record f5 (fdiv (Z2SF 0) (Z2SF 100)) f25) eq_refl) as (_ & _ & C).
  apply (C f5 f25); reflexivity.
Defined.

(** ** Determinism *)



(** ** Bounds on the efficiencies *)

(** C10 as stated fails: at 100 % cloud the cloud efficiency is below 0.2. *)
Lemma C10_counterexample :
  exists r,
    engineering (Float f5) (Int 100) (Float f25) = Ok r /\
    py_ge (cloud_efficiency r) (Float f0_2) = false.
Proof.
  eexists. split; [vm_compute; reflexivity|].
  repeat split; vm_compute; reflexivity.
Qed.

(** C10, as amended: on cloud cover between 0 and 100 the cloud efficiency
    lies between the double 1 - 0.8 = 0.19999999999999996 and 1, the
    temperature efficiency is at most 1, and up to 225 degrees Celsius the
    derated power of a non-negative rated power does not exceed it. *)
Theorem C10_efficiency_bounds (x : float) (clouds : num) (t : float) :
  wf x = true -> py_ge (Float x) (Int 0) = true ->
  wf_num clouds = true ->
  py_le (Int 0) clouds = true -> py_le clouds (Int 100) = true ->
  valid t = true ->
  exists r, engineering (Float x) clouds (Float t) = Ok r /\
    py_le (Float (literal 19999999999999996 (10 ^ 17))) (cloud_efficiency r) = true /\
    py_le (cloud_efficiency r) (Int 1) = true /\
    py_le (temp_efficiency r) (Int 1) = true /\
    (py_le (Float t) (Int 225) = true ->
     py_le (actual_power r) (Float x) = true).
Proof.
  intros Wx Hx Wc Hc0 Hc1 Vt. rewrite py_ge_0_spec in Hx.
  apply py_le_Q in Hc0, Hc1; auto. cbn [num2Q] in Hc0, Hc1.
  destruct (share_total clouds Wc (conj Hc0 Hc1)) as (share & Hs & Ws & Bs).
  destruct (ce_bounds share Ws Bs) as [Wce [Lce Uce]].
  exists (float_record x share t). split; [apply engineering_returns, Hs|].
  change (literal 19999999999999996 (10 ^ 17)) with ce_min.
  split; [|split; [|split]].
  - cbn [float_record cloud_efficiency]. rewrite py_le_floats. apply SFleb_Q; auto.
  - cbn [float_record cloud_efficiency]. apply py_le_Q; auto.
  - apply te_le_1, Vt.
  - intros H225. destruct (te_unit t Vt H225) as [Wte [Lte Ute]].
    pose proof (wf_nonneg x Wx Hx) as Lx.
    rewrite F2Q_ce_min in Lce.
    destruct (fmul_contract x (ce_of share) Wx Wce Lx ltac:(lra)) as [Wcl [Lcl Ucl]].
    destruct (fmul_contract _ (te_of t) Wcl Wte Lcl ltac:(lra)) as [Wap [Lap Uap]].
    cbn [float_record actual_power]. rewrite py_le_floats. unfold power_of.
    apply SFleb_Q; auto. lra.
Qed.

Lemma C10_witness :
  exists r, engineering (Float f5) (Int 100) (Float f30) = Ok r /\
    py_le (Float (literal 19999999999999996 (10 ^ 17))) (cloud_efficiency r) = true /\
    py_le (cloud_efficiency r) (Int 1) = true /\
    py_le (temp_efficiency r) (Int 1) = true /\
    py_le (actual_power r) (Float f5) = true.
Proof.
  destruct (C10_efficiency_bounds f5 (Int 100) f30
              eq_refl eq_refl eq_refl eq_refl eq_refl eq_refl) as (r & E & A & B & C & D).
  exists r. repeat split; try assumption. apply D. reflexivity.
Defined.

(** * The dashboard and the run *)

(** ** Conversions of integers *)

Lemma float_of_int_100 : float_of_int 100 = Ok f100.
Proof. reflexivity. Qed.

Lemma fmax_ge_2_53 : (inject_Z (2 ^ 53) <= F2Q fmax)%Q.
Proof. vm_compute. discriminate. Qed.

Lemma float_of_int_total z :
  Z.abs z <= 2 ^ 53 -> exists f, float_of_int z = Ok f.
Proof.
  intros H. unfold float_of_int.
  pose proof (binary_normalize_Rnd z 0) as R.
  destruct (Rnd_bounds _ _ _ _ _ _ R Rnd_fmin Rnd_fmax eq_refl eq_refl) as [W _].
  - pose proof fmax_ge_2_53 as K.
    assert (A : (inject_Z (- 2 ^ 53) <= inject_Z z <= inject_Z (2 ^ 53))%Q)
      by (rewrite <- !Zle_Qle; lia).
    rewrite inject_Z_opp in A.
    change (bpow 0) with 1%Q. split; lra.
  - destruct (binary_normalize prec emax z 0 false); try discriminate; eauto.
Qed.

Lemma Rnd_m1 : Rnd (-1) (SFopp f1).
Proof.
  apply (Rnd_compat (F2Q (SFopp f1))); [reflexivity|apply Rnd_F2Q; reflexivity].
Qed.

Lemma float_of_int_pos z f :
  float_of_int z = Ok f -> 0 < z -> exists m e, f = S754_finite false m e.
Proof.
  intros H Hz. destruct (float_of_int_Rnd z f H) as [R W].
  assert (L : SFleb f1 f = true).
  { apply (Rnd_le _ _ _ _ Rnd_1 R). change 1%Q with (inject_Z 1).
    rewrite <- Zle_Qle. lia. }
  destruct f as [s|s| |s m e]; try discriminate.
  destruct s; [discriminate|eauto].
Qed.

Lemma float_of_int_nonzero z f :
  float_of_int z = Ok f -> z <> 0 -> is_zero f = false.
Proof.
  intros H Hz. destruct (float_of_int_Rnd z f H) as [R W].
  destruct (Z.lt_total z 0) as [N|[E|P]]; [|contradiction|].
  - assert (L : SFleb f (SFopp f1) = true).
    { apply (Rnd_le _ _ _ _ R Rnd_m1). change (-1)%Q with (inject_Z (-1)).
      rewrite <- Zle_Qle. lia. }
    destruct f as [s|s| |s m e]; try reflexivity. destruct s; discriminate.
  - destruct (float_of_int_pos z f H P) as (m & e & ->). reflexivity.
Qed.

Lemma py_le_0_spec d : py_le (Float d) (Int 0) = SFleb d f0.
Proof.
  unfold py_le, num_compare, SFleb.
  destruct d as [s|s| |s m e]; try reflexivity; try (destruct s; reflexivity).
  rewrite SF_Z_compare_0. destruct s; reflexivity.
Qed.

(** ** [min] *)

Lemma py_min_le a b : py_le (py_min (Int a) b) (Int a) = true.
Proof.
  unfold py_min. destruct (py_lt b (Int a)) eqn:E.
  - unfold py_lt in E. unfold py_le.
    destruct (num_compare b (Int a)) as [[| |]|]; try discriminate; reflexivity.
  - unfold py_le, num_compare. rewrite Z.compare_refl. reflexivity.
Qed.

(** ** The coverage figure of line 161 *)

Lemma coverage_float mp mu muf :
  float_of_int mu = Ok muf -> mu <> 0 ->
  coverage (Float mp) (Int mu) =
  Ok (py_min (Int 100) (Float (fmul (fdiv mp muf) f100))).
Proof.
  intros H Hz. unfold coverage, py_truediv. rewrite H. cbn [bind].
  unfold float_truediv. rewrite (float_of_int_nonzero _ _ H Hz). reflexivity.
Qed.

Lemma coverage_zero mp : coverage (Float mp) (Int 0) = Raise ZeroDivisionError.
Proof. reflexivity. Qed.

Lemma net_of_none muf mp :
  wf muf = true -> (F2Q muf <= 0)%Q -> valid mp = true -> SFleb f0 mp = true ->
  net_of muf mp = f0.
Proof.
  intros Wm Lm V P. destruct (wf_split _ Wm) as [Vm Fm]. unfold net_of.
  destruct (nonneg_cases mp V P) as [->|[Wp Lp]].
  - assert (E : fsub muf (S754_infinity false) = S754_infinity true)
      by (destruct muf; try discriminate; reflexivity).
    rewrite E. reflexivity.
  - destruct (wf_split _ Wp) as [Vp Fp].
    rewrite SFleb_0_not_pos; [reflexivity|].
    apply (Rnd_nonpos _ _ (fsub_Rnd muf mp Vm Vp Fm Fp)). lra.
Qed.

Lemma no_usage_no_savings t mp :
  valid mp = true -> SFleb f0 mp = true ->
  py_gt (savings (fin_record f0 t mp)) (Int 0) = false.
Proof.
  intros V P. cbn [fin_record savings].
  rewrite (net_of_none f0 mp eq_refl ltac:(cbn; lra) V P).
  destruct t as [s|s| |s m e]; try reflexivity; destruct s; reflexivity.
Qed.

(** X1: when the production figure is not negative, the success box of line
    161 is never reached with a zero usage: if the savings are positive the
    division by [monthly_usage] is defined, the coverage has a value, and
    that value is at most 100. *)
Theorem coverage_defined (mu : Z) (t mp : float) (fin : Financial) :
  valid mp = true -> py_ge (Float mp) (Int 0) = true ->
  financial (Int mu) (Float t) (Float mp) = Ok fin ->
  py_gt (savings fin) (Int 0) = true ->
  mu <> 0 /\
  exists c, coverage (Float mp) (Int mu) = Ok c /\ py_le c (Int 100) = true.
Proof.
  intros V P H S. rewrite py_ge_0_spec in P.
  destruct (financial_cases _ _ _ _ H) as (muf & Hm & ->).
  assert (Hz : mu <> 0).
  { intros ->. rewrite float_of_int_0 in Hm. injection Hm as <-.
    rewrite (no_usage_no_savings t mp V P) in S. discriminate. }
  split; [exact Hz|].
  rewrite (coverage_float mp mu muf Hm Hz). eexists. split; [reflexivity|].
  apply py_min_le.
Qed.

Lemma coverage_defined_witness :
  350 <> 0 /\
  exists c, coverage (Float f300) (Int 350) = Ok c /\ py_le c (Int 100) = true.
Proof.
  apply (coverage_defined 350 f8 f300
           {| old_bill := Float (fmul (Z2SF 350) f8);
              net_usage := Float (fsub (Z2SF 350) f300);
              new_bill := Float (fmul (fsub (Z2SF 350) f300) f8);
              savings := Float (fsub (fmul (Z2SF 350) f8)
                                     (fmul (fsub (Z2SF 350) f300) f8)) |});
    vm_compute; reflexivity.
Defined.

Lemma Rnd_100 : Rnd 100 f100.
Proof. apply (Rnd_compat (F2Q f100)); [apply F2Q_f100|apply Rnd_F2Q; reflexivity]. Qed.

Lemma not_below_100 p :
  valid p = true -> SFleb f100 p = true -> py_lt (Float p) (Int 100) = false.
Proof.
  intros V H. destruct (valid_cases p V) as [W|[->|[->| ->]]];
    try discriminate; try reflexivity.
  apply (SFleb_Q f100 p eq_refl W) in H. rewrite F2Q_f100 in H.
  destruct (py_lt (Float p) (Int 100)) eqn:E; [|reflexivity].
  apply py_lt_Q in E; auto. cbn [num2Q] in E.
  change (inject_Z 100) with 100%Q in E. lra.
Qed.

Lemma at_least_cases mp mu :
  valid mp = true -> py_ge (Float mp) (Int mu) = true ->
  mp = S754_infinity false \/ (wf mp = true /\ (inject_Z mu <= F2Q mp)%Q).
Proof.
  intros V H. destruct (valid_cases mp V) as [W|[->|[->| ->]]];
    try discriminate; auto.
  right. split; [exact W|]. apply py_ge_Q in H; auto.
Qed.

(** X2: a production that reaches the usage is shown as a coverage of the
    [int] 100: for a positive usage and a production at least as large,
    line 161 evaluates [min(100, ...)] to its first argument. *)
Theorem coverage_full (mu : Z) (mp : float) :
  0 < mu <= 2 ^ 53 -> valid mp = true ->
  py_ge (Float mp) (Int mu) = true ->
  coverage (Float mp) (Int mu) = Ok (Int 100).
Proof.
  intros Hmu V H.
  destruct (float_of_int_total mu ltac:(lia)) as (muf & Hm).
  destruct (float_of_int_Rnd mu muf Hm) as [Rm Wm].
  destruct (float_of_int_pos mu muf Hm ltac:(lia)) as (m & e & ->).
  rewrite (coverage_float mp mu _ Hm ltac:(lia)).
  unfold py_min. rewrite not_below_100; [reflexivity| |].
  { apply fmul_valid; [apply fdiv_valid|reflexivity]. }
  assert (Lm : (1 <= F2Q (S754_finite false m e))%Q).
  { rewrite <- F2Q_f1. apply (Rnd_mono_Q _ _ _ _ Rnd_1 Rm eq_refl Wm).
    change 1%Q with (inject_Z 1). rewrite <- Zle_Qle. lia. }
  destruct (at_least_cases mp mu V H) as [->|[Wp Lp]]; [reflexivity|].
  destruct (wf_split _ Wp) as [Vp Fp].
  pose proof (fdiv_Rnd mp false m e Fp) as Rq.
  assert (Lq : (F2Q (S754_finite false m e) <= F2Q mp)%Q).
  { apply (Rnd_mono_Q _ _ _ _ Rm (Rnd_F2Q _ Wp) Wm Wp Lp). }
  set (d := F2Q (S754_finite false m e)) in *.
  assert (Q1 : (1 <= F2Q mp / d)%Q).
  { apply Qle_shift_div_l; lra. }
  pose proof (Rnd_le _ _ _ _ Rnd_1 Rq Q1) as L1.
  set (q := fdiv mp (S754_finite false m e)) in *.
  destruct (valid_cases q (Rnd_valid _ _ Rq)) as [Wq|[Eq|[Eq|Eq]]];
    try (rewrite Eq in L1; discriminate).
  - destruct (wf_split _ Wq) as [Vq Fq].
    pose proof (fmul_Rnd q f100 Vq eq_refl Fq eq_refl) as Rp.
    apply (Rnd_le _ _ _ _ Rnd_100 Rp).
    apply (SFleb_Q f1 q eq_refl Wq) in L1. rewrite F2Q_f1 in L1.
    rewrite F2Q_f100. lra.
  - rewrite Eq. reflexivity.
Qed.

Lemma coverage_full_witness : coverage (Float f300) (Int 300) = Ok (Int 100).
Proof.
  apply (coverage_full 300 f300); [lia|reflexivity|reflexivity].
Defined.

(** ** The output metric of line 107 *)

Lemma power_contract x share t :
  wf x = true -> (0 <= F2Q x)%Q ->
  wf share = true -> (0 <= F2Q share <= 1)%Q ->
  valid t = true -> py_le (Float t) (Int 225) = true ->
  wf (power_of x share t) = true /\ (0 <= F2Q (power_of x share t) <= F2Q x)%Q.
Proof.
  intros Wx Lx Ws Bs Vt H225.
  destruct (ce_bounds share Ws Bs) as [Wce [Lce Uce]].
  destruct (te_unit t Vt H225) as [Wte [Lte Ute]].
  rewrite F2Q_ce_min in Lce.
  destruct (fmul_contract x (ce_of share) Wx Wce Lx ltac:(lra)) as [Wcl [Lcl Ucl]].
  destruct (fmul_contract _ (te_of t) Wcl Wte Lcl ltac:(lra)) as [Wap [Lap Uap]].
  unfold power_of. split; [exact Wap|lra].
Qed.

(** X3: the delta under the output metric is never positive for inputs in
    range: for a non-negative finite system size, a cloud cover from 0 to
    100 and a temperature of at most 225 degrees, line 107's
    [actual_power - panel_power] has a value and it is at most 0. *)
Theorem output_delta_nonpos (x : float) (c : num) (t : float) :
  wf x = true -> py_ge (Float x) (Int 0) = true ->
  wf_num c = true -> py_le (Int 0) c = true -> py_le c (Int 100) = true ->
  valid t = true -> py_le (Float t) (Int 225) = true ->
  exists r d, engineering (Float x) c (Float t) = Ok r /\
              output_delta r (Float x) = Ok d /\
              py_le d (Int 0) = true.
Proof.
  intros Wx Hx Wc Hc0 Hc1 Vt H225. rewrite py_ge_0_spec in Hx.
  apply py_le_Q in Hc0, Hc1; auto. cbn [num2Q] in Hc0, Hc1.
  destruct (share_total c Wc (conj Hc0 Hc1)) as (share & Hs & Ws & Bs).
  pose proof (wf_nonneg x Wx Hx) as Lx.
  destruct (power_contract x share t Wx Lx Ws Bs Vt H225) as [Wp [Lp Up]].
  exists (float_record x share t), (Float (fsub (power_of x share t) x)).
  split; [apply engineering_returns, Hs|]. split; [reflexivity|].
  rewrite py_le_0_spec.
  destruct (wf_split _ Wx) as [Vx Fx]. destruct (wf_split _ Wp) as [Vp Fp].
  apply (Rnd_nonpos _ _ (fsub_Rnd _ _ Vp Vx Fp Fx)). lra.
Qed.

Lemma output_delta_nonpos_witness :
  exists r d, engineering (Float f5) (Int 100) (Float f30) = Ok r /\
              output_delta r (Float f5) = Ok d /\
              py_le d (Int 0) = true.
Proof.
  apply (output_delta_nonpos f5 (Int 100) f30); reflexivity.
Defined.

(** ** The thermal loss of line 132 *)

Lemma at_most_cases t z :
  valid t = true -> py_le (Float t) (Int z) = true ->
  t = S754_infinity true \/ (wf t = true /\ (F2Q t <= inject_Z z)%Q).
Proof.
  intros V H. destruct (valid_cases t V) as [W|[->|[->| ->]]];
    try discriminate; auto.
  right. split; [exact W|]. apply py_le_Q in H; auto.
Qed.

(** X4: the thermal loss shown in the glossary is a percentage: for every
    temperature [heat_loss*100] has a value and is not negative, it is the
    [int] 0 up to 25 degrees, and it is at most 100 up to 225 degrees. *)
Theorem heat_loss_percent_range (x : float) (c : num) (t : float)
                                (r : Engineering) :
  valid t = true ->
  engineering (Float x) c (Float t) = Ok r ->
  exists p, heat_loss_percent r = Ok p /\
            py_ge p (Int 0) = true /\
            (py_le (Float t) (Int 25) = true -> p = Int 0) /\
            (py_le (Float t) (Int 225) = true -> py_le p (Int 100) = true).
Proof.
  intros Vt H. destruct (engineering_cases _ _ _ _ H) as (share & Hs & ->).
  unfold heat_loss_percent. cbn [float_record heat_loss].
  destruct (is_pos (derate_of t)) eqn:P.
  - exists (Float (fmul (derate_of t) f100)). split; [reflexivity|].
    assert (Vd : valid (derate_of t) = true).
    { apply fmul_valid; [apply fsub_valid; [exact Vt|reflexivity]|reflexivity]. }
    split; [|split].
    + rewrite py_ge_0_spec.
      destruct (is_pos_cases _ P) as [E|(m & e & E)]; rewrite E; [reflexivity|].
      assert (Wd : wf (S754_finite false m e) = true)
        by (apply wf_spec; rewrite <- E; split; [exact Vd|rewrite E; reflexivity]).
      destruct (wf_split _ Wd) as [Vd' Fd'].
      apply (Rnd_nonneg _ _ (fmul_Rnd _ f100 Vd' eq_refl Fd' eq_refl)).
      assert (0 < F2Q (S754_finite false m e))%Q
        by (apply is_pos_Q; [exact Wd|rewrite <- E; exact P]).
      rewrite F2Q_f100. lra.
    + intros H25. apply py_le_25 in H25; [|exact Vt].
      rewrite (te_of_cold t Vt H25) in P. discriminate.
    + intros H225.
      destruct (at_most_cases t 225 Vt H225) as [->|[Wt Lt]]; [discriminate|].
      change (inject_Z 225) with 225%Q in Lt.
      destruct (derate_wf t Wt) as [Wd _]. destruct (wf_split _ Wd) as [Vd' Fd'].
      pose proof (derate_le_1 t Wt Lt) as L1.
      apply (is_pos_Q _ Wd) in P.
      pose proof (fmul_Rnd _ f100 Vd' eq_refl Fd' eq_refl) as Rp.
      destruct (Rnd_bounds _ _ _ _ _ _ Rp Rnd_0 Rnd_100 eq_refl eq_refl) as [Wp [_ Up]].
      { rewrite F2Q_f100. split; lra. }
      apply py_le_Q; auto. cbn [num2Q]. rewrite F2Q_f100 in Up.
      change (inject_Z 100) with 100%Q. exact Up.
  - exists (Int 0). repeat split; reflexivity.
Qed.

Lemma heat_loss_percent_range_witness :
  exists p, heat_loss_percent (float_record f5 f1 f30) = Ok p /\
            py_ge p (Int 0) = true /\
            (py_le (Float f30) (Int 25) = true -> p = Int 0) /\
            (py_le (Float f30) (Int 225) = true -> py_le p (Int 100) = true).
Proof.
  apply (heat_loss_percent_range f5 (Int 100) f30); reflexivity.
Defined.

(** ** Kelvin readings (lines 73, 80 and 81) *)

Lemma Rnd_num k kf :
  wf_num k = true ->
  match k with Int z => float_of_int z = Ok kf | Float f => f = kf end ->
  wf kf = true /\ Rnd (num2Q k) kf.
Proof.
  destruct k as [z|f]; cbn [wf_num num2Q]; intros W H.
  - destruct (float_of_int_Rnd z kf H); auto.
  - subst kf. split; [exact W|apply Rnd_F2Q, W].
Qed.

Lemma celsius_cases temp_k v :
  celsius temp_k = Ok v ->
  exists kf, match temp_k with
             | Int z => float_of_int z = Ok kf
             | Float f => f = kf
             end /\ v = Float (fsub kf f273_15).
Proof.
  unfold celsius, py_sub. destruct temp_k as [z|f].
  - destruct (float_of_int z) as [kf|e]; cbn [bind]; intros H; [|discriminate].
    exists kf. split; [reflexivity|congruence].
  - intros H. exists f. split; [reflexivity|congruence].
Qed.

(** X5: a reading of at most 298.15 K carries no thermal loss: whenever
    lines 73-92 return on such a reading, [heat_loss] is the [int] 0 and
    [temp_efficiency] the [int] 1. *)
Theorem kelvin_no_loss (x : float) (mu : Z) (tariff : float) (c temp_k : num)
                       (eng : Engineering) (fin : Financial) :
  wf_num temp_k = true ->
  py_le temp_k (Float (literal 29815 100)) = true ->
  analyse (Float x) (Int mu) (Float tariff) c temp_k = Ok (eng, fin) ->
  heat_loss eng = Int 0 /\ temp_efficiency eng = Int 1.
Proof.
  intros Wk Hk H. unfold analyse in H.
  destruct (bind_Ok _ _ _ H) as (tc & Hc & H1).
  destruct (celsius_cases _ _ Hc) as (kf & Hkf & ->).
  destruct (Rnd_num temp_k kf Wk Hkf) as [Wkf Rk].
  unfold compute in H1. destruct (bind_Ok _ _ _ H1) as (eng' & He & H2).
  destruct (bind_Ok _ _ _ H2) as (fin' & _ & H3).
  injection H3 as <- _.
  destruct (engineering_cases _ _ _ _ He) as (share & _ & ->).
  set (f298 := literal 29815 100) in *.
  assert (W298 : wf f298 = true) by reflexivity.
  apply py_le_Q in Hk; auto. cbn [num2Q] in Hk.
  assert (Lk : (F2Q kf <= F2Q f298)%Q)
    by (apply (Rnd_mono_Q _ _ _ _ Rk (Rnd_F2Q _ W298) Wkf W298 Hk)).
  destruct (wf_split _ Wkf) as [Vk Fk].
  assert (L25 : SFleb (fsub kf f273_15) f25 = true).
  { change f25 with (fsub f298 f273_15).
    apply (Rnd_le _ _ _ _ (fsub_Rnd kf f273_15 Vk eq_refl Fk eq_refl)
                          (fsub_Rnd f298 f273_15 eq_refl eq_refl eq_refl eq_refl)).
    lra. }
  assert (P : is_pos (derate_of (fsub kf f273_15)) = false).
  { apply te_of_cold; [apply fsub_valid; [exact Vk|reflexivity]|exact L25]. }
  cbn [float_record heat_loss temp_efficiency]. rewrite P. auto.
Qed.

Lemma kelvin_no_loss_witness :
  heat_loss (float_record f5 (fdiv f25 f100)
                          (fsub (literal 29815 100) f273_15)) = Int 0 /\
  temp_efficiency (float_record f5 (fdiv f25 f100)
                                (fsub (literal 29815 100) f273_15)) = Int 1.
Proof.
  apply (kelvin_no_loss f5 350 f8 (Int 25) (Float (literal 29815 100))
           (float_record f5 (fdiv f25 f100) (fsub (literal 29815 100) f273_15))
           (fin_record (Z2SF 350) f8
              (fmul (fmul (power_of f5 (fdiv f25 f100)
                             (fsub (literal 29815 100) f273_15)) f5) f30)));
    vm_compute; reflexivity.
Defined.

(** ** The two bills (lines 89-92) *)

Lemma usage_nonneg mu muf :
  0 <= mu -> float_of_int mu = Ok muf -> wf muf = true /\ (0 <= F2Q muf)%Q.
Proof.
  intros Hmu Hm. destruct (float_of_int_Rnd mu muf Hm) as [Rm Wm].
  split; [exact Wm|].
  change 0%Q with (F2Q f0). apply (Rnd_mono_Q _ _ _ _ Rnd_0 Rm eq_refl Wm).
  change 0%Q with (inject_Z 0). rewrite <- Zle_Qle. exact Hmu.
Qed.

(** X6: the bill with the panels is never above the bill without them: for
    a non-negative usage, a non-negative finite tariff and a non-negative
    production, [new_bill <= old_bill], also when a bill overflows. *)
Theorem new_bill_le_old_bill (mu : Z) (t mp : float) (r : Financial) :
  0 <= mu ->
  wf t = true -> py_ge (Float t) (Int 0) = true ->
  valid mp = true -> py_ge (Float mp) (Int 0) = true ->
  financial (Int mu) (Float t) (Float mp) = Ok r ->
  py_le (new_bill r) (old_bill r) = true.
Proof.
  intros Hmu Wt Pt Vp Pp H. rewrite py_ge_0_spec in Pt, Pp.
  destruct (financial_cases _ _ _ _ H) as (muf & Hm & ->).
  destruct (usage_nonneg mu muf Hmu Hm) as [Wm Lm].
  destruct (net_bounds muf mp Wm Lm Vp Pp) as [Wn [Ln Un]].
  cbn [fin_record new_bill old_bill]. rewrite py_le_floats.
  apply fmul_le_l; auto. apply wf_nonneg; auto.
Qed.

Lemma new_bill_le_old_bill_witness :
  py_le (new_bill (fin_record (Z2SF 350) f8 f300))
        (old_bill (fin_record (Z2SF 350) f8 f300)) = true.
Proof.
  apply (new_bill_le_old_bill 350 f8 f300);
    try reflexivity; lia.
Defined.

Lemma bills_finite mu muf t mp :
  0 <= mu -> float_of_int mu = Ok muf ->
  wf t = true -> SFleb f0 t = true ->
  valid mp = true -> SFleb f0 mp = true ->
  py_lt (Float (fmul muf t)) (Float (S754_infinity false)) = true ->
  wf (fmul muf t) = true /\ wf (fmul (net_of muf mp) t) = true /\
  (0 <= F2Q (fmul (net_of muf mp) t) <= F2Q (fmul muf t))%Q.
Proof.
  intros Hmu Hm Wt Pt Vp Pp Hfin.
  destruct (usage_nonneg mu muf Hmu Hm) as [Wm Lm].
  destruct (wf_split _ Wm) as [Vm Fm]. destruct (wf_split _ Wt) as [Vt Ft].
  pose proof (wf_nonneg t Wt Pt) as Lt.
  pose proof (fmul_Rnd muf t Vm Vt Fm Ft) as Ro.
  assert (Wo : wf (fmul muf t) = true).
  { apply old_bill_finite; [eapply Rnd_valid; eauto| |exact Hfin].
    apply (Rnd_nonneg _ _ Ro). nra. }
  destruct (wf_split _ Wo) as [Vo Fo].
  destruct (net_bounds muf mp Wm Lm Vp Pp) as [Wn [Ln Un]].
  destruct (wf_split _ Wn) as [Vn Fn].
  pose proof (fmul_Rnd (net_of muf mp) t Vn Vt Fn Ft) as Rn.
  destruct (Rnd_bounds _ _ _ _ _ _ Rn Rnd_0 Ro eq_refl Fo) as [Wb [Lb Ub]]; [split; nra|].
  change (F2Q f0) with 0%Q in Lb. auto.
Qed.

(** X7: the savings never exceed the bill they are taken from: for a
    non-negative usage, a non-negative finite tariff, a non-negative
    production and a finite old bill, [savings <= old_bill]. *)
Theorem savings_le_old_bill (mu : Z) (t mp : float) (r : Financial) :
  0 <= mu ->
  wf t = true -> py_ge (Float t) (Int 0) = true ->
  valid mp = true -> py_ge (Float mp) (Int 0) = true ->
  financial (Int mu) (Float t) (Float mp) = Ok r ->
  py_lt (old_bill r) (Float (S754_infinity false)) = true ->
  py_le (savings r) (old_bill r) = true.
Proof.
  intros Hmu Wt Pt Vp Pp H Hfin. rewrite py_ge_0_spec in Pt, Pp.
  destruct (financial_cases _ _ _ _ H) as (muf & Hm & ->).
  cbn [fin_record old_bill savings] in *.
  destruct (bills_finite mu muf t mp Hmu Hm Wt Pt Vp Pp Hfin) as (Wo & Wn & Ln & Un).
  destruct (wf_split _ Wo) as [Vo Fo]. destruct (wf_split _ Wn) as [Vn Fn].
  rewrite py_le_floats.
  apply (Rnd_le _ _ _ _ (fsub_Rnd _ _ Vo Vn Fo Fn) (Rnd_F2Q _ Wo)). lra.
Qed.

Lemma savings_le_old_bill_witness :
  py_le (savings (fin_record (Z2SF 350) f8 f300))
        (old_bill (fin_record (Z2SF 350) f8 f300)) = true.
Proof.
  apply (savings_le_old_bill 350 f8 f300);
    try reflexivity; lia.
Defined.

Lemma net_of_antitone muf mp1 mp2 :
  wf muf = true -> (0 <= F2Q muf)%Q ->
  valid mp1 = true -> SFleb f0 mp1 = true ->
  valid mp2 = true -> SFleb f0 mp2 = true ->
  SFleb mp1 mp2 = true ->
  (F2Q (net_of muf mp2) <= F2Q (net_of muf mp1))%Q.
Proof.
  intros Wm Lm V1 P1 V2 P2 L.
  destruct (net_bounds muf mp1 Wm Lm V1 P1) as [Wn1 [Ln1 Un1]].
  destruct (wf_split _ Wm) as [Vm Fm].
  destruct (nonneg_cases mp2 V2 P2) as [->|[W2 L2]].
  - assert (E : net_of muf (S754_infinity false) = f0).
    { unfold net_of. destruct muf; try discriminate; reflexivity. }
    rewrite E. exact Ln1.
  - destruct (nonneg_cases mp1 V1 P1) as [->|[W1 L1]].
    + destruct mp2 as [s|s| |s m e]; discriminate.
    + apply (SFleb_Q _ _ W1 W2) in L.
      destruct (wf_split _ W1) as [V1' F1]. destruct (wf_split _ W2) as [V2' F2].
      pose proof (fsub_Rnd muf mp1 Vm V1' Fm F1) as R1.
      pose proof (fsub_Rnd muf mp2 Vm V2' Fm F2) as R2.
      assert (Rlo : forall mp, wf mp = true -> Rnd (- F2Q mp) (SFopp mp)).
      { intros mp W. apply (Rnd_compat (F2Q (SFopp mp)));
          [apply F2Q_opp|apply Rnd_F2Q, wf_opp, W]. }
      assert (Flo : forall mp, wf mp = true -> is_finite (SFopp mp) = true).
      { intros mp W. destruct mp; try discriminate; reflexivity. }
      destruct (Rnd_bounds _ _ _ _ _ _ R1 (Rlo _ W1) (Rnd_F2Q muf Wm) (Flo _ W1) Fm)
        as [Wr1 _]; [lra|].
      destruct (Rnd_bounds _ _ _ _ _ _ R2 (Rlo _ W2) (Rnd_F2Q muf Wm) (Flo _ W2) Fm)
        as [Wr2 _]; [lra|].
      assert (K : (F2Q (fsub muf mp2) <= F2Q (fsub muf mp1))%Q)
        by (apply (Rnd_mono_Q _ _ _ _ R2 R1 Wr2 Wr1); lra).
      unfold net_of.
      destruct (is_pos (fsub muf mp2)) eqn:Q2, (is_pos (fsub muf mp1)) eqn:Q1.
      * exact K.
      * apply (is_pos_Q _ Wr2) in Q2. apply (is_pos_false_Q _ Wr1) in Q1. lra.
      * apply (is_pos_Q _ Wr1) in Q1. change (F2Q f0) with 0%Q. lra.
      * lra.
Qed.

(** X8: more production never lowers the savings: for a non-negative usage,
    a non-negative finite tariff, a finite old bill and two non-negative
    productions in order, the savings are in the same order. *)
Theorem savings_monotone (mu : Z) (t mp1 mp2 : float) (r1 r2 : Financial) :
  0 <= mu ->
  wf t = true -> py_ge (Float t) (Int 0) = true ->
  valid mp1 = true -> py_ge (Float mp1) (Int 0) = true ->
  valid mp2 = true -> py_le (Float mp1) (Float mp2) = true ->
  financial (Int mu) (Float t) (Float mp1) = Ok r1 ->
  financial (Int mu) (Float t) (Float mp2) = Ok r2 ->
  py_lt (old_bill r1) (Float (S754_infinity false)) = true ->
  py_le (savings r1) (savings r2) = true.
Proof.
  intros Hmu Wt Pt V1 P1 V2 L H1 H2 Hfin.
  rewrite py_ge_0_spec in Pt, P1. rewrite py_le_floats in L.
  destruct (financial_cases _ _ _ _ H1) as (muf & Hm & ->).
  destruct (financial_cases _ _ _ _ H2) as (muf' & Hm' & ->).
  assert (muf' = muf) by congruence. subst muf'.
  cbn [fin_record old_bill savings] in *.
  assert (P2 : SFleb f0 mp2 = true).
  { destruct (nonneg_cases mp1 V1 P1) as [->|[W1 L1]].
    - destruct mp2 as [s|s| |s m e]; try discriminate. destruct s; [discriminate|reflexivity].
    - destruct (valid_cases mp2 V2) as [W2|[->|[->| ->]]]; try reflexivity.
      + apply (SFleb_Q _ _ W1 W2) in L. apply (SFleb_Q f0 mp2 eq_refl W2).
        change (F2Q f0) with 0%Q. lra.
      + destruct mp1 as [s|s| |s m e]; try discriminate; destruct s; discriminate.
      + destruct mp1; discriminate. }
  destruct (usage_nonneg mu muf Hmu Hm) as [Wm Lm].
  destruct (bills_finite mu muf t mp1 Hmu Hm Wt Pt V1 P1 Hfin) as (Wo & Wn1 & Ln1 & Un1).
  destruct (bills_finite mu muf t mp2 Hmu Hm Wt Pt V2 P2 Hfin) as (_ & Wn2 & Ln2 & Un2).
  pose proof (net_of_antitone muf mp1 mp2 Wm Lm V1 P1 V2 P2 L) as K.
  destruct (net_bounds muf mp1 Wm Lm V1 P1) as [Wa1 _].
  destruct (net_bounds muf mp2 Wm Lm V2 P2) as [Wa2 _].
  pose proof (fmul_le_l _ _ t Wa2 Wa1 Wt (wf_nonneg t Wt Pt) K) as Kb.
  apply (SFleb_Q _ _ Wn2 Wn1) in Kb.
  destruct (wf_split _ Wo) as [Vo Fo].
  destruct (wf_split _ Wn1) as [Vn1 Fn1]. destruct (wf_split _ Wn2) as [Vn2 Fn2].
  rewrite py_le_floats.
  apply (Rnd_le _ _ _ _ (fsub_Rnd _ _ Vo Vn1 Fo Fn1) (fsub_Rnd _ _ Vo Vn2 Fo Fn2)). lra.
Qed.

Lemma savings_monotone_witness :
  py_le (savings (fin_record (Z2SF 350) f8 f150))
        (savings (fin_record (Z2SF 350) f8 f300)) = true.
Proof.
  apply (savings_monotone 350 f8 f150 f300);
    try reflexivity; lia.
Defined.

(** ** A system of size zero *)

Lemma fmul_zero_finite a b :
  is_zero a = true -> is_finite b = true -> is_zero (fmul a b) = true.
Proof.
  destruct a as [sa|sa| |sa ma ea]; try discriminate.
  destruct b as [sb|sb| |sb mb eb]; try discriminate; reflexivity.
Qed.

Lemma zero_is_finite a : is_zero a = true -> is_finite a = true.
Proof. destruct a; try discriminate; reflexivity. Qed.

Lemma py_eq_zero a : is_zero a = true -> py_eq (Float a) (Int 0) = true.
Proof. destruct a; try discriminate; reflexivity. Qed.

Lemma net_of_zero mu muf mp :
  0 <= mu -> float_of_int mu = Ok muf -> is_zero mp = true ->
  net_of muf mp = muf.
Proof.
  intros Hmu Hm Zp. destruct mp as [s| | |]; try discriminate.
  destruct (Z.eq_dec mu 0) as [->|N].
  - rewrite float_of_int_0 in Hm. injection Hm as <-. destruct s; reflexivity.
  - destruct (float_of_int_pos mu muf Hm ltac:(lia)) as (m & e & ->).
    unfold net_of.
    change (fsub (S754_finite false m e) (S754_zero s)) with (S754_finite false m e).
    rewrite is_pos_finite. reflexivity.
Qed.

(** X9: a system of size zero changes nothing: for a finite cloud cover and
    temperature and a non-negative usage, whenever lines 79-92 return, the
    output compares equal to 0 and the new bill is the old bill. *)
Theorem no_panels (x : float) (mu : Z) (tariff : float) (c : num) (t : float)
                  (eng : Engineering) (fin : Financial) :
  is_zero x = true -> wf_num c = true -> wf t = true -> 0 <= mu ->
  compute (Float x) (Int mu) (Float tariff) c (Float t) = Ok (eng, fin) ->
  py_eq (actual_power eng) (Int 0) = true /\ new_bill fin = old_bill fin.
Proof.
  intros Zx Wc Wt Hmu H. unfold compute in H.
  destruct (bind_Ok _ _ _ H) as (eng' & He & H1).
  destruct (bind_Ok _ _ _ H1) as (fin' & Hf & H2).
  injection H2 as <- <-.
  destruct (engineering_cases _ _ _ _ He) as (share & Hs & ->).
  cbn [float_record monthly_production actual_power] in *.
  pose proof (ce_wf share (share_wf c share Wc Hs)) as Wce.
  destruct (te_wf t Wt) as [Wte _].
  destruct (wf_split _ Wce) as [_ Fce]. destruct (wf_split _ Wte) as [_ Fte].
  assert (Zp : is_zero (power_of x share t) = true).
  { unfold power_of. apply fmul_zero_finite; [|exact Fte].
    apply fmul_zero_finite; [exact Zx|exact Fce]. }
  split; [apply py_eq_zero, Zp|].
  destruct (financial_cases _ _ _ _ Hf) as (muf & Hm & ->).
  cbn [fin_record new_bill old_bill].
  rewrite (net_of_zero mu muf _ Hmu Hm); [reflexivity|].
  apply fmul_zero_finite; [|reflexivity].
  apply fmul_zero_finite; [exact Zp|reflexivity].
Qed.

Lemma no_panels_witness :
  py_eq (actual_power (float_record f0 (fdiv f25 f100) f30)) (Int 0) = true /\
  new_bill (fin_record (literal 350 1) f8 f0) =
  old_bill (fin_record (literal 350 1) f8 f0).
Proof.
  apply (no_panels f0 350 f8 (Int 25) f30); try reflexivity; lia.
Defined.

(** ** The entries read from the weather record (lines 71-75) *)

Lemma result_bind_Return {A B} (m : result A) (k : A -> result B) b :
  result_bind m k = Return b <-> exists a, m = Return a /\ k a = Return b.
Proof.
  destruct m as [a|e]; cbn [result_bind]; split.
  - intros H. exists a. auto.
  - intros (a' & E & H). injection E as <-. exact H.
  - discriminate.
  - intros (a' & E & _). discriminate.
Qed.

Lemma lift_Return {A} (r : res A) a : lift r = Return a <-> r = Ok a.
Proof. destruct r; cbn [lift]; split; congruence. Qed.



Lemma data_mining_Return data w :
  data_mining data = Return w <->
  (exists all, getitem data "clouds" = Return all /\
               getitem all "all" = Return (clouds w)) /\
  (exists main temp_k kelvin,
     getitem data "main" = Return main /\
     getitem main "temp" = Return temp_k /\
     as_num temp_k = Return kelvin /\
     celsius kelvin = Ok (temp_c w)) /\
  (exists coord, getitem data "coord" = Return coord /\
                 getitem coord "lat" = Return (lat w) /\
                 getitem coord "lon" = Return (lon w)).
Proof.
  unfold data_mining. split.
  - intros H.
    apply result_bind_Return in H. destruct H as (all & E1 & H).
    apply result_bind_Return in H. destruct H as (cl & E2 & H).
    apply result_bind_Return in H. destruct H as (main & E3 & H).
    apply result_bind_Return in H. destruct H as (tk & E4 & H).
    apply result_bind_Return in H. destruct H as (k & E5 & H).
    apply result_bind_Return in H. destruct H as (tc & E6 & H).
    apply result_bind_Return in H. destruct H as (co & E7 & H).
    apply result_bind_Return in H. destruct H as (la & E8 & H).
    apply result_bind_Return in H. destruct H as (co' & E9 & H).
    apply result_bind_Return in H. destruct H as (lo & E10 & H).
    injection H as <-. cbn [clouds temp_c lat lon].
    apply lift_Return in E6.
    assert (co' = co) by congruence. subst co'.
    split; [exists all; auto|]. split; [exists main, tk, k; auto|exists co; auto].
  - intros ((all & E1 & E2) & (main & tk & k & E3 & E4 & E5 & E6) & (co & E7 & E8 & E9)).
    rewrite E1. cbn [result_bind]. rewrite E2. cbn [result_bind].
    rewrite E3. cbn [result_bind]. rewrite E4. cbn [result_bind].
    rewrite E5. cbn [result_bind]. rewrite E6. cbn [lift result_bind].
    rewrite E7. cbn [result_bind]. rewrite E8. cbn [result_bind].
    rewrite E9. cbn [result_bind]. destruct w; reflexivity.
Qed.


Lemma mining_float data w :
  data_mining data = Return w -> exists tc, temp_c w = Float tc.
Proof.
  intros H. apply data_mining_Return in H.
  destruct H as (_ & (main & tk & k & _ & _ & _ & E) & _).
  destruct (celsius_cases _ _ E) as (kf & _ & ->). eauto.
Qed.

(** ** The dashboard (lines 99-161) *)

Lemma heat_loss_percent_total x share t :
  exists p, heat_loss_percent (float_record x share t) = Ok p.
Proof.
  unfold heat_loss_percent. cbn [float_record heat_loss].
  destruct (is_pos (derate_of t)); eexists; reflexivity.
Qed.

Lemma dashboard_float inp w share t fin :
  let eng := float_record (panel_power inp) share t in
  snd (dashboard inp w eng fin) = dashboard_end eng fin (monthly_usage inp) /\
  (forall body, ~ In (Error body) (fst (dashboard inp w eng fin))) /\
  (16 <= length (fst (dashboard inp w eng fin)))%nat.
Proof.
  intros eng. unfold dashboard, dashboard_end.
  destruct (heat_loss_percent_total (panel_power inp) share t) as [p Hp].
  fold eng in Hp. rewrite Hp.
  change (output_delta eng (Float (panel_power inp)))
    with (Ok (Float (fsub (power_of (panel_power inp) share t) (panel_power inp)))).
  destruct (py_gt (savings fin) (Int 0)).
  - destruct (coverage (monthly_production eng) (Int (monthly_usage inp))) as [c|e];
      cbn [trace_bind emit eval lift fst snd app done length]; (split; [reflexivity|]);
      (split; [|lia]); intros body H; cbn [In] in H;
      repeat (destruct H as [H|H]; [discriminate|]); exact H.
  - cbn [trace_bind emit eval lift fst snd app done length]. split; [reflexivity|].
    split; [|lia]. intros body H. cbn [In] in H.
    repeat (destruct H as [H|H]; [discriminate|]). exact H.
Qed.

Lemma calculations_cases inp w ef :
  calculations inp w = Return ef ->
  (exists tc, temp_c w = Float tc) ->
  exists share t muf,
    float_of_int (monthly_usage inp) = Ok muf /\
    fst ef = float_record (panel_power inp) share t /\
    snd ef = fin_record muf (tariff inp)
               (fmul (fmul (power_of (panel_power inp) share t) f5) f30).
Proof.
  unfold calculations. intros H [tc Htc]. rewrite Htc in H.
  apply result_bind_Return in H. destruct H as (c & _ & H).
  apply lift_Return in H. unfold compute in H.
  destruct (bind_Ok _ _ _ H) as (eng & He & H1).
  destruct (bind_Ok _ _ _ H1) as (fin & Hf & H2).
  injection H2 as <-.
  destruct (engineering_cases _ _ _ _ He) as (share & _ & ->).
  cbn [float_record monthly_production] in Hf.
  destruct (financial_cases _ _ _ _ Hf) as (muf & Hm & ->).
  exists share, tc, muf. auto.
Qed.

Lemma dashboard_end_cases x share t muf tariff mu :
  float_of_int mu = Ok muf ->
  let eng := float_record x share t in
  let fin := fin_record muf tariff (fmul (fmul (power_of x share t) f5) f30) in
  dashboard_end eng fin mu = Return tt \/
  (dashboard_end eng fin mu = Throw (Arithmetic ZeroDivisionError) /\ mu = 0).
Proof.
  intros Hm eng fin. unfold dashboard_end.
  destruct (py_gt (savings fin) (Int 0)); [|auto].
  cbn [eng float_record monthly_production].
  destruct (Z.eq_dec mu 0) as [->|N].
  - right. rewrite coverage_zero. auto.
  - left. rewrite (coverage_float _ mu muf Hm N). reflexivity.
Qed.

(** ** The [try] block (lines 65-164) *)

Lemma try_body_cases world inp url :
  (exists e, get world url = Throw e /\ try_body world inp url = ([], Throw e)) \/
  (exists response,
     get world url = Return response /\ status_code response <> 200 /\
     try_body world inp url = ([city_not_found], Return tt)) \/
  (exists response e,
     get world url = Return response /\ status_code response = 200 /\
     stages inp response = Throw e /\
     try_body world inp url = ([], Throw e)) \/
  (exists response w ef,
     get world url = Return response /\ status_code response = 200 /\
     stages inp response = Return (w, ef) /\
     (exists tc, temp_c w = Float tc) /\
     try_body world inp url = dashboard inp w (fst ef) (snd ef)).
Proof.
  unfold try_body, stages.
  destruct (get world url) as [response|e]; [|left; eauto].
  right. cbn [eval trace_bind].
  destruct (Z.eqb_spec (status_code response) 200) as [E|N].
  - right.
    destruct (json_body response) as [data|e] eqn:J; cbn [eval trace_bind].
    2:{ left. exists response, e. rewrite J. auto. }
    destruct (data_mining data) as [w|e] eqn:M; cbn [eval trace_bind].
    2:{ left. exists response, e. rewrite J. cbn [result_bind]. rewrite M. auto. }
    destruct (calculations inp w) as [ef|e] eqn:C; cbn [eval trace_bind].
    2:{ left. exists response, e. rewrite J. cbn [result_bind]. rewrite M.
        cbn [result_bind]. rewrite C. auto. }
    right. exists response, w, ef. rewrite J. cbn [result_bind]. rewrite M.
    cbn [result_bind]. rewrite C. cbn [result_bind].
    repeat (split; [reflexivity || exact E|]).
    split; [exact (mining_float _ _ M)|].
    destruct (dashboard inp w (fst ef) (snd ef)); reflexivity.
  - left. exists response. cbn [emit app fst snd]. auto.
Qed.

Lemma stages_cases inp response w ef :
  stages inp response = Return (w, ef) ->
  exists data, json_body response = Return data /\
               data_mining data = Return w /\
               calculations inp w = Return ef.
Proof.
  unfold stages. intros H.
  apply result_bind_Return in H. destruct H as (data & E1 & H).
  apply result_bind_Return in H. destruct H as (w' & E2 & H).
  apply result_bind_Return in H. destruct H as (ef' & E3 & H).
  injection H as <- <-. eauto.
Qed.

Lemma dashboard_run inp w ef :
  calculations inp w = Return ef ->
  (exists tc, temp_c w = Float tc) ->
  (forall body, ~ In (Error body) (fst (dashboard inp w (fst ef) (snd ef)))) /\
  (16 <= length (fst (dashboard inp w (fst ef) (snd ef))))%nat /\
  (snd (dashboard inp w (fst ef) (snd ef)) = Return tt \/
   (snd (dashboard inp w (fst ef) (snd ef)) = Throw (Arithmetic ZeroDivisionError) /\
    monthly_usage inp = 0)).
Proof.
  intros H Hw.
  destruct (calculations_cases inp w ef H Hw) as (share & t & muf & Hm & -> & ->).
  destruct (dashboard_float inp w share t
              (fin_record muf (tariff inp)
                 (fmul (fmul (power_of (panel_power inp) share t) f5) f30)))
    as (E & N & L).
  split; [exact N|]. split; [exact L|]. rewrite E.
  apply dashboard_end_cases, Hm.
Qed.

(** ** The run (lines 57-168) *)


(** X12: a status other than 200 is reported as a city that was not found,
    and nothing else is: the not-found box appears only alone, and a run
    that got past the key shows exactly that box if and only if the
    request returned with a status code different from 200. *)
Theorem city_not_found_iff (world : World) (inp : Inputs) (key : string)
                           (page : list widget) :
  button world = true ->
  secret world "OPENWEATHER_KEY" = Return key ->
  script world inp = Rendered page ->
  (In city_not_found page -> page = [city_not_found]) /\
  (page = [city_not_found] <->
   exists response, get world (url_of (city inp) key) = Return response /\
                    status_code response <> 200).
Proof.
  unfold script. intros -> ->.
  destruct (try_body_cases world inp (url_of (city inp) key))
    as [(e0 & G & ->)|[(r & G & St & ->)|[(r & e0 & G & St & _ & ->)|
        (r & w & ef & G & St & S & Hw & ->)]]].
  - intros [= <-]. split; [intros [H|[]]; discriminate|].
    split; [discriminate|]. intros (r & G' & _). congruence.
  - intros [= <-]. split; [auto|]. split; [eauto|reflexivity].
  - intros [= <-]. split; [intros [H|[]]; discriminate|].
    split; [discriminate|]. intros (r' & G' & N). congruence.
  - destruct (stages_cases _ _ _ _ S) as (data & _ & _ & C).
    destruct (dashboard_run inp w ef C Hw) as (N & L & K).
    assert (A : forall tail, (1 < length (fst (dashboard inp w (fst ef) (snd ef)) ++ tail))%nat)
      by (intros tail; rewrite length_app; lia).
    destruct (dashboard inp w (fst ef) (snd ef)) as [ws [[]|e0]];
      cbn [fst snd] in *; intros [= <-].
    + split; [intros H; destruct (N _ H)|].
      split; [intros E; specialize (A []); rewrite app_nil_r, E in A; cbn in A; lia|].
      intros (r' & G' & N'). congruence.
    + split.
      * intros H. apply in_app_or in H.
        destruct H as [H|[H|[]]]; [destruct (N _ H)|discriminate].
      * split; [intros E; specialize (A [connection_error e0]);
                rewrite E in A; cbn in A; lia|].
        intros (r' & G' & N'). congruence.
Qed.


(** ** Runs that draw the whole dashboard *)






Lemma city_not_found_iff_witness :
  (In city_not_found [city_not_found] -> [city_not_found] = [city_not_found]) /\
  ([city_not_found] = [city_not_found] <->
   exists response,
     get (sample_world 404 (Throw (RequestError "no body")))
         (url_of (city (sample_form f5 350 f8)) "key") = Return response /\
     status_code response <> 200).
Proof.
  apply (city_not_found_iff (sample_world 404 (Throw (RequestError "no body")))
           (sample_form f5 350 f8) "key"); reflexivity.
Defined.

(** ** When line 161 divides by zero *)

Lemma is_pos_negative m e : is_pos (S754_finite true m e) = false.
Proof. rewrite is_pos_spec. reflexivity. Qed.

Lemma savings_not_pos_tariff t mp :
  wf t = true -> is_neg t = false ->
  valid mp = true -> is_neg mp = true ->
  is_pos (fsub (fmul f0 t) (fmul (net_of f0 mp) t)) = false.
Proof.
  intros Wt Nt Vp Np.
  assert (En : exists n, net_of f0 mp = n /\
                 (n = S754_infinity false \/
                  exists m e, n = S754_finite false m e /\
                              bounded prec emax m e = true)).
  { destruct (is_neg_cases _ Np) as [->|(m & e & ->)].
    - exists (S754_infinity false). split; [reflexivity|auto].
    - exists (S754_finite false m e). split; [|right; eauto].
      unfold net_of.
      change (fsub f0 (S754_finite true m e)) with (S754_finite false m e).
      rewrite is_pos_finite. reflexivity. }
  destruct En as (n & -> & Hn).
  destruct (wf_cases t Wt) as [[s ->]|(s & m' & e' & -> & Bt)].
  - destruct Hn as [->|(m & e & -> & _)]; destruct s; reflexivity.
  - destruct s; [rewrite is_neg_finite in Nt; discriminate|].
    change (fmul f0 (S754_finite false m' e')) with (S754_zero false).
    destruct Hn as [->|(m & e & -> & Bn)]; [reflexivity|].
    destruct (fmul_finite_sign false m e false m' e' Bn Bt)
      as [E|[E|(m2 & e2 & E)]]; rewrite E; try reflexivity.
    change (fsub (S754_zero false) (S754_finite (xorb false false) m2 e2))
      with (S754_finite true m2 e2).
    apply is_pos_negative.
Qed.

Lemma self_sub_not_pos t : is_pos (fsub (fmul f0 t) (fmul f0 t)) = false.
Proof. destruct t as [s|s| |s m e]; try reflexivity; destruct s; reflexivity. Qed.

(** X15: line 161 can fail in one way only: if the financial lines return,
    the savings are positive and the coverage raises, then the exception is
    [ZeroDivisionError], the usage is 0, and both the tariff and the
    production are negative. *)
Theorem zero_division_needs (mu : Z) (t mp : float) (fin : Financial)
                            (e : exn) :
  valid mp = true -> wf t = true ->
  financial (Int mu) (Float t) (Float mp) = Ok fin ->
  py_gt (savings fin) (Int 0) = true ->
  coverage (Float mp) (Int mu) = Raise e ->
  e = ZeroDivisionError /\ mu = 0 /\
  py_lt (Float t) (Int 0) = true /\ py_lt (Float mp) (Int 0) = true.
Proof.
  intros Vp Wt H S C.
  destruct (financial_cases _ _ _ _ H) as (muf & Hm & ->).
  destruct (Z.eq_dec mu 0) as [->|N];
    [|rewrite (coverage_float mp mu muf Hm N) in C; discriminate].
  rewrite coverage_zero in C. injection C as <-.
  rewrite float_of_int_0 in Hm. injection Hm as <-.
  rewrite !py_lt_0_spec. cbn [fin_record savings] in S.
  rewrite py_gt_0_spec in S.
  assert (Np : is_neg mp = true).
  { destruct (SFleb f0 mp) eqn:P.
    - pose proof (no_usage_no_savings t mp Vp P) as K.
      cbn [fin_record savings] in K. rewrite py_gt_0_spec in K. congruence.
    - destruct (valid_cases mp Vp) as [W|[->|[->| ->]]]; try discriminate.
      + apply is_neg_Q; [exact W|].
        destruct (Qlt_le_dec (F2Q mp) 0) as [L|L]; [exact L|].
        apply (SFleb_Q f0 mp eq_refl W) in L. congruence.
      + reflexivity.
      + change (net_of f0 S754_nan) with f0 in S.
        rewrite self_sub_not_pos in S. discriminate. }
  repeat split; [|exact Np].
  destruct (is_neg t) eqn:Nt; [reflexivity|].
  rewrite (savings_not_pos_tariff t mp Wt Nt Vp Np) in S. discriminate.
Qed.

Lemma zero_division_needs_witness :
  ZeroDivisionError = ZeroDivisionError /\ 0 = 0 /\
  py_lt (Float (SFopp f8)) (Int 0) = true /\
  py_lt (Float (SFopp f300)) (Int 0) = true.
Proof.
  apply (zero_division_needs 0 (SFopp f8) (SFopp f300)
           (fin_record f0 (SFopp f8) (SFopp f300)) ZeroDivisionError);
    reflexivity.
Defined.
